(** * AIStore control plane: access masks, rebalance status probes,
      directory promote, and the primary proxy's cluster handlers.

    A shallow embedding of
      - cmn:  [accessToStr], [ModifyAccess], [AccessOp]  (access-control bitmask)
      - reb:  [checkGlobStatus], [pingTarget], [rxReady],
              [waitFinExtended]                        (rebalance status probes)
      - xs:   [XactDirPromote.walk], [XactDirPromote.Run]  (directory promote)
      - ais:  [httpclupost], [handleJoinKalive], [addOrUpdateNode],
              [updateAndDistribute], [_perfRebPost], [cluSetPrimary],
              [httpcludel], [callRmSelf], [unregNode], [_unregNodePre],
              [removeAfterRebalance]                   (primary proxy)
      - archive: [namesEq] and the [Range] methods of the tar, tgz, zip and
              tar.lz4 readers                          (archive readers)
    followed by the properties established about them. *)

From Stdlib Require Import ZArith Lia Bool List String Ascii.
From stdpp Require Import gmap strings list.

Local Open Scope string_scope.
Local Open Scope list_scope.
Local Open Scope Z_scope.

(* ================================================================== *)
(** ** Package cluster: nodes and the cluster map *)
(* ================================================================== *)

Module Cluster.

Record NetInfo : Type := {
  NodeHostname : string;
  DaemonPort : string;
  DirectURL : string
}.

Record Snode : Type := {
  DaemonID : string;
  DaemonType : string;          (* cmn.Proxy | cmn.Target *)
  PublicNet : NetInfo;
  IntraControlNet : NetInfo;
  IntraDataNet : NetInfo;
  Flags : Z                     (* SnodeFlags bitmask *)
}.

#[global] Instance NetInfo_eq_dec : EqDecision NetInfo.
Proof. solve_decision. Defined.
#[global] Instance Snode_eq_dec : EqDecision Snode.
Proof. solve_decision. Defined.

Definition Proxy : string := "proxy".
Definition Target : string := "target".

Definition ID (d : Snode) : string := DaemonID d.
Definition IsProxy (d : Snode) : bool := String.eqb (DaemonType d) Proxy.
Definition IsTarget (d : Snode) : bool := String.eqb (DaemonType d) Target.

(** Modelled from the spec: [Snode.Equals] is not part of the sources at hand;
    "Equality compares ID and endpoints". *)
Definition Equals (d other : Snode) : bool :=
  String.eqb (ID d) (ID other)
  && bool_decide (PublicNet d = PublicNet other)
  && bool_decide (IntraControlNet d = IntraControlNet other)
  && bool_decide (IntraDataNet d = IntraDataNet other).

(** The cluster map.  [Pmap]/[Tmap] are Go maps keyed by node ID; a nil
    [*Snode] is [None]. *)
Record Smap : Type := {
  Version : Z;
  UUID : string;
  Primary : option Snode;
  Pmap : gmap string Snode;
  Tmap : gmap string Snode
}.

Definition GetProxy (m : Smap) (pid : string) : option Snode := Pmap m !! pid.
Definition GetTarget (m : Smap) (tid : string) : option Snode := Tmap m !! tid.

(** Modelled from the spec: [Smap.GetNode] is not part of the sources at hand;
    a node is looked up by ID among the targets and the proxies ("a node
    never appears in both maps"). *)
Definition GetNode (m : Smap) (id : string) : option Snode :=
  match GetTarget m id with
  | Some n => Some n
  | None => GetProxy m id
  end.

End Cluster.

(** Go's [error] values.  [fmt.Errorf]/[errors.New] keep the format string and
    its arguments apart, so that nothing depends on how [%q], [%s] or [%v]
    render; [errNodeNotFound] is the proxy's not-found error struct
    (its message may itself be a [Sprintf]); [ErrIO]
    stands for an error produced outside the modelled code (transport,
    decoding, validation helpers). *)
#[warnings="-register-all"]
Inductive error : Type :=
| Errorf (fmt : string) (args : list fmtArg)
| errNodeNotFound (msg : string) (msgArgs : list fmtArg) (id : string)
    (si : Cluster.Snode) (smap : Cluster.Smap)
| ErrIO (descr : string)
with fmtArg : Type :=
| FStr (s : string)
| FInt (z : Z)
| FNode (n : Cluster.Snode)
| FSmap (m : Cluster.Smap)
| FErr (e : error).

(* ================================================================== *)
(** ** Package cmn: the access-control bitmask *)
(* ================================================================== *)

Module Cmn.

(** [uint64] values are integers in [0, 2^64). *)
Definition is_uint64 (x : Z) : Prop := 0 <= x < 2 ^ 64.

(** [1 << iota] *)
Definition iota_bit (iota : Z) : Z := Z.shiftl 1 iota.

(* object *)
Definition AccessGET : Z := iota_bit 0.
Definition AccessObjHEAD : Z := iota_bit 1.
Definition AccessPUT : Z := iota_bit 2.
Definition AccessAPPEND : Z := iota_bit 3.
Definition AccessDownload : Z := iota_bit 4.
Definition AccessObjDELETE : Z := iota_bit 5.
Definition AccessObjRENAME : Z := iota_bit 6.
Definition AccessPROMOTE : Z := iota_bit 7.
(* bucket *)
Definition AccessBckHEAD : Z := iota_bit 8.
Definition AccessObjLIST : Z := iota_bit 9.
Definition AccessBckRENAME : Z := iota_bit 10.
Definition AccessPATCH : Z := iota_bit 11.
Definition AccessMAKENCOPIES : Z := iota_bit 12.
Definition AccessEC : Z := iota_bit 13.
Definition AccessSYNC : Z := iota_bit 14.
Definition AccessBckDELETE : Z := iota_bit 15.
(* cluster *)
Definition AccessBckCreate : Z := iota_bit 16.
Definition AccessBckLIST : Z := iota_bit 17.
Definition AccessADMIN : Z := iota_bit 18.
(* must be the last one *)
Definition AccessMax : Z := iota_bit 19.

(** [^uint64(0)] *)
Definition allowAllAccess : Z := Z.ones 64.

Definition AllowAccess : string := "allow".
Definition DenyAccess : string := "deny".

(** access => operation.  The source's table has no entry for
    [AccessBckLIST]. *)
Definition accessOp : gmap Z string :=
  list_to_map
    [ (AccessGET, "GET");
      (AccessObjHEAD, "HEAD-OBJECT");
      (AccessPUT, "PUT");
      (AccessAPPEND, "APPEND");
      (AccessDownload, "DOWNLOAD");
      (AccessObjDELETE, "DELETE-OBJECT");
      (AccessObjRENAME, "RENAME-OBJECT");
      (AccessPROMOTE, "PROMOTE");
      (AccessBckHEAD, "HEAD-BUCKET");
      (AccessObjLIST, "LIST-OBJECTS");
      (AccessBckRENAME, "RENAME-BUCKET");
      (AccessPATCH, "PATCH");
      (AccessMAKENCOPIES, "MAKE-NCOPIES");
      (AccessEC, "EC");
      (AccessSYNC, "SYNC-BUCKET");
      (AccessBckDELETE, "DELETE-BUCKET");
      (AccessBckCreate, "CREATE-BUCKET");
      (AccessADMIN, "ADMIN") ].

(** Go's [m[k]] on a [map[int]string]: the zero value when [k] is absent. *)
Definition accessOp_at (k : Z) : string := default "" (accessOp !! k).

Definition AccessOp (access : Z) : string :=
  match accessOp !! access with
  | Some s => s
  | None => "<unknown access>"
  end.

(** [aattrs&bit == bit] *)
Definition has (aattrs bit : Z) : bool := Z.eqb (Z.land aattrs bit) bit.

(** [strings.Join(l, sep)] *)
Definition Join (l : list string) (sep : string) : string := String.concat sep l.

Definition accessToStr (aattrs : Z) : string :=
  if Z.eqb aattrs 0 then "No access" else
  let accList : list string := [] in
  let accList := if has aattrs AccessGET then accList ++ [accessOp_at AccessGET] else accList in
  let accList := if has aattrs AccessObjHEAD then accList ++ [accessOp_at AccessObjHEAD] else accList in
  let accList := if has aattrs AccessPUT then accList ++ [accessOp_at AccessPUT] else accList in
  let accList := if has aattrs AccessAPPEND then accList ++ [accessOp_at AccessAPPEND] else accList in
  let accList := if has aattrs AccessDownload then accList ++ [accessOp_at AccessDownload] else accList in
  let accList := if has aattrs AccessObjDELETE then accList ++ [accessOp_at AccessObjDELETE] else accList in
  let accList := if has aattrs AccessObjRENAME then accList ++ [accessOp_at AccessObjRENAME] else accList in
  let accList := if has aattrs AccessPROMOTE then accList ++ [accessOp_at AccessPROMOTE] else accList in
  (* *)
  let accList := if has aattrs AccessBckHEAD then accList ++ [accessOp_at AccessBckHEAD] else accList in
  let accList := if has aattrs AccessObjLIST then accList ++ [accessOp_at AccessObjLIST] else accList in
  let accList := if has aattrs AccessBckRENAME then accList ++ [accessOp_at AccessBckRENAME] else accList in
  let accList := if has aattrs AccessPATCH then accList ++ [accessOp_at AccessPATCH] else accList in
  let accList := if has aattrs AccessMAKENCOPIES then accList ++ [accessOp_at AccessMAKENCOPIES] else accList in
  let accList := if has aattrs AccessSYNC then accList ++ [accessOp_at AccessSYNC] else accList in
  let accList := if has aattrs AccessBckDELETE then accList ++ [accessOp_at AccessBckDELETE] else accList in
  Join accList ",".

Definition ModifyAccess (aattr : Z) (action : string) (bits : Z) : Z * option error :=
  if String.eqb action AllowAccess then (Z.lor aattr bits, None)
  else if negb (String.eqb action DenyAccess)
  then (0, Some (Errorf "unknown make-access action %q" [FStr action]))
  else (Z.land aattr (Z.lxor allowAllAccess bits), None).

(** The bits [accessToStr] tests, in the order it tests them, as bit
    positions with the names it prints for them. *)
Definition listedAccess : list (Z * string) :=
  [ (0, "GET"); (1, "HEAD-OBJECT"); (2, "PUT"); (3, "APPEND"); (4, "DOWNLOAD");
    (5, "DELETE-OBJECT"); (6, "RENAME-OBJECT"); (7, "PROMOTE");
    (8, "HEAD-BUCKET"); (9, "LIST-OBJECTS"); (10, "RENAME-BUCKET"); (11, "PATCH");
    (12, "MAKE-NCOPIES"); (14, "SYNC-BUCKET"); (15, "DELETE-BUCKET") ].

(** The names of the listed bits that are set in [aattrs]. *)
Definition listedNames (aattrs : Z) : list string :=
  map snd (filter (fun p => Z.testbit aattrs (fst p) = true) listedAccess).

(** The cluster-level bits and their names in the spec. *)
Definition clusterAccess : Z := Z.lor AccessBckCreate (Z.lor AccessBckLIST AccessADMIN).
Definition clusterNames : list string := ["CREATE-BUCKET"; "LIST-BUCKETS"; "ADMIN"].

(** The names of the listed bits selected by [sel], in the order
    [accessToStr] prints them. *)
Definition namesWhere (sel : Z -> bool) : list string :=
  map snd (List.filter (fun p => sel (fst p)) listedAccess).

(* Permissions *)
Definition allowReadOnlyAccess : Z :=
  Z.lor (Z.lor (Z.lor AccessGET AccessObjHEAD) AccessBckHEAD) AccessObjLIST.
Definition allowReadWriteAccess : Z :=
  Z.lor (Z.lor (Z.lor (Z.lor (Z.lor allowReadOnlyAccess
    AccessPUT) AccessAPPEND) AccessDownload) AccessObjDELETE) AccessObjRENAME.
Definition allowClusterAccess : Z := Z.land allowAllAccess (AccessBckCreate - 1).

Definition NoAccess : Z := 0.
Definition AllAccess : Z := allowAllAccess.
Definition ReadOnlyAccess : Z := allowReadOnlyAccess.
Definition ReadWriteAccess : Z := allowReadWriteAccess.

(** The bit positions that have an entry in [accessOp]. *)
Definition namedBits : list Z := [0; 1; 2; 3; 4; 5; 6; 7; 8; 9; 10; 11; 12; 13; 14; 15; 16; 18].

End Cmn.


(* ================================================================== *)
(** ** Package reb: node <=> node status probes *)
(* ================================================================== *)

Module Reb.
Import Cluster.

Record Status : Type := {
  Targets : list Snode;         (* targets I'm waiting for ACKs from *)
  SmapVersion : Z;
  RebVersion : Z;
  RebID : Z;                    (* rebalance ID *)
  Stage : Z;                    (* uint32 *)
  Aborted : bool;
  Running : bool;
  Quiescent : bool
}.

(** What [reb.t.Health] returns: [(body, code, err)]. *)
Record HealthReply : Type := {
  body : string;
  code : Z;
  herr : option error
}.

(** Everything outside this target that [checkGlobStatus] depends on:
    the peer's answer to the n-th health probe of this round, the JSON
    decoder (which fills a [Status] and may fail), and whether the xaction
    gets aborted while the n-th probe's retry sleep is in progress. *)
Record World : Type := {
  Health : nat -> Snode -> HealthReply;
  Unmarshal : string -> Status * option error;
  abortsWhileAsleep : nat -> bool
}.

(** The rebalance manager of one target, reduced to what the probe reads and
    writes. *)
Record Reb : Type := {
  t_SID : string;               (* reb.t.SID() *)
  rebID : Z;                    (* reb.rebID *)
  xctn_aborted : bool;          (* reb.xctn(): the round's Aborted flag *)
  abortBcasts : nat;            (* outgoing abort broadcasts *)
  healthCalls : nat             (* probes issued so far *)
}.

Definition with_aborted (r : Reb) (b : bool) : Reb :=
  {| t_SID := t_SID r; rebID := rebID r; xctn_aborted := b;
     abortBcasts := abortBcasts r; healthCalls := healthCalls r |}.

Definition with_bcast (r : Reb) : Reb :=
  {| t_SID := t_SID r; rebID := rebID r; xctn_aborted := xctn_aborted r;
     abortBcasts := S (abortBcasts r); healthCalls := healthCalls r |}.

(** [reb.t.Health(tsi, timeout, query)] *)
Definition doHealth (w : World) (r : Reb) (tsi : Snode) : HealthReply * Reb :=
  (Health w (healthCalls r) tsi,
   {| t_SID := t_SID r; rebID := rebID r; xctn_aborted := xctn_aborted r;
      abortBcasts := abortBcasts r; healthCalls := S (healthCalls r) |}).

(** Modelled from the spec: [xact.Abort] is not part of the sources at hand;
    "a single call -- local or received -- sets the round's Aborted flag". *)
Definition xreb_Abort (r : Reb) : Reb := with_aborted r true.

(** Modelled from the spec: [xact.AbortedAfter] is not part of the sources at
    hand; "every long wait checks an abort predicate
    (xctn.AbortedAfter(sleep))": it sleeps and reports an error iff the
    round is aborted by the end of the sleep. *)
Definition AbortedAfter (w : World) (r : Reb) : option error * Reb :=
  if xctn_aborted r || abortsWhileAsleep w (healthCalls r)
  then (Some (Errorf "aborted" []), with_aborted r true)
  else (None, r).

(** Modelled from the spec: [Reb.abortAndBroadcast] is not part of the sources
    at hand; "abort *and* broadcast the abort to all peers". *)
Definition abortAndBroadcast (r : Reb) : Reb := with_bcast (xreb_Abort r).

(** calls tsi.reb.RebStatus() and handles conditions; may abort the current
    xreb; returns OK if the desiredStage has been reached.
    The result is [(status, ok)] and the updated manager; logging is left
    out. *)
Definition checkGlobStatus (w : World) (reb : Reb) (tsi : Snode) (desiredStage : Z)
  : (option Status * bool) * Reb :=
  let '(rep, reb) := doHealth w reb tsi in
  let '(retried, reb) :=
    match herr rep with
    | Some _ =>
        match AbortedAfter w reb with
        | (Some _, reb) => (None, reb)
        | (None, reb) =>
            let '(rep, reb) := doHealth w reb tsi in   (* retry once *)
            (Some rep, reb)
        end
    | None => (Some rep, reb)
    end in
  match retried with
  | None => ((None, false), reb)
  | Some rep =>
    match herr rep with
    | Some _ => ((None, false), abortAndBroadcast reb)
    | None =>
      let '(status, err) := Unmarshal w (body rep) in
      match err with
      | Some _ => ((Some status, false), abortAndBroadcast reb)
      | None =>
        (* enforce global transaction ID *)
        if RebID status >? rebID reb then
          ((Some status, false), abortAndBroadcast reb)
        (* let the target to catch-up *)
        else if RebID status <? rebID reb then
          ((Some status, false), reb)
        (* Remote target has aborted its running rebalance with the same ID. *)
        else if (RebID status =? rebID reb) && Aborted status then
          ((Some status, false), xreb_Abort reb)
        else if Stage status >=? desiredStage then
          ((Some status, true), reb)
        else
          ((Some status, false), reb)
      end
    end
  end.

(** *** Reading the probe's outcome

    The peer's status is obtained and decoded when the first probe answers
    and its body decodes, or when the first probe fails, the retry sleep is
    not cut short by an abort, the second probe answers and its body
    decodes. *)
Definition first_try (w : World) (reb : Reb) (tsi : Snode) (s : Status) : Prop :=
  let rep := Health w (healthCalls reb) tsi in
  herr rep = None /\ Unmarshal w (body rep) = (s, None).

Definition second_try (w : World) (reb : Reb) (tsi : Snode) (s : Status) : Prop :=
  let rep := Health w (healthCalls reb) tsi in
  let rep' := Health w (S (healthCalls reb)) tsi in
  herr rep <> None /\
  xctn_aborted reb = false /\ abortsWhileAsleep w (S (healthCalls reb)) = false /\
  herr rep' = None /\ Unmarshal w (body rep') = (s, None).

Definition decoded (w : World) (reb : Reb) (tsi : Snode) (s : Status) : Prop :=
  first_try w reb tsi s \/ second_try w reb tsi s.

(** The boundary property as the spec words it: "A rebalance aborted by
    epoch-newer peer results in a locally Aborted round *without* an outgoing
    abort broadcast". *)
Definition newer_peer_aborts_without_broadcast
    (w : World) (reb : Reb) (tsi : Snode) (desiredStage : Z) (s : Status) : Prop :=
  decoded w reb tsi s -> RebID s > rebID reb ->
  let reb' := snd (checkGlobStatus w reb tsi desiredStage) in
  xctn_aborted reb' = true /\ abortBcasts reb' = abortBcasts reb.

(** *** A round of three targets: t1 probes t2 *)

Definition rebStageTraverse : Z := 2.

Definition node (id : string) (kind : string) : Snode :=
  let net := {| NodeHostname := id; DaemonPort := "8080"; DirectURL := id |} in
  {| DaemonID := id; DaemonType := kind; PublicNet := net; IntraControlNet := net;
     IntraDataNet := net; Flags := 0 |}.

Definition status_of (rebid : Z) (stage : Z) (aborted : bool) : Status :=
  {| Targets := []; SmapVersion := 4; RebVersion := 4; RebID := rebid; Stage := stage;
     Aborted := aborted; Running := negb aborted; Quiescent := false |}.

(** Peers answer every probe with the given status. *)
Definition answering (s : Status) : World :=
  {| Health := fun _ _ => {| body := "status"; code := 200; herr := None |};
     Unmarshal := fun _ => (s, None);
     abortsWhileAsleep := fun _ => false |}.

(** As [answering], but the first probe times out. *)
Definition answering_late (s : Status) : World :=
  {| Health := fun n _ =>
       match n with
       | O => {| body := ""; code := 0; herr := Some (ErrIO "timeout") |}
       | _ => {| body := "status"; code := 200; herr := None |}
       end;
     Unmarshal := fun _ => (s, None);
     abortsWhileAsleep := fun _ => false |}.

Definition round7 : Reb :=
  {| t_SID := "t1"; rebID := 7; xctn_aborted := false; abortBcasts := 0; healthCalls := 0 |}.

(** *** The callbacks around the probe *)

(** [rebArgs]: the cluster map of this rebalance and the timeouts of its
    configuration (durations in nanoseconds).  [CplaneOperation] stands for
    the control-plane timeout both as [cmn.Timeout.CplaneOperation()] and as
    [md.config.Timeout.CplaneOperation.D()]. *)
Record rebArgs : Type := {
  md_smap : Smap;
  CplaneOperation : Z;
  DestRetryTime : Z;            (* config.Rebalance.DestRetryTime.D() *)
  KeepaliveRetryDuration : Z    (* cmn.KeepaliveRetryDuration(config) *)
}.

(** [time.Duration] is an int64: its sums and products wrap around. *)
Definition wrap64 (z : Z) : Z := (z + 2 ^ 63) mod 2 ^ 64 - 2 ^ 63.

(** What the callbacks read besides the probe's [World]: stage notifications
    pushed by peers ([reb.stages.isInStage]) and the target's current Smap
    version, both as of the number of probes issued so far; the
    classification of transport errors ([cos.IsUnreachable]); and the two
    stages of the enum that the callbacks wait for. *)
Record Outside : Type := {
  isInStage : nat -> Snode -> Z -> bool;
  smapVersion : nat -> Z;
  IsUnreachable : error -> Z -> bool;
  stageTraverse : Z;
  stageFin : Z
}.

(** [xreb.AbortErr()] *)
Definition AbortErr (r : Reb) : option error :=
  if xctn_aborted r then Some (Errorf "aborted" []) else None.

(** The attempts of [pingTarget] that are left. *)
Fixpoint pingAttempts (w : World) (o : Outside) (reb : Reb) (tsi : Snode) (ver : Z)
    (n : nat) : bool * Reb :=
  match n with
  | O => (false, reb)                              (* timed out *)
  | S n =>
      let '(rep, reb) := doHealth w reb tsi in
      match herr rep with
      | None => (true, reb)
      | Some err =>
          if negb (IsUnreachable o err (code rep)) then (false, reb)
          else
            (* time.Sleep(sleep) *)
            let nver := smapVersion o (healthCalls reb) in
            if nver >? ver then (false, reb)
            else pingAttempts w o reb tsi ver n
      end
  end.

(** pingTarget checks if target is running (type syncCallback) *)
Definition pingTarget (w : World) (o : Outside) (reb : Reb) (tsi : Snode) (md : rebArgs)
  : bool * Reb :=
  let ver := Version (md_smap md) in
  pingAttempts w o reb tsi ver 4.

(** The loop of [rxReady] from the given [curwt] on; [None] when [fuel] does
    not suffice. *)
Fixpoint rxReadyFrom (w : World) (o : Outside) (tsi : Snode) (sleep maxwt : Z)
    (fuel : nat) (curwt : Z) (reb : Reb) : option (bool * Reb) :=
  if curwt <? maxwt then
    match fuel with
    | O => None
    | S fuel =>
        if isInStage o (healthCalls reb) tsi (stageTraverse o) then
          (* do not request the node stage if it has sent push notification *)
          Some (true, reb)
        else
          let '(_, ok, reb) := checkGlobStatus w reb tsi (stageTraverse o) in
          if ok then Some (ok, reb)
          else
            match AbortedAfter w reb with
            | (Some _, reb) => Some (false, reb)
            | (None, reb) =>
                rxReadyFrom w o tsi sleep maxwt fuel (wrap64 (curwt + sleep)) reb
            end
    end
  else Some (false, reb).                          (* timed out *)

(** wait for target to get ready to receive objects (type syncCallback) *)
Definition rxReady (w : World) (o : Outside) (reb : Reb) (tsi : Snode) (md : rebArgs)
    (fuel : nat) : option (bool * Reb) :=
  let sleep := wrap64 (CplaneOperation md * 2) in
  let maxwt := wrap64 (DestRetryTime md + Z.quot (DestRetryTime md) 2) in
  rxReadyFrom w o tsi sleep maxwt fuel 0 reb.

(** How a callback that dereferences the probe's status ends. *)
Inductive outcome : Type :=
| Returns (ok : bool)
| NilStatus.                                       (* nil pointer dereference *)

(** [for _, si := range status.Targets { if si.ID() == reb.t.SID() ... }] *)
Definition waitsFor (status : Status) (sid : string) : bool :=
  existsb (fun si => String.eqb (ID si) sid) (Targets status).

(** The loop of [waitFinExtended] from the given [curwt] on; [None] when
    [fuel] does not suffice. *)
Fixpoint waitFinFrom (w : World) (o : Outside) (tsi : Snode) (sleep maxwt sleepRetry : Z)
    (fuel : nat) (curwt : Z) (reb : Reb) : option (outcome * Reb) :=
  if curwt <? maxwt then
    match fuel with
    | O => None
    | S fuel =>
        match AbortedAfter w reb with
        | (Some _, reb) => Some (Returns false, reb)
        | (None, reb) =>
            if isInStage o (healthCalls reb) tsi (stageFin o) then
              (* do not request the node stage if it has sent push notification *)
              Some (Returns true, reb)
            else
              let curwt := wrap64 (curwt + sleep) in
              let '(status, ok, reb) := checkGlobStatus w reb tsi (stageFin o) in
              if ok then Some (Returns ok, reb)
              else
                match AbortErr reb with
                | Some _ => Some (Returns false, reb)
                | None =>
                    (* tsi in rebStageWaitAck *)
                    match status with
                    | None => Some (NilStatus, reb)
                    | Some status =>
                        let w4me := waitsFor status (t_SID reb) in
                        if negb w4me then Some (Returns true, reb)
                        else
                          (* time.Sleep(sleepRetry) *)
                          let curwt := wrap64 (curwt + sleepRetry) in
                          waitFinFrom w o tsi sleep maxwt sleepRetry fuel curwt reb
                    end
                end
        end
    end
  else Some (Returns false, reb).                  (* timed out *)

(** wait for the target to reach strage = rebStageFin (i.e., finish
    traversing and sending); if the target that has reached rebStageWaitAck
    but not yet in the rebStageFin stage, separately check whether it is
    waiting for my ACKs *)
Definition waitFinExtended (w : World) (o : Outside) (reb : Reb) (tsi : Snode)
    (md : rebArgs) (fuel : nat) : option (outcome * Reb) :=
  let sleep := CplaneOperation md in
  let maxwt := DestRetryTime md in
  let sleepRetry := KeepaliveRetryDuration md in
  waitFinFrom w o tsi sleep maxwt sleepRetry fuel 0 reb.

(** The n-th probe of [tsi] is answered. *)
Definition answered (w : World) (tsi : Snode) (n : nat) : Prop :=
  herr (Health w n tsi) = None.

(** The n-th probe of [tsi] fails with an "unreachable" error, and the Smap
    version seen after the sleep that follows is not newer than [ver]. *)
Definition retriable (w : World) (o : Outside) (tsi : Snode) (ver : Z) (n : nat) : Prop :=
  exists e, herr (Health w n tsi) = Some e /\
            IsUnreachable o e (code (Health w n tsi)) = true /\
            smapVersion o (S n) <= ver.

(** The two managers differ at most in the number of probes issued. *)
Definition same_round (r r' : Reb) : Prop :=
  t_SID r' = t_SID r /\ rebID r' = rebID r /\
  xctn_aborted r' = xctn_aborted r /\ abortBcasts r' = abortBcasts r.

(** Iterations that suffice for a wait of [maxwt] in steps of [step]. *)
Definition enough (maxwt step : Z) : nat := Z.to_nat (maxwt / step) + 1.

(** *** A configuration and surroundings for the examples *)

Definition md1 : rebArgs :=
  {| md_smap := {| Version := 4; UUID := "u"; Primary := None; Pmap := ∅; Tmap := ∅ |};
     CplaneOperation := 2; DestRetryTime := 20; KeepaliveRetryDuration := 1 |}.

Definition quiet_outside : Outside :=
  {| isInStage := fun _ _ _ => false;
     smapVersion := fun _ => 4;
     IsUnreachable := fun _ _ => true;
     stageTraverse := 2;
     stageFin := 5 |}.

End Reb.

(* ================================================================== *)
(** ** Package xs: directory promote *)
(* ================================================================== *)

Module Xs.
Import Cluster.

(** [cluster.PromoteArgs], the fields the walk reads and writes. *)
Record PromoteArgs : Type := {
  SrcFQN : string;
  ObjName : string;
  Recursive : bool;
  OverwriteDst : bool;
  DeleteSrc : bool
}.

(** [cluster.PromoteParams] (the [Xact] back-pointer is the walking xaction
    itself and is left out). *)
Record PromoteParams : Type := {
  Bck : string;
  Args : PromoteArgs
}.

Record DirEntry : Type := { IsDir : bool }.

(** The collaborators of the walk that live outside the sources at hand:
    the destination-name rule, the HRW locator over a cluster map (a node,
    or else an error), the
    bucket's unique-name encoding, the target's [Promote] (its error result;
    the call itself is recorded by [walk]) and [cmn.IsNotExist]. *)
Record Deps : Type := {
  PromotedObjDstName : string -> string -> string -> string * option error;
  HrwName2T : Smap -> string -> error + Snode;
  MakeUname : string -> string -> string;
  Promote : string -> PromoteParams -> option error;
  IsNotExist : option error -> bool
}.

Record XactDirPromote : Type := {
  T_SID : string;               (* r.p.T.SID() *)
  args : PromoteArgs;           (* r.p.args *)
  smap : Smap;                  (* r.smap, set by Run *)
  bck : string;                 (* r.Bck() *)
  confirmedFshare : bool        (* set separately in the commit phase prior to Run *)
}.

Definition SetFshare (r : XactDirPromote) (v : bool) : XactDirPromote :=
  {| T_SID := T_SID r; args := args r; smap := smap r; bck := bck r;
     confirmedFshare := v |}.

(** The walk callback.  [promoted] is the log of [Promote] calls made by this
    target so far; the result is the returned error and the extended log. *)
Definition walk (D : Deps) (r : XactDirPromote) (fqn : string) (de : DirEntry)
    (promoted : list PromoteParams) : option error * list PromoteParams :=
  if IsDir de then (None, promoted) else
  let bck := bck r in
  (* promote *)
  let args := args r in
  let '(objName, err) := PromotedObjDstName D fqn (SrcFQN args) (ObjName args) in
  match err with
  | Some e => (Some e, promoted)
  | None =>
    let promote :=
      let params := {| Bck := bck;
                       Args := {| SrcFQN := fqn;
                                  ObjName := objName;
                                  Recursive := false;
                                  OverwriteDst := OverwriteDst args;
                                  DeleteSrc := DeleteSrc args |} |} in
      let err := Promote D (T_SID r) params in
      let err := if IsNotExist D err then None else err in
      (err, promoted ++ [params]) in
    (* file share == true: promote only the part of the namespace that "lands" locally *)
    if confirmedFshare r then
      match HrwName2T D (smap r) (MakeUname D bck objName) with
      | inl e => (Some e, promoted)
      | inr si =>
          if negb (String.eqb (ID si) (T_SID r)) then (None, promoted)
          else promote
      end
    else promote
  end.

(** The same walk run by the target [sid] of the cluster. *)
Definition on_target (r : XactDirPromote) (sid : string) : XactDirPromote :=
  {| T_SID := sid; args := args r; smap := smap r; bck := bck r;
     confirmedFshare := confirmedFshare r |}.

(** How many times the target [sid] calls [Promote] for the entry. *)
Definition promotions (D : Deps) (r : XactDirPromote) (fqn : string) (de : DirEntry)
    (sid : string) : nat :=
  length (snd (walk D (on_target r sid) fqn de [])).

(** The targets of the cluster map, each once. *)
Definition targets_of (m : Smap) : list string := elements (dom (Tmap m)).

(** How many times the entry is promoted cluster-wide, when every target of
    the (shared) cluster map walks it. *)
Definition cluster_promotions (D : Deps) (r : XactDirPromote) (fqn : string) (de : DirEntry)
  : nat :=
  sum_list (map (promotions D r fqn de) (targets_of (smap r))).

(** Modelled from the spec: [fs.Walk] and [fs.WalkDir] are not part of the
    sources at hand; "Each of 2 targets walks the same directory": the
    callback is called on the entries of the directory in order; as with
    Go's [filepath.WalkDir], the walk ends at the first error the callback
    returns (the source notes "TODO: continue-on-error"). *)
Fixpoint WalkDir (D : Deps) (r : XactDirPromote) (listing : list (string * DirEntry))
    (promoted : list PromoteParams) : option error * list PromoteParams :=
  match listing with
  | [] => (None, promoted)
  | (fqn, de) :: listing =>
      match walk D r fqn de promoted with
      | (Some err, promoted) => (Some err, promoted)
      | (None, promoted) => WalkDir D r listing promoted
      end
  end.

(** [Run]: take the target's current cluster map, walk the source directory
    (recursively or not: [listing] is what the chosen walker visits), and
    finish with the walk's error.  The result is that error and the
    [Promote] calls made. *)
Definition Run (D : Deps) (r : XactDirPromote) (current : Smap)
    (listing : bool -> list (string * DirEntry)) : option error * list PromoteParams :=
  let r := {| T_SID := T_SID r; args := args r; smap := current; bck := bck r;
              confirmedFshare := confirmedFshare r |} in
  WalkDir D r (listing (Recursive (args r))) [].

(** The regular files of a listing. *)
Definition regular (listing : list (string * DirEntry)) : list (string * DirEntry) :=
  List.filter (fun e => negb (IsDir (snd e))) listing.

(** The [Promote] calls of all targets of the cluster map [current], each
    running [Run] over the same listing. *)
Definition cluster_Run (D : Deps) (r : XactDirPromote) (current : Smap)
    (listing : bool -> list (string * DirEntry)) : nat :=
  sum_list (map (fun sid => length (snd (Run D (on_target r sid) current listing)))
              (targets_of current)).

(** The entry is placed: its object name is computed, the locator resolves it
    to a target of the map, and that target's [Promote] of it does not fail
    (or fails with "does not exist"). *)
Definition placed (D : Deps) (r : XactDirPromote) (m : Smap) (e : string * DirEntry) : Prop :=
  exists objName si,
    PromotedObjDstName D (fst e) (SrcFQN (args r)) (ObjName (args r)) = (objName, None) /\
    HrwName2T D m (MakeUname D (bck r) objName) = inr si /\
    GetTarget m (ID si) = Some si /\
    let err := Promote D (ID si)
                 {| Bck := bck r;
                    Args := {| SrcFQN := fst e; ObjName := objName; Recursive := false;
                               OverwriteDst := OverwriteDst (args r);
                               DeleteSrc := DeleteSrc (args r) |} |} in
    (if IsNotExist D err then None else err) = None.

(** *** Two targets sharing /srv/ingest *)

Definition target (id : string) : Snode :=
  let net := {| NodeHostname := id; DaemonPort := "8081"; DirectURL := id |} in
  {| DaemonID := id; DaemonType := Target; PublicNet := net; IntraControlNet := net;
     IntraDataNet := net; Flags := 0 |}.

Definition smap2 : Smap :=
  {| Version := 3; UUID := "u"; Primary := None; Pmap := ∅;
     Tmap := {[ "t1" := target "t1"; "t2" := target "t2" ]} |}.

(** A locator for the example: names of even length land on t1, the others
    on t2. *)
Definition ingest : Deps :=
  {| PromotedObjDstName := fun fqn _ _ => (fqn, None);
     HrwName2T := fun m uname =>
       let tid := if Nat.even (String.length uname) then "t1" else "t2" in
       match Tmap m !! tid with
       | Some t => inr t
       | None => inl (ErrIO "no targets")
       end;
     MakeUname := fun bck objName => String.append bck objName;
     Promote := fun _ _ => None;
     IsNotExist := fun _ => false |}.

Definition promote_on (sid : string) : XactDirPromote :=
  {| T_SID := sid;
     args := {| SrcFQN := "/srv/ingest"; ObjName := ""; Recursive := false;
                OverwriteDst := true; DeleteSrc := false |};
     smap := smap2; bck := "b/"; confirmedFshare := true |}.

End Xs.

(* ================================================================== *)
(** ** Package ais: the primary proxy's cluster handlers *)
(* ================================================================== *)

Module Ais.
Import Cluster.

(** *** Metadata and messages *)

Abbreviation smapX := Smap (only parsing).

Record bucketMD : Type := {
  bmd_Version : Z;
  bmd_UUID : string
}.

Record rebMD : Type := {
  rmd_Version : Z;
  rmd_TargetIDs : list string;
  rmd_Resilver : string
}.

(** [rebMD.inc]: [m.Version++] *)
Definition inc (m : rebMD) : rebMD :=
  {| rmd_Version := rmd_Version m + 1;
     rmd_TargetIDs := rmd_TargetIDs m;
     rmd_Resilver := rmd_Resilver m |}.

Record ActionMsg : Type := {
  Action : string;
  Value : string
}.

Record nodeRegMeta : Type := {
  reg_Smap : option smapX;
  reg_BMD : option bucketMD;
  reg_SI : Snode;
  reg_Reb : bool
}.

(** What metasync ships: a revision of one metadata kind. *)
Inductive revs : Type :=
| RevSmap (m : smapX)
| RevBMD (m : bucketMD)
| RevRMD (m : rebMD)
| RevTokens (l : list string).

(** [revsPair{revs, aisMsg}]; of the message only the action is kept. *)
Definition revsPair : Type := revs * option ActionMsg.

(** *** Intra-cluster calls *)

Inductive URLPath : Type :=
| URLPathDaemon
| URLPathDaemonProxy
| URLPathDaemonUnreg
| URLPathDaemonUserReg.

(** A request body: none, [cmn.MustMarshal(msg)], or the marshalled
    [nodeRegMeta{smap, bmd, si, false}]. *)
Inductive body : Type :=
| NoBody
| MsgBody (msg : ActionMsg)
| MetaBody (smap : smapX) (bmd : bucketMD) (si : Snode).

Record ReqArgs : Type := {
  Method : string;
  Path : URLPath * list string;         (* base path and joined items *)
  Query : list (string * string);
  Body : body
}.

Inductive bcastTo : Type := AllNodes | Targets.

Record bcastArgs : Type := {
  b_req : ReqArgs;
  b_to : bcastTo
}.

Record callArgs : Type := {
  c_si : Snode;
  c_req : ReqArgs
}.

Record callResult : Type := {
  res_si : Snode;
  res_err : option error;
  res_details : string;
  res_status : Z
}.

Definition MethodPut : string := "PUT".
Definition MethodPost : string := "POST".
Definition MethodDelete : string := "DELETE".
Definition StatusNotFound : Z := 404.
Definition StatusServiceUnavailable : Z := 503.

(** Modelled from the spec: the [cmn] constants below are not part of the
    sources at hand; "PUT /proxy/{id} with ?prepare=true|false". *)
Definition URLParamPrepare : string := "prepare".

(** Modelled from the spec: the join verbs of [cmn] are not part of the
    sources at hand; "POST /{user-register|keepalive|autoreg}". *)
Definition UserRegister : string := "user-register".
Definition Keepalive : string := "keepalive".
Definition AutoRegister : string := "autoreg".

(** Modelled from the spec: the action names of [cmn] are not part of the
    sources at hand; "start-maintenance, decommission, shutdown-node,
    shutdown". *)
Definition ActShutdown : string := "shutdown".
Definition ActShutdownNode : string := "shutdown-node".
Definition ActStartMaintenance : string := "start-maintenance".
Definition ActDecommission : string := "decommission".

Definition testInitiatedRm : string := "test-initiated-removal".

(** *** The request, as the handlers see it *)

Record Request : Type := {
  rest : error + list string;           (* what checkRESTItems yields *)
  json_SI : error + Snode;              (* cmn.ReadJSON into regReq.SI *)
  json_regReq : error + nodeRegMeta;    (* cmn.ReadJSON into regReq *)
  query_NonElectable : string;          (* r.URL.Query().Get(cmn.URLParamNonElectable) *)
  hdr_IntraCall : bool;                 (* isIntraCall(r.Header) *)
  hdr_CallerID : string                 (* r.Header.Get(cmn.HeaderCallerID) *)
}.

(** *** What the proxy does that others can see *)

Inductive Event : Type :=
| EvInvalMsg (e : error) (errCode : option Z)   (* p.invalmsghdlr*: error reply *)
| EvWrite (s : string)                          (* w.Write *)
| EvWriteJSON (smap : smapX) (bmd : bucketMD) (tag : list string)
| EvForwardCP                                   (* p.forwardCP took the request over *)
| EvBcast (args : bcastArgs)                    (* p.bcastGroup *)
| EvCall (args : callArgs)                      (* p.call *)
| EvProbe (osi nsi : Snode)                     (* p.detectDaemonDuplicate *)
| EvSleep
| EvStatsAdd (name : string) (v : Z)
| EvHeardFrom (id : string) (reset : bool)      (* p.keepalive.heardFrom *)
| EvSmapModify                                  (* p.owner.smap.modify *)
| EvSmapPut                                     (* p.owner.smap.put *)
| EvRmdModify                                   (* p.owner.rmd.modify *)
| EvMetasyncNotify (wait : bool) (pair : revsPair)
| EvMetasyncSync (pairs : list revsPair)
| EvBecomeNonPrimary                            (* p.metasyncer.becomeNonPrimary *)
| EvInPrimaryTransition (b : bool)              (* p.inPrimaryTransition.Store *)
| EvNotifsAdd (uuid kind : string)              (* p.notifs.add *)
| EvSyncNewICOwners
| EvRproxyDelete (sid : string)                 (* p.rproxy.nodes.Delete *)
| EvPanic                                       (* cmn.Assert failure *)
| EvExit.                                       (* cmn.ExitLogf *)

(** *** The proxy *)

Record proxyrunner : Type := {
  si : Snode;
  owner_smap : smapX;                   (* p.owner.smap.get() *)
  owner_rmd : rebMD;                    (* p.owner.rmd.get() *)
  owner_rmd_rebalance : bool;           (* p.owner.rmd.rebalance *)
  owner_bmd : bucketMD;
  inPrimaryTransition : bool;
  NodeStarted : bool;
  ClusterStarted : bool;
  reg_pool : list nodeRegMeta;
  events : list Event                   (* oldest first *)
}.

Definition set_smap (p : proxyrunner) (m : smapX) : proxyrunner :=
  {| si := si p; owner_smap := m; owner_rmd := owner_rmd p;
     owner_rmd_rebalance := owner_rmd_rebalance p; owner_bmd := owner_bmd p;
     inPrimaryTransition := inPrimaryTransition p; NodeStarted := NodeStarted p;
     ClusterStarted := ClusterStarted p; reg_pool := reg_pool p; events := events p |}.

Definition set_rmd (p : proxyrunner) (m : rebMD) : proxyrunner :=
  {| si := si p; owner_smap := owner_smap p; owner_rmd := m;
     owner_rmd_rebalance := owner_rmd_rebalance p; owner_bmd := owner_bmd p;
     inPrimaryTransition := inPrimaryTransition p; NodeStarted := NodeStarted p;
     ClusterStarted := ClusterStarted p; reg_pool := reg_pool p; events := events p |}.

Definition set_rebalance (p : proxyrunner) (b : bool) : proxyrunner :=
  {| si := si p; owner_smap := owner_smap p; owner_rmd := owner_rmd p;
     owner_rmd_rebalance := b; owner_bmd := owner_bmd p;
     inPrimaryTransition := inPrimaryTransition p; NodeStarted := NodeStarted p;
     ClusterStarted := ClusterStarted p; reg_pool := reg_pool p; events := events p |}.

Definition set_inPrimaryTransition (p : proxyrunner) (b : bool) : proxyrunner :=
  {| si := si p; owner_smap := owner_smap p; owner_rmd := owner_rmd p;
     owner_rmd_rebalance := owner_rmd_rebalance p; owner_bmd := owner_bmd p;
     inPrimaryTransition := b; NodeStarted := NodeStarted p;
     ClusterStarted := ClusterStarted p; reg_pool := reg_pool p; events := events p |}.

Definition set_reg_pool (p : proxyrunner) (l : list nodeRegMeta) : proxyrunner :=
  {| si := si p; owner_smap := owner_smap p; owner_rmd := owner_rmd p;
     owner_rmd_rebalance := owner_rmd_rebalance p; owner_bmd := owner_bmd p;
     inPrimaryTransition := inPrimaryTransition p; NodeStarted := NodeStarted p;
     ClusterStarted := ClusterStarted p; reg_pool := l; events := events p |}.

Definition add_event (p : proxyrunner) (e : Event) : proxyrunner :=
  {| si := si p; owner_smap := owner_smap p; owner_rmd := owner_rmd p;
     owner_rmd_rebalance := owner_rmd_rebalance p; owner_bmd := owner_bmd p;
     inPrimaryTransition := inPrimaryTransition p; NodeStarted := NodeStarted p;
     ClusterStarted := ClusterStarted p; reg_pool := reg_pool p;
     events := events p ++ [e] |}.

(** Handlers run in a state monad over the proxy. *)
Definition M (A : Type) : Type := proxyrunner -> A * proxyrunner.

Definition ret {A : Type} (x : A) : M A := fun p => (x, p).
Definition bind {A B : Type} (m : M A) (f : A -> M B) : M B :=
  fun p => let '(a, p') := m p in f a p'.

Notation "x <- y ; z" := (bind y (fun x => z))
  (at level 20, y at level 100, z at level 200, only parsing).
Notation "' x <- y ; z" := (bind y (fun x => z))
  (at level 20, x pattern, y at level 100, z at level 200, only parsing).
Notation "y >> z" := (bind y (fun _ => z))
  (at level 100, z at level 200, only parsing, right associativity).

Definition get : M proxyrunner := fun p => (p, p).
Definition upd (f : proxyrunner -> proxyrunner) : M unit := fun p => (tt, f p).
Definition emit (e : Event) : M unit := upd (fun p => add_event p e).
Definition skip : M unit := ret tt.

(** [p.inPrimaryTransition.Store(b)] *)
Definition store_inPrimaryTransition (b : bool) : M unit :=
  upd (fun p => set_inPrimaryTransition p b) >> emit (EvInPrimaryTransition b).

(** *** Collaborators outside the sources at hand

    Network outcomes ([bcastGroup], [call], [detectDaemonDuplicate]) may
    differ from one call to the next: they are indexed by the number of
    events the proxy has produced so far.  The rest are helpers and
    constants of other files, taken as they come. *)
Record Env : Type := {
  forwardCP : proxyrunner -> Request -> bool;
  bcastGroup : nat -> bcastArgs -> list callResult;
  call : nat -> callArgs -> callResult;
  detectDaemonDuplicate : nat -> Snode -> Snode -> bool;
  requiresRebalance : option smapX -> smapX -> bool;
  staffIC : smapX -> smapX;
  putNode : smapX -> Snode -> Z -> smapX * bool;
  PresentInMaint : smapX -> Snode -> bool;
  Validate : Snode -> option error;
  validateHostname : string -> option error;
  bmd_validateUUID : bucketMD -> option bucketMD -> Snode -> Snode -> option error;
  smap_validateUUID : smapX -> option smapX -> Snode -> Snode -> option error;
  IsDuplicate : smapX -> Snode -> option error;
  ParseBool : string -> bool * option error;
  IsErrConnectionRefused : error -> bool;
  RebID_String : Z -> string;           (* xaction.RebID(v).String() *)
  revokedTokenList : list string;       (* p.authn.revokedTokenList().Tokens *)
  SnodeNonElectable : Z;
  PostCount : string;                   (* stats.PostCount *)
  ActRegTarget : string;
  ActRegProxy : string;
  ActStartGFN : string;
  ActRebalance : string
}.

(** *** The Smap modifier context *)

Module Ctx.
Record smapModifier : Type := {
  smap : option smapX;          (* the snapshot the modification started from *)
  rmd : option rebMD;
  msg : option ActionMsg;
  nsi : option Snode;
  sid : string;
  flags : Z;
  status : Z;
  exists_ : bool;               (* [exists] in the source *)
  skipReb : bool
}.

(** The zero value of the struct. *)
Definition zero : smapModifier :=
  {| smap := None; rmd := None; msg := None; nsi := None; sid := "";
     flags := 0; status := 0; exists_ := false; skipReb := false |}.

Definition with_smap (c : smapModifier) (v : option smapX) : smapModifier :=
  {| smap := v; rmd := rmd c; msg := msg c; nsi := nsi c; sid := sid c;
     flags := flags c; status := status c; exists_ := exists_ c; skipReb := skipReb c |}.
Definition with_rmd (c : smapModifier) (v : option rebMD) : smapModifier :=
  {| smap := smap c; rmd := v; msg := msg c; nsi := nsi c; sid := sid c;
     flags := flags c; status := status c; exists_ := exists_ c; skipReb := skipReb c |}.
Definition with_status (c : smapModifier) (v : Z) : smapModifier :=
  {| smap := smap c; rmd := rmd c; msg := msg c; nsi := nsi c; sid := sid c;
     flags := flags c; status := v; exists_ := exists_ c; skipReb := skipReb c |}.
Definition with_exists (c : smapModifier) (v : bool) : smapModifier :=
  {| smap := smap c; rmd := rmd c; msg := msg c; nsi := nsi c; sid := sid c;
     flags := flags c; status := status c; exists_ := v; skipReb := skipReb c |}.
End Ctx.
Import Ctx.

(** The [pre], [post] and [final] callbacks of a modifier. *)
Record hooks : Type := {
  pre : smapModifier -> smapX -> M (smapModifier * smapX * option error);
  post : option (smapModifier -> smapX -> M smapModifier);
  final : option (smapModifier -> smapX -> M unit)
}.

(** *** Cluster-map helpers and metadata owners *)

(** Modelled from the spec: [smapX.isPrimary] is not part of the sources at
    hand; "Primary -- the single proxy authorized to serialize metadata
    mutations": the map's [Primary] is the given node. *)
Definition isPrimary (m : smapX) (self : Snode) : bool :=
  match Primary m with
  | Some pr => String.eqb (ID pr) (ID self)
  | None => false
  end.

Definition set_Primary (m : smapX) (psi : Snode) : smapX :=
  {| Version := Version m; UUID := UUID m; Primary := Some psi;
     Pmap := Pmap m; Tmap := Tmap m |}.

(** Modelled from the spec: [smapX.delProxy] is not part of the sources at
    hand; it removes the proxy with the given ID from the node map. *)
Definition delProxy (m : smapX) (pid : string) : smapX :=
  {| Version := Version m; UUID := UUID m; Primary := Primary m;
     Pmap := delete pid (Pmap m); Tmap := Tmap m |}.

(** Modelled from the spec: [smapX.delTarget] is not part of the sources at
    hand; it removes the target with the given ID from the node map. *)
Definition delTarget (m : smapX) (tid : string) : smapX :=
  {| Version := Version m; UUID := UUID m; Primary := Primary m;
     Pmap := Pmap m; Tmap := delete tid (Tmap m) |}.

(** The version step of an installation. *)
Definition next_version (m : smapX) : smapX :=
  {| Version := Version m + 1; UUID := UUID m; Primary := Primary m;
     Pmap := Pmap m; Tmap := Tmap m |}.

(** [smapOwner.put]: install as is. *)
Definition smap_put (m : smapX) : M unit :=
  upd (fun p => set_smap p m) >> emit EvSmapPut.

(** Modelled from the spec: [smapOwner.modify] is not part of the sources at
    hand; "acquires the type's exclusive lock, clones the current snapshot,
    runs ctx.pre(clone), installs the clone iff pre returned no error, then
    runs ctx.post(clone) (still under lock) and ctx.final(clone) (after
    release)"; "never install a version <= current" -- the installed clone
    carries the next version.  The callbacks see the starting snapshot as
    [ctx.smap]. *)
Definition smap_modify (h : hooks) (ctx : smapModifier) : M (smapModifier * option error) :=
  emit EvSmapModify >>
  p <- get;
  let ctx := with_smap ctx (Some (owner_smap p)) in
  let clone := owner_smap p in
  '(ctx, clone, err) <- pre h ctx clone;
  match err with
  | Some e => ret (ctx, Some e)
  | None =>
      let clone := next_version clone in
      upd (fun p => set_smap p clone) >>
      ctx <- match post h with
            | Some f => f ctx clone
            | None => ret ctx
            end;
      match final h with
      | Some f => f ctx clone
      | None => skip
      end >>
      ret (ctx, None)
  end.

(** Modelled from the spec: [rmdOwner.modify] is not part of the sources at
    hand; it is the same compare-and-swap modify, with a [pre] that cannot
    fail: clone, run [pre] on the clone, install, return the clone. *)
Definition rmd_modify (pre : rebMD -> rebMD) : M rebMD :=
  emit EvRmdModify >>
  p <- get;
  let clone := pre (owner_rmd p) in
  upd (fun p => set_rmd p clone) >>
  ret clone.

(** *** Helpers that reply or go to the network *)

Definition invalmsghdlr (e : error) (errCode : option Z) : M unit :=
  emit (EvInvalMsg e errCode).

Definition invalmsghdlrf (fmt : string) (args : list fmtArg) : M unit :=
  emit (EvInvalMsg (Errorf fmt args) None).

(** [p.checkRESTItems]: on error the helper has already replied. *)
Definition checkRESTItems (r : Request) : M (error + list string) :=
  match rest r with
  | inl e => invalmsghdlr e None >> ret (inl e)
  | inr items => ret (inr items)
  end.

Definition do_forwardCP (E : Env) (r : Request) : M bool :=
  p <- get;
  if forwardCP E p r then emit EvForwardCP >> ret true else ret false.

Definition do_bcastGroup (E : Env) (args : bcastArgs) : M (list callResult) :=
  p <- get;
  emit (EvBcast args) >>
  ret (bcastGroup E (length (events p)) args).

Definition do_call (E : Env) (args : callArgs) : M callResult :=
  p <- get;
  emit (EvCall args) >>
  ret (call E (length (events p)) args).

Definition do_detectDaemonDuplicate (E : Env) (osi nsi : Snode) : M bool :=
  p <- get;
  emit (EvProbe osi nsi) >>
  ret (detectDaemonDuplicate E (length (events p)) osi nsi).

(** *** POST /v1/cluster - joins and keepalives *)

(** join(node) => cluster via API *)
Definition userRegisterNode (E : Env) (nsi : Snode) (tag : string) : M (Z * option error) :=
  p <- get;
  let smap := owner_smap p in
  let bmd := owner_bmd p in
  let args := {| c_si := nsi;
                 c_req := {| Method := MethodPost; Path := (URLPathDaemonUserReg, []);
                             Query := []; Body := MetaBody smap bmd (si p) |} |} in
  res <- do_call E args;
  match res_err res with
  | None => ret (0, None)
  | Some e =>
      let err :=
        if IsErrConnectionRefused E e
        then Errorf "failed to reach %s at %s:%s"
               [FNode nsi; FStr (NodeHostname (PublicNet nsi)); FStr (DaemonPort (PublicNet nsi))]
        else Errorf "%s: failed to %s %s: %v, %s"
               [FNode (si p); FStr tag; FNode nsi; FErr e; FStr (res_details res)] in
      ret (res_status res, Some err)
  end.

Definition addOrUpdateNode (E : Env) (nsi : Snode) (osi : option Snode) (keepalive : bool)
  : M bool :=
  if keepalive then
    match osi with
    | None => ret true
    | Some osi =>
        if negb (Equals osi nsi) then
          dup <- do_detectDaemonDuplicate E osi nsi;
          if dup then ret false
          else ret true
        else
          emit (EvHeardFrom (ID nsi) (negb keepalive) (* reset *)) >>
          ret false
    end
  else
    match osi with
    | Some osi =>
        p <- get;
        if negb (NodeStarted p) then ret true
        else if Equals osi nsi then ret false
        else ret true
    | None => ret true
    end.

(** NOTE: under lock.  Returns [(smap, update, err)]. *)
Definition handleJoinKalive (E : Env) (nsi : Snode) (regSmap : option smapX) (tag : string)
    (keepalive : bool) (flags : Z) : M (smapX * bool * option error) :=
  p <- get;
  let smap := owner_smap p in
  if negb (isPrimary smap (si p)) then
    ret (smap, false,
          Some (Errorf "%s is not the primary(%s, %s): cannot %s %s"
                  [FNode (si p);
                   match Primary smap with Some pr => FNode pr | None => FStr "<nil>" end;
                   FSmap smap; FStr tag; FNode nsi]))
  else
    proceed <-
      (if IsProxy nsi then
         let osi := GetProxy smap (ID nsi) in
         added <- addOrUpdateNode E nsi osi keepalive;
         ret added
       else
         let osi := GetTarget smap (ID nsi) in
         if keepalive then
           added <- addOrUpdateNode E nsi osi keepalive;
           ret added
         else ret true);
    if negb proceed then ret (smap, false, None)
    else
      (* check for cluster integrity errors (cie) *)
      match smap_validateUUID E smap regSmap (si p) nsi with
      | Some err => ret (smap, false, Some err)
      | None =>
          (* no further checks join when cluster's starting up *)
          if negb (ClusterStarted p) then
            let clone := smap in
            let '(clone, _) := putNode E clone nsi flags in
            smap_put clone >>
            ret (smap, false, None)
          else
            match IsDuplicate E smap nsi with
            | Some err =>
                ret (smap, false,
                      Some (Errorf "%s: %s" [FNode (si p); FErr err]))
            | None => ret (smap, true, None)
            end
      end.

Definition _updPre (E : Env) (ctx : smapModifier) (clone : smapX)
  : M (smapModifier * smapX * option error) :=
  p <- get;
  if negb (isPrimary clone (si p)) then
    ret (ctx, clone,
          Some (Errorf "%s is not primary [%s]: cannot add %s"
                  [FNode (si p); FSmap clone;
                   match nsi ctx with Some n => FNode n | None => FStr "<nil>" end]))
  else
    match nsi ctx with
    | None => emit EvPanic >> ret (ctx, clone, None)      (* nil dereference *)
    | Some nsi =>
        let '(clone, exists_) := putNode E clone nsi (flags ctx) in
        let ctx := with_exists ctx exists_ in
        (if IsTarget nsi then
           (* Notify targets that they need to set up GFN *)
           emit (EvMetasyncNotify true
                   (RevSmap clone, Some {| Action := ActStartGFN E; Value := "" |}))
         else skip) >>
        let clone := staffIC E clone in
        ret (ctx, clone, None)
    end.

Definition _updPost (E : Env) (ctx : smapModifier) (clone : smapX) : M smapModifier :=
  match nsi ctx with
  | None => emit EvPanic >> ret ctx                       (* nil dereference *)
  | Some nsi =>
      if negb (IsTarget nsi) then ret ctx
      (* NOTE: trigger rebalance when target with the same ID already exists
               (and see p.requiresRebalance for other conditions) *)
      else if exists_ ctx || requiresRebalance E (smap ctx) clone then
        rmdClone <- rmd_modify (fun clone =>
                     inc {| rmd_Version := rmd_Version clone;
                            rmd_TargetIDs := [ID nsi];
                            rmd_Resilver := rmd_Resilver clone |});
        ret (with_rmd ctx (Some rmdClone))
      else ret ctx
  end.

Definition _updFinal (E : Env) (ctx : smapModifier) (clone : smapX) : M unit :=
  p <- get;
  let tokens := revokedTokenList E in
  let bmd := owner_bmd p in
  let aisMsg := msg ctx in
  let pairs := [(RevSmap clone, aisMsg); (RevBMD bmd, aisMsg)] in
  match nsi ctx with
  | None => emit EvPanic                                  (* nil dereference *)
  | Some nsi =>
      pairs <-
        match rmd ctx with
        | Some rmd =>
            if IsTarget nsi then
              emit (EvNotifsAdd (RebID_String E (rmd_Version rmd)) (ActRebalance E)) >>
              ret (pairs ++ [(RevRMD rmd, aisMsg)])
            else if IsProxy nsi then ret (pairs ++ [(RevRMD (owner_rmd p), aisMsg)])
            else ret pairs
        | None =>
            if IsProxy nsi then ret (pairs ++ [(RevRMD (owner_rmd p), aisMsg)])
            else ret pairs
        end;
      let pairs :=
        if (0 <? Z.of_nat (length tokens)) then pairs ++ [(RevTokens tokens, aisMsg)]
        else pairs in
      emit (EvMetasyncSync pairs) >>
      emit EvSyncNewICOwners
  end.

Definition updateAndDistribute (E : Env) (nsi : Snode) (msg : ActionMsg) (flags : Z)
  : M string :=
  let ctx := {| smap := None; rmd := None; msg := Some msg; nsi := Some nsi; sid := "";
                flags := flags; status := 0; exists_ := false; skipReb := false |} in
  '(ctx, err) <- smap_modify {| pre := _updPre E; post := Some (_updPost E);
                               final := Some (_updFinal E) |} ctx;
  match err with
  | Some _ => ret ""
  | None =>
      match rmd ctx with
      | Some rmd => ret (RebID_String E (rmd_Version rmd))
      | None => ret ""
      end
  end.

(** The part of [httpclupost] after the verb has been decoded. *)
Definition httpclupost_node (E : Env) (r : Request) (regReq : nodeRegMeta) (tag : string)
    (keepalive userRegister selfRegister : bool) : M unit :=
  p <- get;
  (if selfRegister && negb (ClusterStarted p)
   then upd (fun p => set_reg_pool p (reg_pool p ++ [regReq]))
   else skip) >>
  let nsi := reg_SI regReq in
  match Validate E nsi with
  | Some err => invalmsghdlr err None
  | None =>
  match (if NodeStarted p then bmd_validateUUID E (owner_bmd p) (reg_BMD regReq) (si p) nsi
         else None) with
  | Some err => invalmsghdlr err None
  | None =>
  let isProxy := IsProxy nsi in
  let msg := {| Action := ActRegTarget E; Value := "" |} in
  let msg := if isProxy then {| Action := ActRegProxy E; Value := "" |} else msg in
  let nonElectable := if isProxy then fst (ParseBool E (query_NonElectable r)) else false in
  match validateHostname E (NodeHostname (PublicNet nsi)) with
  | Some err =>
      invalmsghdlrf "%s: failed to %s %s - (err: %v)" [FNode (si p); FStr tag; FNode nsi; FErr err]
  | None =>
  emit (EvStatsAdd (PostCount E) 1) >>
  let flags := if nonElectable then SnodeNonElectable E else 0 in
  registered <-
    (if userRegister then
       '(errCode, err) <- userRegisterNode E nsi tag;
       match err with
       | Some err => invalmsghdlr err (Some errCode) >> ret false
       | None => ret true
       end
     else ret true);
  if negb registered then skip else
  unique <-
    (if selfRegister then
       p <- get;
       let smap := owner_smap p in
       match GetNode smap (ID nsi) with
       | Some osi =>
           if negb (Equals osi nsi) then
             dup <- do_detectDaemonDuplicate E osi nsi;
             if dup then
               invalmsghdlrf "duplicate node ID %q (%s, %s)" [FStr (ID nsi); FNode osi; FNode nsi] >>
               ret false
             else ret true
           else ret true
       | None => ret true
       end
     else ret true);
  if negb unique then skip else
  (* p.owner.smap.Lock() *)
  '(smap, update, err) <- handleJoinKalive E nsi (reg_Smap regReq) tag keepalive flags;
  p <- get;
  (if negb isProxy && NodeStarted p
   then (* rebalance.CAS(false, regReq.Reb) *)
        upd (fun p => if owner_rmd_rebalance p then p else set_rebalance p (reg_Reb regReq))
   else skip) >>
  (* p.owner.smap.Unlock() *)
  match err with
  | Some err => invalmsghdlr err None
  | None =>
  if negb update then skip else
  (* send the current Smap and BMD to self-registering target *)
  (if negb isProxy && selfRegister
   then p <- get; emit (EvWriteJSON smap (owner_bmd p) [ActRegTarget E; ID nsi])
   else skip) >>
  (* Return the rebalance ID when target is registered by user. *)
  if negb isProxy && userRegister then
    rebID <- updateAndDistribute E nsi msg flags;
    emit (EvWrite rebID)
  else
    (* go p.updateAndDistribute(nsi, msg, flags) *)
    _ <- updateAndDistribute E nsi msg flags;
    skip
  end end end end.

Definition httpclupost (E : Env) (r : Request) : M unit :=
  items <- checkRESTItems r;
  match items with
  | inl _ => skip
  | inr apiItems =>
      let verb := hd "" apiItems in
      p <- get;
      if inPrimaryTransition p && String.eqb verb Keepalive then
        (* Ignore keepalive beat if the primary is in transition. *)
        skip
      else
        fwd <- do_forwardCP E r;
        if fwd then skip
        else if String.eqb verb UserRegister then   (* manual by user (API) *)
          match json_SI r with
          | inl e => invalmsghdlr e None
          | inr nsi =>
              httpclupost_node E r
                {| reg_Smap := None; reg_BMD := None; reg_SI := nsi; reg_Reb := false |}
                "user-register" false true false
          end
        else if String.eqb verb Keepalive then
          match json_regReq r with
          | inl e => invalmsghdlr e None
          | inr regReq => httpclupost_node E r regReq "keepalive" true false false
          end
        else if String.eqb verb AutoRegister then   (* node self-register *)
          match json_regReq r with
          | inl e => invalmsghdlr e None
          | inr regReq => httpclupost_node E r regReq "join" false false true
          end
        else invalmsghdlrf "invalid URL path: %q" [FStr verb]
  end.

(** *** Post and final phases shared by removal and stop-maintenance *)

Definition _perfRebPost (E : Env) (ctx : smapModifier) (clone : smapX) : M smapModifier :=
  if negb (skipReb ctx) && requiresRebalance E (smap ctx) clone then
    rmdClone <- rmd_modify (fun clone => inc clone);
    ret (with_rmd ctx (Some rmdClone))
  else ret ctx.

Definition _syncFinal (E : Env) (ctx : smapModifier) (clone : smapX) : M unit :=
  let aisMsg := msg ctx in
  let pairs := [(RevSmap clone, aisMsg)] in
  pairs <-
    match rmd ctx with
    | Some rmd =>
        emit (EvNotifsAdd (RebID_String E (rmd_Version rmd)) (ActRebalance E)) >>
        ret (pairs ++ [(RevRMD rmd, aisMsg)])
    | None => ret pairs
    end;
  emit (EvMetasyncSync pairs).

(** *** PUT /v1/cluster/proxy/{id}: designate a new primary *)

(** [res.err != nil] *)
Definition failed (res : callResult) : bool :=
  match res_err res with
  | Some _ => true
  | None => false
  end.

(** The commit-phase loop over the broadcast results; [true] when the process
    exits ([cmn.ExitLogf]) because the new primary itself failed. *)
Fixpoint commitResults (proxyid : string) (results : list callResult) : M bool :=
  match results with
  | [] => ret false
  | res :: results =>
      match res_err res with
      | None => commitResults proxyid results
      | Some _ =>
          if String.eqb (ID (res_si res)) proxyid then emit EvExit >> ret true
          else commitResults proxyid results
      end
  end.

Definition cluSetPrimary (E : Env) (r : Request) : M unit :=
  items <- checkRESTItems r;
  match items with
  | inl _ => skip
  | inr apiItems =>
  let proxyid := hd "" apiItems in
  fwd <- do_forwardCP E r;
  if fwd then skip else
  p <- get;
  let smap := owner_smap p in
  match GetProxy smap proxyid with
  | None =>
      invalmsghdlrf "new primary proxy %s is not present in the %s" [FStr proxyid; FSmap smap]
  | Some psi =>
  if String.eqb proxyid (ID (si p)) then
    (* cmn.Assert(p.si.ID() == smap.Primary.ID()): must be forwardCP-ed *)
    if isPrimary smap (si p) then skip else emit EvPanic
  else if PresentInMaint E smap psi then
    invalmsghdlrf "cannot set new primary: %s is under maintenance" [FNode psi]
  else
    (* (I.1) Prepare phase - inform other nodes. *)
    let urlPath := (URLPathDaemonProxy, [proxyid]) in
    let q := [(URLParamPrepare, "true")] in
    results <- do_bcastGroup E
                 {| b_req := {| Method := MethodPut; Path := urlPath; Query := q; Body := NoBody |};
                    b_to := AllNodes |};
    match List.find failed results with
    | Some res =>
        invalmsghdlrf "Failed to set primary %s: err %v from %s in the prepare phase"
          [FStr proxyid;
           match res_err res with Some e => FErr e | None => FStr "<nil>" end;
           FNode (res_si res)]
    | None =>
        (* (I.2) Prepare phase - local changes. *)
        store_inPrimaryTransition true >>
        _ <- smap_modify
               {| pre := fun ctx clone =>
                           let clone := set_Primary clone psi in
                           emit EvBecomeNonPrimary >>
                           ret (ctx, clone, None);
                  post := None; final := None |}
               Ctx.zero;
        (* (II) Commit phase. *)
        let q := [(URLParamPrepare, "false")] in
        results <- do_bcastGroup E
                     {| b_req := {| Method := MethodPut; Path := urlPath; Query := q; Body := NoBody |};
                        b_to := AllNodes |};
        exited <- commitResults proxyid results;
        if exited then skip
        else (* defer *) store_inPrimaryTransition false
    end
  end
  end.

(** *** DELETE /v1/cluster - self-unregister *)

Definition _unregNodePre (E : Env) (ctx : smapModifier) (clone : smapX)
  : M (smapModifier * smapX * option error) :=
  let verb := "remove" in
  let sid := sid ctx in
  let node := GetNode clone sid in
  p <- get;
  if negb (isPrimary clone (si p)) then
    ret (ctx, clone,
         Some (Errorf "%s is not primary [%s]: cannot %s %s"
                 [FNode (si p); FSmap clone; FStr verb; FStr sid]))
  else
    match node with
    | None =>
        let ctx := with_status ctx StatusNotFound in
        ret (ctx, clone, Some (errNodeNotFound "failed to %s" [FStr verb] sid (si p) clone))
    | Some node =>
        if negb (NodeStarted p) then
          let ctx := with_status ctx StatusServiceUnavailable in
          ret (ctx, clone, None)
        else
          let clone := if IsProxy node then delProxy clone sid else delTarget clone sid in
          let clone := staffIC E clone in
          emit (EvRproxyDelete sid) >>
          ret (ctx, clone, None)
    end.

Definition unregNode (E : Env) (msg : ActionMsg) (si : Snode) (skipReb : bool)
  : M (Z * option error) :=
  let ctx := {| smap := None; rmd := None; msg := Some msg; nsi := None; sid := ID si;
                flags := 0; status := 0; exists_ := false; skipReb := skipReb |} in
  '(ctx, err) <- smap_modify {| pre := _unregNodePre E; post := Some (_perfRebPost E);
                                final := Some (_syncFinal E) |} ctx;
  ret (status ctx, err).

(** The retry loop of [callRmSelf]: up to [retries] calls, stopping at the
    first that succeeds and sleeping after each that fails. *)
Fixpoint callRetries (E : Env) (args : callArgs) (retries : nat) : M unit :=
  match retries with
  | O => skip
  | S retries =>
      res <- do_call E args;
      match res_err res with
      | None => skip
      | Some _ => emit EvSleep >> callRetries E args retries
      end
  end.

(** Ask the node (`si`) to permanently or temporarily remove itself from the
    cluster, in accordance with the specific `msg.Action`. *)
Definition callRmSelf (E : Env) (msg : ActionMsg) (si : Snode) (skipReb : bool)
  : M (Z * option error) :=
  let retries := 2%nat in
  p <- get;
  let smap := owner_smap p in
  match GetNode smap (ID si) with
  | None =>
      ret (StatusNotFound,
           Some (errNodeNotFound "cannot %q" [FStr (Action msg)] (ID si) (Ais.si p) smap))
  | Some node =>
      let req :=
        if String.eqb (Action msg) ActShutdownNode then
          {| Method := MethodPut; Path := (URLPathDaemon, []); Query := [];
             Body := MsgBody {| Action := ActShutdown; Value := "" |} |}
        else if String.eqb (Action msg) ActStartMaintenance
                || String.eqb (Action msg) ActDecommission
                || String.eqb (Action msg) testInitiatedRm then
          {| Method := MethodDelete; Path := (URLPathDaemonUnreg, []); Query := [];
             Body := NoBody |}
        else (* debug.AssertMsg: the zero request *)
          {| Method := ""; Path := (URLPathDaemon, []); Query := []; Body := NoBody |} in
      let args := {| c_si := node; c_req := req |} in
      callRetries E args retries >>
      (* NOTE: proceeeding anyway even if all retries fail *)
      unregNode E msg si skipReb
  end.

Definition httpcludel (E : Env) (r : Request) : M unit :=
  items <- checkRESTItems r;
  match items with
  | inl _ => skip
  | inr apiItems =>
      let sid := hd "" apiItems in
      p <- get;
      let smap := owner_smap p in
      match GetNode smap sid with
      | None =>
          invalmsghdlr (errNodeNotFound "cannot remove" [] sid (si p) smap) (Some StatusNotFound)
      | Some node =>
          fwd <- do_forwardCP E r;
          if fwd then skip else
          '(errCode, err) <-
            (if hdr_IntraCall r then
               let cid := hdr_CallerID r in
               if String.eqb cid sid then
                 unregNode E {| Action := "self-initiated-removal"; Value := "" |} node false
               else
                 ret (0, Some (Errorf "expecting self-initiated removal (%s != %s)"
                                 [FStr cid; FStr sid]))
             else
               (* TODO: phase-out tutils.RemoveNodeFromSmap (currently the only user)
                        and disallow external calls altogether *)
               callRmSelf E {| Action := testInitiatedRm; Value := "" |} node false);
          match err with
          | Some err => invalmsghdlr err (Some errCode)
          | None => skip
          end
      end
  end.

(** *** Reading a run of a handler *)

(** [p'] is [p] after some more events, all of them [ok], with the same
    identity and start-up flags and with cluster maps related by [S]. *)
Definition evolves (S : smapX -> smapX -> Prop) (ok : Event -> Prop)
    (p p' : proxyrunner) : Prop :=
  si p' = si p /\
  NodeStarted p' = NodeStarted p /\
  ClusterStarted p' = ClusterStarted p /\
  S (owner_smap p) (owner_smap p') /\
  exists evs, events p' = events p ++ evs /\ Forall ok evs.

(** The two cluster maps hold the same nodes and the same primary. *)
Definition same_nodes (m m' : smapX) : Prop :=
  Primary m' = Primary m /\ Pmap m' = Pmap m /\ Tmap m' = Tmap m.

(** Neither [Smap.modify] nor a direct install. *)
Definition not_smap_write (e : Event) : Prop := e <> EvSmapModify /\ e <> EvSmapPut.

(** Not an error reply to the client. *)
Definition not_error_reply (e : Event) : Prop :=
  match e with
  | EvInvalMsg _ _ => False
  | _ => True
  end.

(** The node of the request is registered, in the map of its role, with the
    same ID and endpoints. *)
Definition present_unchanged (m : smapX) (nsi : Snode) : Prop :=
  exists osi,
    (if IsProxy nsi then GetProxy m (ID nsi) else GetTarget m (ID nsi)) = Some osi /\
    Equals osi nsi = true.

(** The prepare-phase broadcast of [cluSetPrimary]. *)
Definition prepare_bcast (proxyid : string) : bcastArgs :=
  {| b_req := {| Method := MethodPut; Path := (URLPathDaemonProxy, [proxyid]);
                 Query := [(URLParamPrepare, "true")]; Body := NoBody |};
     b_to := AllNodes |}.

(** *** Callback of a finished rebalance *)

(** [nl.NotifListener], as read by the callback. *)
Record NotifListener : Type := {
  nl_Err : option error;        (* nl.Err(false) *)
  nl_Aborted : bool;            (* nl.Aborted() *)
  nl_UUID : string
}.

(** Callback: remove the node from the cluster if rebalance finished
    successfully *)
Definition removeAfterRebalance (E : Env) (nl : NotifListener) (msg : ActionMsg) (si : Snode)
  : M unit :=
  if bool_decide (nl_Err nl <> None) || nl_Aborted nl then skip
  else
    _ <- callRmSelf E msg si true (* skipReb *);
    skip.

(** *** More readings of a run *)



(** The proxy with its event log replaced. *)
Definition with_events (p : proxyrunner) (evs : list Event) : proxyrunner :=
  {| si := si p; owner_smap := owner_smap p; owner_rmd := owner_rmd p;
     owner_rmd_rebalance := owner_rmd_rebalance p; owner_bmd := owner_bmd p;
     inPrimaryTransition := inPrimaryTransition p; NodeStarted := NodeStarted p;
     ClusterStarted := ClusterStarted p; reg_pool := reg_pool p; events := evs |}.

(** The intra-cluster call with these arguments, or the sleep between two
    of them. *)
Definition call_or_sleep (args : callArgs) (e : Event) : Prop :=
  e = EvCall args \/ e = EvSleep.

Definition is_call (e : Event) : bool :=
  match e with
  | EvCall _ => true
  | _ => false
  end.


(** The action always leaves the component [f] of the proxy as it was. *)
Definition keeps {A B : Type} (f : proxyrunner -> B) (m : M A) : Prop :=
  forall p, f (snd (m p)) = f p.

(** *** A small cluster: primary p1, proxy p2, target t1 *)

Definition mk_node (id kind : string) : Snode :=
  let net := {| NodeHostname := id; DaemonPort := "8080"; DirectURL := id |} in
  {| DaemonID := id; DaemonType := kind; PublicNet := net; IntraControlNet := net;
     IntraDataNet := net; Flags := 0 |}.

Definition smap3 : smapX :=
  {| Version := 3; UUID := "u"; Primary := Some (mk_node "p1" Proxy);
     Pmap := {[ "p1" := mk_node "p1" Proxy; "p2" := mk_node "p2" Proxy ]};
     Tmap := {[ "t1" := mk_node "t1" Target ]} |}.

Definition primary_p1 (started : bool) : proxyrunner :=
  {| si := mk_node "p1" Proxy; owner_smap := smap3;
     owner_rmd := {| rmd_Version := 5; rmd_TargetIDs := []; rmd_Resilver := "" |};
     owner_rmd_rebalance := false;
     owner_bmd := {| bmd_Version := 1; bmd_UUID := "u" |};
     inPrimaryTransition := false; NodeStarted := started; ClusterStarted := started;
     reg_pool := []; events := [] |}.

(** Every peer is reachable and healthy, except that p2 answers the prepare
    phase of a primary handover with an error; any Smap delta calls for a
    rebalance. *)
Definition env1 : Env :=
  {| forwardCP := fun _ _ => false;
     bcastGroup := fun _ args =>
       [ {| res_si := mk_node "t1" Target; res_err := None; res_details := "";
            res_status := 200 |};
         {| res_si := mk_node "p2" Proxy;
            res_err := if bool_decide (Query (b_req args) = [(URLParamPrepare, "true")])
                       then Some (ErrIO "500") else None;
            res_details := ""; res_status := 500 |} ];
     call := fun _ args =>
       {| res_si := c_si args; res_err := None; res_details := ""; res_status := 200 |};
     detectDaemonDuplicate := fun _ _ _ => false;
     requiresRebalance := fun _ _ => true;
     staffIC := fun m => m;
     putNode := fun m _ _ => (m, true);
     PresentInMaint := fun _ _ => false;
     Validate := fun _ => None;
     validateHostname := fun _ => None;
     bmd_validateUUID := fun _ _ _ _ => None;
     smap_validateUUID := fun _ _ _ _ => None;
     IsDuplicate := fun _ _ => None;
     ParseBool := fun _ => (false, None);
     IsErrConnectionRefused := fun _ => false;
     RebID_String := fun _ => "g";
     revokedTokenList := [];
     SnodeNonElectable := 1;
     PostCount := "post.n";
     ActRegTarget := "regtarget";
     ActRegProxy := "regproxy";
     ActStartGFN := "start-gfn";
     ActRebalance := "rebalance" |}.


(** As [env1], with the registered node still answering the duplicate
    probe. *)
Definition env_dup : Env :=
  {| forwardCP := forwardCP env1;
     bcastGroup := bcastGroup env1;
     call := call env1;
     detectDaemonDuplicate := fun _ _ _ => true;
     requiresRebalance := requiresRebalance env1;
     staffIC := staffIC env1;
     putNode := putNode env1;
     PresentInMaint := PresentInMaint env1;
     Validate := Validate env1;
     validateHostname := validateHostname env1;
     bmd_validateUUID := bmd_validateUUID env1;
     smap_validateUUID := smap_validateUUID env1;
     IsDuplicate := IsDuplicate env1;
     ParseBool := ParseBool env1;
     IsErrConnectionRefused := IsErrConnectionRefused env1;
     RebID_String := RebID_String env1;
     revokedTokenList := revokedTokenList env1;
     SnodeNonElectable := SnodeNonElectable env1;
     PostCount := PostCount env1;
     ActRegTarget := ActRegTarget env1;
     ActRegProxy := ActRegProxy env1;
     ActStartGFN := ActStartGFN env1;
     ActRebalance := ActRebalance env1 |}.

(** A target that calls itself t1 from another address. *)
Definition moved_t1 : Snode :=
  let net := {| NodeHostname := "t1b"; DaemonPort := "8080"; DirectURL := "t1b" |} in
  {| DaemonID := "t1"; DaemonType := Target; PublicNet := net; IntraControlNet := net;
     IntraDataNet := net; Flags := 0 |}.

(** Its self-registration. *)
Definition join_moved_t1 : Request :=
  {| rest := inr [AutoRegister];
     json_SI := inl (ErrIO "no body");
     json_regReq := inr {| reg_Smap := None; reg_BMD := None; reg_SI := moved_t1;
                           reg_Reb := false |};
     query_NonElectable := "";
     hdr_IntraCall := true;
     hdr_CallerID := "t1" |}.

Definition request (items : list string) : Request :=
  {| rest := inr items;
     json_SI := inl (ErrIO "no body");
     json_regReq := inl (ErrIO "no body");
     query_NonElectable := "";
     hdr_IntraCall := false;
     hdr_CallerID := "" |}.

(** t1's keepalive. *)
Definition keepalive_t1 : Request :=
  {| rest := inr [Keepalive];
     json_SI := inl (ErrIO "no body");
     json_regReq := inr {| reg_Smap := Some smap3; reg_BMD := None;
                           reg_SI := mk_node "t1" Target; reg_Reb := false |};
     query_NonElectable := "";
     hdr_IntraCall := true;
     hdr_CallerID := "t1" |}.

(** t1's self-initiated removal. *)
Definition remove_t1 : Request :=
  {| rest := inr ["t1"];
     json_SI := inl (ErrIO "no body");
     json_regReq := inl (ErrIO "no body");
     query_NonElectable := "";
     hdr_IntraCall := true;
     hdr_CallerID := "t1" |}.

Definition removal_ctx (skip : bool) : smapModifier :=
  {| smap := Some smap3; rmd := None; msg := None; nsi := None; sid := "t1";
     flags := 0; status := 0; exists_ := false; skipReb := skip |}.

End Ais.

(* ================================================================== *)
(** ** Package archive: readers of tar, tgz, zip and tar.lz4 *)
(* ================================================================== *)

Module Archive.

(** [filepath.Separator] *)
Definition Separator : ascii := "/"%char.

(** What a call ends with: it returns, or it panics (index out of range, nil
    function). *)
Inductive ends (A : Type) : Type :=
| Returns (a : A)
| Panics.
Arguments Returns {A} a.
Arguments Panics {A}.

(** in re `--absolute-names` (simplified).  [n[0]] of an empty string is out
    of range. *)
Definition namesEq (n1 n2 : string) : ends bool :=
  match n1 with
  | EmptyString => Panics
  | String c1 r1 =>
      let n1 := if Ascii.eqb c1 Separator then r1 else n1 in
      match n2 with
      | EmptyString => Panics
      | String c2 r2 =>
          let n2 := if Ascii.eqb c2 Separator then r2 else n2 in
          Returns (String.eqb n1 n2)
      end
  end.

(** [tar.Header], the fields read here. *)
Record Header : Type := {
  Name : string;
  Size : Z
}.

(** A tar stream as [tar.Reader.Next] delivers it: the headers in order,
    then [io.EOF] ([None]) or a read error. *)
Record tarStream : Type := {
  entries : list Header;
  ending : option error
}.

(** [cslLimited]: a reader limited to [N] bytes of the entry the stream is
    positioned at. *)
Record cslLimited : Type := {
  of_entry : Header;
  N : Z
}.

Definition limited (hdr : Header) : cslLimited := {| of_entry := hdr; N := Size hdr |}.

(** [ReadCB]; the callback may keep state: its answer may depend on how many
    times it has been called before. *)
Definition ReadCB : Type := nat -> cslLimited -> bool * option error.

(** [hdr.Name == filename || namesEq(hdr.Name, filename)] *)
Definition selects (name filename : string) : ends bool :=
  if String.eqb name filename then Returns true else namesEq name filename.

(** [tarReader.Range] over the headers that are left.  The result is what
    [Range] ends with -- the returned [(reader, error)] -- and the readers
    handed to the callback, in order. *)
Fixpoint tarRange (readcb : option ReadCB) (filename : string)
    (hdrs : list Header) (ending : option error) (calls : list cslLimited)
  : ends (option cslLimited * option error) * list cslLimited :=
  match hdrs with
  | [] =>
      match ending with
      | None => (Returns (None, None), calls)        (* io.EOF *)
      | Some ern => (Returns (None, Some ern), calls)
      end
  | hdr :: hdrs =>
      (* select one *)
      if negb (String.eqb filename "") then
        match selects (Name hdr) filename with
        | Panics => (Panics, calls)
        | Returns true => (Returns (Some (limited hdr), None), calls)
        | Returns false => tarRange readcb filename hdrs ending calls
        end
      else
        (* range-read *)
        match readcb with
        | None => (Panics, calls)
        | Some cb =>
            let '(stop, err) := cb (length calls) (limited hdr) in
            let calls := calls ++ [limited hdr] in
            if stop || bool_decide (err <> None) then (Returns (None, err), calls)
            else tarRange readcb filename hdrs ending calls
        end
  end.

Definition tarReader_Range (readcb : option ReadCB) (tr : tarStream) (filename : string)
  : ends (option cslLimited * option error) * list cslLimited :=
  tarRange readcb filename (entries tr) (ending tr) [].

(** [lz4Reader.Range] *)
Definition lz4Reader_Range (readcb : option ReadCB) (tr : tarStream) (filename : string)
  : ends (option cslLimited * option error) * list cslLimited :=
  tarReader_Range readcb tr filename.

(** [cslClose]: reads from [R], reports size [N], and closes the gzip reader
    when closed. *)
Record cslClose : Type := {
  cR : cslLimited;
  cN : Z
}.

(** The readers [tgzReader.Range] can return: its own [cslClose], or the
    tar reader's as it came. *)
Inductive tgzReadCloser : Type :=
| ViaClose (csc : cslClose)
| Plain (reader : cslLimited).

(** [tgzReader.Range].  [closeErr] is what [gzr.Close()] returns; the last
    component tells whether [Range] has closed the gzip reader.

    NOTE the convention:
    - when the method returns non-nil reader the responsibility to close the
      latter goes to the caller (via reader.Close)
    - otherwise, gzip.Reader is closed here upon return *)
Definition tgzReader_Range (readcb : option ReadCB) (tr : tarStream) (closeErr : option error)
    (filename : string)
  : ends (option tgzReadCloser * option error) * list cslLimited * bool :=
  match tarReader_Range readcb tr filename with
  | (Panics, calls) => (Panics, calls, false)
  | (Returns (Some reader, None), calls) =>
      let csc := {| cR := reader; cN := N reader |} in
      (Returns (Some (ViaClose csc), None), calls, false)
  | (Returns (reader, _), calls) =>
      (* err = tgr.gzr.Close() *)
      (Returns (option_map Plain reader, closeErr), calls, true)
  end.

(** [zip.File], the parts read here: its header name, whether it is a
    directory, its size, and what [f.Open()] gives. *)
Record zipFile : Type := {
  zName : string;
  zIsDir : bool;
  zSize : Z;
  zOpen : option error
}.

(** [cslFile]: the opened file (absent when [Open] failed) and its size. *)
Record cslFile : Type := {
  file : option zipFile;
  size : Z
}.

(** What [csf.file, err = f.Open()] leaves in [csf]. *)
Definition opened (f : zipFile) : cslFile :=
  {| file := match zOpen f with None => Some f | Some _ => None end;
     size := zSize f |}.

Definition zipCB : Type := nat -> cslFile -> bool * option error.

(** [zipReader.Range] over the files that are left. *)
Fixpoint zipRange (readcb : option zipCB) (filename : string) (files : list zipFile)
    (calls : list cslFile)
  : ends (option cslFile * option error) * list cslFile :=
  match files with
  | [] => (Returns (None, None), calls)
  | f :: files =>
      if zIsDir f then zipRange readcb filename files calls
      (* select one *)
      else if negb (String.eqb filename "") then
        match selects (zName f) filename with
        | Panics => (Panics, calls)
        | Returns true => (Returns (Some (opened f), zOpen f), calls)
        | Returns false => zipRange readcb filename files calls
        end
      else
        match zOpen f with
        | Some err => (Returns (None, Some err), calls)
        | None =>
            match readcb with
            | None => (Panics, calls)
            | Some cb =>
                let '(stop, err) := cb (length calls) (opened f) in
                let calls := calls ++ [opened f] in
                if stop || bool_decide (err <> None) then (Returns (None, err), calls)
                else zipRange readcb filename files calls
            end
        end
  end.

Definition zipReader_Range (readcb : option zipCB) (files : list zipFile) (filename : string)
  : ends (option cslFile * option error) * list cslFile :=
  zipRange readcb filename files [].

(** *** Reading the results *)

(** A name with one leading separator removed. *)
Definition relname (n : string) : string :=
  match n with
  | String c r => if Ascii.eqb c Separator then r else n
  | EmptyString => n
  end.

(** The entry name matches the wanted file name: the same, or the same once
    a leading separator is dropped on either side. *)
Definition matches (filename name : string) : bool :=
  String.eqb name filename || String.eqb (relname name) (relname filename).

(** The callback tells [Range] to go no further. *)
Definition halts {A} (cb : nat -> A -> bool * option error) (i : nat) (a : A) : bool :=
  fst (cb i a) || bool_decide (snd (cb i a) <> None).

(** The prefix of [l] up to and including the first element at which the
    callback halts, counting calls from [i]. *)
Fixpoint visited {A} (cb : nat -> A -> bool * option error) (i : nat) (l : list A) : list A :=
  match l with
  | [] => []
  | a :: l => if halts cb i a then [a] else a :: visited cb (S i) l
  end.

(** *** An archive for the examples *)

Definition tar3 : tarStream :=
  {| entries := [ {| Name := "/data/a.txt"; Size := 10 |};
                  {| Name := "data/b.txt"; Size := 20 |};
                  {| Name := "data/c.txt"; Size := 30 |} ];
     ending := None |}.

(** Stop after the second entry. *)
Definition two_only : ReadCB := fun i _ => (Nat.eqb i 1, None).

End Archive.

(* ================================================================== *)
(** * Properties *)
(* ================================================================== *)

(** ** The access-control bitmask *)

Module CmnFacts.
Import Cmn.

Lemma iota_bit_pow2 k : 0 <= k -> iota_bit k = 2 ^ k.
Proof. intros Hk. unfold iota_bit. now rewrite Z.shiftl_1_l. Qed.

Lemma land_iota_bit m k :
  0 <= k -> Z.land m (iota_bit k) = if Z.testbit m k then iota_bit k else 0.
Proof.
  intros Hk. rewrite iota_bit_pow2 by assumption.
  apply Z.bits_inj'. intros n Hn.
  rewrite Z.land_spec, Z.pow2_bits_eqb by assumption.
  destruct (Z.eqb_spec k n) as [->|Hne].
  - rewrite andb_true_r. destruct (Z.testbit m n) eqn:Hb.
    + now rewrite Z.pow2_bits_true.
    + now rewrite Z.bits_0.
  - rewrite andb_false_r. destruct (Z.testbit m k).
    + rewrite Z.pow2_bits_false; auto.
    + now rewrite Z.bits_0.
Qed.

(** The source's test [aattrs&bit == bit] reads bit [k] of the mask. *)
Lemma has_testbit m k : 0 <= k -> has m (iota_bit k) = Z.testbit m k.
Proof.
  intros Hk. unfold has. rewrite land_iota_bit by assumption.
  destruct (Z.testbit m k).
  - apply Z.eqb_refl.
  - apply Z.eqb_neq. rewrite iota_bit_pow2 by assumption.
    pose proof (Z.pow_pos_nonneg 2 k). lia.
Qed.

Lemma app_if {A} (c : bool) (l : list A) (x : A) :
  (if c then l ++ [x] else l) = l ++ (if c then [x] else []).
Proof. destruct c; [reflexivity | now rewrite app_nil_r]. Qed.

Lemma names_cons m k s (l : list (Z * string)) :
  map snd (filter (fun p => Z.testbit m (fst p) = true) ((k, s) :: l))
  = (if Z.testbit m k then [s] else [])
      ++ map snd (filter (fun p => Z.testbit m (fst p) = true) l).
Proof.
  rewrite filter_cons. simpl. destruct (Z.testbit m k); case_decide; simpl; congruence.
Qed.

Lemma listedNames_unfold m :
  listedNames m =
    (if Z.testbit m 0 then ["GET"] else []) ++
    (if Z.testbit m 1 then ["HEAD-OBJECT"] else []) ++
    (if Z.testbit m 2 then ["PUT"] else []) ++
    (if Z.testbit m 3 then ["APPEND"] else []) ++
    (if Z.testbit m 4 then ["DOWNLOAD"] else []) ++
    (if Z.testbit m 5 then ["DELETE-OBJECT"] else []) ++
    (if Z.testbit m 6 then ["RENAME-OBJECT"] else []) ++
    (if Z.testbit m 7 then ["PROMOTE"] else []) ++
    (if Z.testbit m 8 then ["HEAD-BUCKET"] else []) ++
    (if Z.testbit m 9 then ["LIST-OBJECTS"] else []) ++
    (if Z.testbit m 10 then ["RENAME-BUCKET"] else []) ++
    (if Z.testbit m 11 then ["PATCH"] else []) ++
    (if Z.testbit m 12 then ["MAKE-NCOPIES"] else []) ++
    (if Z.testbit m 14 then ["SYNC-BUCKET"] else []) ++
    (if Z.testbit m 15 then ["DELETE-BUCKET"] else []).
Proof.
  unfold listedNames, listedAccess. rewrite !names_cons.
  rewrite filter_nil. simpl map. now rewrite app_nil_r.
Qed.

(** The table lookups of [accessToStr], evaluated. *)
Ltac eval_accessOp :=
  repeat match goal with
         | |- context [accessOp_at ?k] =>
             let v := eval vm_compute in (accessOp_at k) in
             change (accessOp_at k) with v
         end.

(** One conditional [append] of [accessToStr]: name the new list and keep
    only its equation. *)
Ltac step_accList :=
  match goal with
  | |- (let a := (if ?c then ?l ++ [?x] else ?l) in @?B a) = ?R =>
      let a' := fresh "accList" in
      let H := fresh "Hacc" in
      pose (a' := if c then l ++ [x] else l);
      change (B a' = R); cbv beta;
      pose proof (app_if c l x : a' = _) as H; clearbody a'
  end.

(** [accessToStr] prints the listed names of the mask, or "No access". *)
Lemma accessToStr_listed m :
  accessToStr m = if Z.eqb m 0 then "No access" else Join (listedNames m) ",".
Proof.
  cbv beta delta [accessToStr].
  destruct (Z.eqb m 0); [reflexivity|].
  match goal with
  | |- (let a := ?v in @?B a) = ?R => change (B v = R); cbv beta
  end.
  repeat step_accList. subst.
  eval_accessOp.
  unfold AccessGET, AccessObjHEAD, AccessPUT, AccessAPPEND, AccessDownload,
    AccessObjDELETE, AccessObjRENAME, AccessPROMOTE, AccessBckHEAD, AccessObjLIST,
    AccessBckRENAME, AccessPATCH, AccessMAKENCOPIES, AccessSYNC, AccessBckDELETE.
  rewrite !has_testbit by lia.
  rewrite listedNames_unfold, <- !app_assoc. reflexivity.
Qed.

Lemma uint64_high_bits x n : is_uint64 x -> 64 <= n -> Z.testbit x n = false.
Proof.
  intros Hx Hn. unfold is_uint64 in Hx.
  rewrite <- (Z.mod_small x (2 ^ 64)) by lia.
  apply Z.mod_pow2_bits_high. lia.
Qed.

(** On a [uint64], masking with [allowAllAccess ^ bits] clears exactly the
    given bits. *)
Lemma land_not_bits cur bits :
  is_uint64 cur -> Z.land cur (Z.lxor allowAllAccess bits) = Z.ldiff cur bits.
Proof.
  intros Hc. apply Z.bits_inj'. intros n Hn.
  rewrite Z.land_spec, Z.lxor_spec, Z.ldiff_spec. unfold allowAllAccess.
  destruct (Z.ltb_spec n 64) as [Hlt|Hge].
  - rewrite Z.ones_spec_low by lia. now destruct (Z.testbit bits n).
  - now rewrite (uint64_high_bits cur n Hc Hge).
Qed.

Lemma ModifyAccess_uint64 cur action bits :
  is_uint64 cur -> is_uint64 bits -> is_uint64 (fst (ModifyAccess cur action bits)).
Proof.
  intros Hc Hb. unfold ModifyAccess.
  assert (Hrange : forall x, is_uint64 x <-> 0 <= x /\ forall n, 64 <= n -> Z.testbit x n = false).
  { intros x. split.
    - intros Hx. split; [apply Hx|]. intros n Hn. now apply uint64_high_bits.
    - intros [H0 Hhi]. split; [assumption|].
      destruct (Z.eq_dec x 0) as [->|Hne]; [lia|].
      apply Z.log2_lt_pow2; [lia|].
      destruct (Z.lt_ge_cases (Z.log2 x) 64) as [|Hge]; [assumption|].
      specialize (Hhi _ Hge). rewrite Z.bit_log2 in Hhi by lia. discriminate. }
  destruct (String.eqb action AllowAccess); [|destruct (String.eqb action DenyAccess)];
    simpl; apply Hrange.
  - split.
    + apply Z.lor_nonneg. unfold is_uint64 in *. lia.
    + intros n Hn. rewrite Z.lor_spec, !uint64_high_bits by assumption. reflexivity.
  - split.
    + apply Z.land_nonneg. unfold is_uint64 in *. lia.
    + intros n Hn. rewrite Z.land_spec, (uint64_high_bits cur) by assumption. reflexivity.
  - split; [lia|]. intros n _. apply Z.bits_0.
Qed.

Example accessToStr_no_access : accessToStr 0 = "No access".
Proof. reflexivity. Qed.

Example accessToStr_get_put : accessToStr (Z.lor AccessGET AccessPUT) = "GET,PUT".
Proof. reflexivity. Qed.

Example accessToStr_ec_only : accessToStr AccessEC = "".
Proof. reflexivity. Qed.

Example AccessOp_list_buckets : AccessOp AccessBckLIST = "<unknown access>".
Proof. reflexivity. Qed.

Example ModifyAccess_deny_read : ModifyAccess 7 "deny" AccessGET = (6, None).
Proof. reflexivity. Qed.

(** C7.  For every mask [cur] and bit set [bits]: [ModifyAccess] returns
    [(cur OR bits, nil)] for the action "allow", [(cur AND NOT bits, nil)] for
    the action "deny", and [(0, err)] with a non-nil error for every other
    action string. *)
Theorem ModifyAccess_allow_deny_other (cur bits : Z) (action : string) :
  is_uint64 cur -> is_uint64 bits ->
  (action = "allow" -> ModifyAccess cur action bits = (Z.lor cur bits, None)) /\
  (action = "deny" -> ModifyAccess cur action bits = (Z.ldiff cur bits, None)) /\
  (action <> "allow" -> action <> "deny" ->
   exists e, ModifyAccess cur action bits = (0, Some e)).
Proof.
  intros Hc Hb. repeat split.
  - intros ->. reflexivity.
  - intros ->. unfold ModifyAccess. simpl. now rewrite land_not_bits.
  - intros Ha Hd. unfold ModifyAccess.
    destruct (String.eqb_spec action AllowAccess) as [->|_]; [now elim Ha|].
    destruct (String.eqb_spec action DenyAccess) as [->|_]; [now elim Hd|].
    simpl. eauto.
Qed.

Lemma ModifyAccess_allow_deny_other_witness :
  ModifyAccess 5 "allow" 6 = (7, None) /\
  ModifyAccess 5 "deny" 6 = (1, None) /\
  exists e, ModifyAccess 5 "grant" 6 = (0, Some e).
Proof.
  assert (H5 : is_uint64 5) by (unfold is_uint64; lia).
  assert (H6 : is_uint64 6) by (unfold is_uint64; lia).
  split; [|split].
  - apply (ModifyAccess_allow_deny_other 5 6 "allow" H5 H6). reflexivity.
  - apply (ModifyAccess_allow_deny_other 5 6 "deny" H5 H6). reflexivity.
  - apply (ModifyAccess_allow_deny_other 5 6 "grant" H5 H6); discriminate.
Defined.

(** C8.  For every mask [m] and bit set [b], "allow" of [b] followed by
    "deny" of the same [b] gives exactly what "deny" of [b] alone gives:
    the same mask and no error. *)
Theorem ModifyAccess_allow_then_deny (m b : Z) :
  is_uint64 m -> is_uint64 b ->
  ModifyAccess (fst (ModifyAccess m "allow" b)) "deny" b = ModifyAccess m "deny" b.
Proof.
  intros Hm Hb. unfold ModifyAccess. simpl. f_equal.
  apply Z.bits_inj'. intros n Hn.
  rewrite !Z.land_spec, Z.lor_spec, Z.lxor_spec.
  destruct (Z.ltb_spec n 64) as [Hlt|Hge].
  - unfold allowAllAccess. rewrite Z.ones_spec_low by lia.
    destruct (Z.testbit m n), (Z.testbit b n); reflexivity.
  - rewrite (uint64_high_bits m n Hm Hge), (uint64_high_bits b n Hb Hge). reflexivity.
Qed.

Lemma ModifyAccess_allow_then_deny_witness :
  ModifyAccess (fst (ModifyAccess 9 "allow" 3)) "deny" 3 = ModifyAccess 9 "deny" 3.
Proof.
  apply (ModifyAccess_allow_then_deny 9 3); unfold is_uint64; lia.
Defined.

(** A mask made of cluster-level bits only has none of the listed bits. *)
Lemma cluster_only_bits m k :
  Z.land m clusterAccess = m -> 0 <= k < 16 -> Z.testbit m k = false.
Proof.
  intros Hm Hk. rewrite <- Hm, Z.land_spec.
  assert (Hc : Z.testbit clusterAccess k = false).
  { assert (k = 0 \/ k = 1 \/ k = 2 \/ k = 3 \/ k = 4 \/ k = 5 \/ k = 6 \/ k = 7 \/
            k = 8 \/ k = 9 \/ k = 10 \/ k = 11 \/ k = 12 \/ k = 13 \/ k = 14 \/ k = 15)
      as Hcases by lia.
    repeat (destruct Hcases as [->|Hcases]; [reflexivity|]). now subst. }
  rewrite Hc. apply andb_false_r.
Qed.

(** C10.  [accessToStr] never emits the cluster-level permission names.  For
    every non-zero mask: the output is the comma-joined list of the names of
    the set bits among the fifteen object- and bucket-level bits it tests
    (RENAME-BUCKET among them, EC not); none of the names it can list is
    EC, CREATE-BUCKET, LIST-BUCKETS or ADMIN; and when only cluster-level bits
    are set, the output is the empty string (not "No access"). *)
Theorem accessToStr_never_cluster_names (m : Z) :
  m <> 0 ->
  accessToStr m = Join (listedNames m) "," /\
  (forall name, In name (listedNames m) -> ~ In name ("EC" :: clusterNames)) /\
  (Z.testbit m 10 = true -> In "RENAME-BUCKET" (listedNames m)) /\
  (Z.land m clusterAccess = m -> accessToStr m = "" /\ accessToStr m <> "No access") /\
  (forall m', m' <> 0 ->
     (forall k, 0 <= k < 16 -> k <> 13 -> Z.testbit m' k = Z.testbit m k) ->
     accessToStr m' = accessToStr m).
Proof.
  intros Hnz.
  assert (Hstr : forall x, x <> 0 -> accessToStr x = Join (listedNames x) ",").
  { intros x Hx. rewrite accessToStr_listed.
    destruct (Z.eqb_spec x 0); [contradiction|reflexivity]. }
  split; [now apply Hstr|]. split; [|split; [|split]].
  - intros name Hin. unfold listedNames in Hin.
    apply in_map_iff in Hin as [[k s] [<- Hin]].
    apply list_elem_of_In, list_elem_of_filter in Hin as [_ Hin].
    apply list_elem_of_In in Hin. simpl fst. simpl snd.
    unfold listedAccess in Hin. simpl in Hin.
    repeat (destruct Hin as [Heq|Hin];
            [injection Heq as <- <-; simpl; intuition discriminate|]).
    contradiction.
  - intros Hb. rewrite listedNames_unfold, Hb.
    rewrite !in_app_iff. do 10 right. left. now left.
  - intros Hm. rewrite (Hstr m Hnz), listedNames_unfold.
    rewrite !(cluster_only_bits m _ Hm) by lia. split; [reflexivity|discriminate].
  - intros m' Hnz' Hbits. rewrite (Hstr m Hnz), (Hstr m' Hnz'), !listedNames_unfold.
    rewrite !Hbits by lia. reflexivity.
Qed.

Lemma accessToStr_never_cluster_names_witness :
  accessToStr (AccessBckCreate + AccessADMIN) = "" /\
  accessToStr (AccessBckLIST + AccessBckRENAME + AccessEC + AccessGET) = "GET,RENAME-BUCKET".
Proof.
  assert (H1 : AccessBckCreate + AccessADMIN <> 0) by (vm_compute; discriminate).
  destruct (accessToStr_never_cluster_names _ H1) as (_ & _ & _ & Hcluster & _).
  split.
  - apply Hcluster. reflexivity.
  - reflexivity.
Defined.

(** *** More on the access mask *)

Lemma filter_testbit m (l : list (Z * string)) :
  filter (fun p => Z.testbit m (fst p) = true) l
  = List.filter (fun p => Z.testbit m (fst p)) l.
Proof.
  induction l as [|[k name] l IH]; [reflexivity|].
  rewrite filter_cons. cbn [List.filter fst].
  destruct (Z.testbit m k) eqn:Hk; case_decide; cbn [fst] in *; congruence.
Qed.

Lemma listedNames_where m : listedNames m = namesWhere (Z.testbit m).
Proof. unfold listedNames, namesWhere. now rewrite filter_testbit. Qed.

Lemma namesWhere_ext sel sel' :
  (forall k, sel k = sel' k) -> namesWhere sel = namesWhere sel'.
Proof.
  intros H. unfold namesWhere. f_equal. apply List.filter_ext. intros p. apply H.
Qed.

(** No name stands for two bits. *)
Lemma listedAccess_names k k' name :
  In (k, name) listedAccess -> In (k', name) listedAccess -> k = k'.
Proof.
  unfold listedAccess. cbn [In]. intros H H'.
  repeat (destruct H as [H|H];
          [injection H as <- <-; repeat (destruct H' as [H'|H']; [congruence|]);
           contradiction|]).
  contradiction.
Qed.

Lemma namesWhere_In sel k name :
  In (k, name) listedAccess -> (In name (namesWhere sel) <-> sel k = true).
Proof.
  intros Hin. unfold namesWhere. rewrite in_map_iff. split.
  - intros ([k' name'] & Hname & Hf). cbn in Hname. subst name'.
    apply List.filter_In in Hf as [Hin' Hsel]. cbn in Hsel.
    now rewrite (listedAccess_names k k' name Hin Hin').
  - intros Hsel. exists (k, name). split; [reflexivity|].
    apply List.filter_In. now split.
Qed.

(** Every set bit of [m] is among [b]: nothing is left after denying [b]. *)
Lemma ldiff_0_has m b : Z.eqb (Z.ldiff m b) 0 = has b m.
Proof.
  unfold has.
  destruct (Z.eqb_spec (Z.ldiff m b) 0) as [H0|H0];
    destruct (Z.eqb_spec (Z.land b m) m) as [H1|H1]; try reflexivity; exfalso.
  - apply H1. apply Z.bits_inj'. intros n _.
    apply (f_equal (fun z => Z.testbit z n)) in H0.
    rewrite Z.ldiff_spec, Z.bits_0 in H0. rewrite Z.land_spec.
    destruct (Z.testbit m n), (Z.testbit b n); cbn in *; congruence.
  - apply H0. apply Z.bits_inj'. intros n _.
    apply (f_equal (fun z => Z.testbit z n)) in H1.
    rewrite Z.land_spec in H1. rewrite Z.ldiff_spec, Z.bits_0.
    destruct (Z.testbit m n), (Z.testbit b n); cbn in *; congruence.
Qed.

(** X1.  [ModifyAccess] keeps the mask a [uint64]: whatever the action, the
    returned mask is in range when the arguments are. *)
Theorem ModifyAccess_stays_uint64 (cur bits : Z) (action : string) :
  is_uint64 cur -> is_uint64 bits -> is_uint64 (fst (ModifyAccess cur action bits)).
Proof. apply ModifyAccess_uint64. Qed.

Lemma ModifyAccess_stays_uint64_witness :
  is_uint64 (fst (ModifyAccess (2 ^ 64 - 1) "allow" (2 ^ 63))).
Proof.
  apply ModifyAccess_stays_uint64; unfold is_uint64; lia.
Defined.

(** X2.  Granting or revoking twice is the same as once, and an "allow"
    overrides an earlier "deny" of the same bits. *)
Theorem ModifyAccess_absorbs (m b : Z) :
  is_uint64 m -> is_uint64 b ->
  let allow x := fst (ModifyAccess x "allow" b) in
  let deny x := fst (ModifyAccess x "deny" b) in
  allow (allow m) = allow m /\ deny (deny m) = deny m /\ allow (deny m) = allow m.
Proof.
  intros Hm Hb. cbv zeta. unfold ModifyAccess. simpl.
  pose proof (ModifyAccess_uint64 m "deny" b Hm Hb) as Hd.
  unfold ModifyAccess in Hd. simpl in Hd.
  rewrite (land_not_bits _ b Hd), (land_not_bits m b Hm).
  repeat split; apply Z.bits_inj'; intros n Hn;
    rewrite ?Z.lor_spec, ?Z.ldiff_spec, ?Z.lor_spec;
    destruct (Z.testbit m n), (Z.testbit b n); reflexivity.
Qed.

Lemma ModifyAccess_absorbs_witness :
  fst (ModifyAccess (fst (ModifyAccess 5 "deny" 6)) "allow" 6) = fst (ModifyAccess 5 "allow" 6).
Proof.
  apply (ModifyAccess_absorbs 5 6); unfold is_uint64; lia.
Defined.

(** X3.  What [accessToStr] prints follows [ModifyAccess].  Of a mask it
    prints "No access" when the mask is zero, and otherwise the names of the
    listed permissions whose bit is set, in the order of the list.  After a
    "deny" it prints "No access" when every set bit of the mask was denied
    ([bits&mask == mask]), and otherwise exactly the listed names whose bit
    was set and is not among the denied bits.  After an "allow" it prints
    "No access" only when mask and bits are both zero, and otherwise exactly
    the listed names whose bit was set or is among the allowed bits.  Here a
    listed name is among the names printed exactly when its own bit is
    selected. *)
Theorem accessToStr_follows_ModifyAccess (m b : Z) :
  is_uint64 m -> is_uint64 b ->
  let denied := fst (ModifyAccess m "deny" b) in
  let allowed := fst (ModifyAccess m "allow" b) in
  accessToStr m
  = (if Z.eqb m 0 then "No access" else Join (namesWhere (Z.testbit m)) ",") /\
  accessToStr denied
  = (if has b m then "No access"
     else Join (namesWhere (fun k => Z.testbit m k && negb (Z.testbit b k))) ",") /\
  accessToStr allowed
  = (if Z.eqb m 0 && Z.eqb b 0 then "No access"
     else Join (namesWhere (fun k => Z.testbit m k || Z.testbit b k)) ",") /\
  (forall sel k name, In (k, name) listedAccess ->
     (In name (namesWhere sel) <-> sel k = true)).
Proof.
  intros Hm Hb. cbv zeta. rewrite !accessToStr_listed, !listedNames_where.
  unfold ModifyAccess. simpl. rewrite land_not_bits by assumption.
  split; [reflexivity|]. split; [|split].
  - rewrite ldiff_0_has. destruct (has b m); [reflexivity|].
    f_equal. apply namesWhere_ext. intros k. apply Z.ldiff_spec.
  - assert (H0 : Z.eqb (Z.lor m b) 0 = Z.eqb m 0 && Z.eqb b 0).
    { destruct (Z.eqb_spec (Z.lor m b) 0) as [H|H].
      - apply Z.lor_eq_0_iff in H as [-> ->]. reflexivity.
      - destruct (Z.eqb_spec m 0) as [->|]; [|reflexivity].
        destruct (Z.eqb_spec b 0) as [->|]; [|reflexivity].
        now elim H. }
    rewrite H0. destruct (Z.eqb m 0 && Z.eqb b 0); [reflexivity|].
    f_equal. apply namesWhere_ext. intros k. apply Z.lor_spec.
  - intros sel k name. apply namesWhere_In.
Qed.

Lemma accessToStr_follows_ModifyAccess_witness :
  accessToStr (fst (ModifyAccess ReadWriteAccess "deny" AccessPUT))
  = "GET,HEAD-OBJECT,APPEND,DOWNLOAD,DELETE-OBJECT,RENAME-OBJECT,HEAD-BUCKET,LIST-OBJECTS".
Proof.
  pose proof (accessToStr_follows_ModifyAccess ReadWriteAccess AccessPUT
                ltac:(unfold is_uint64; vm_compute; split; [discriminate | reflexivity])
                ltac:(unfold is_uint64; vm_compute; split; [discriminate | reflexivity]))
    as H.
  cbv zeta in H. destruct H as (_ & H & _). rewrite H. reflexivity.
Defined.

(** X4.  Denying everything leaves no access, whatever the mask was, and
    [accessToStr] then prints "No access"; allowing everything gives all
    access; allowing or denying nothing changes nothing. *)
Theorem ModifyAccess_extremes (m : Z) :
  is_uint64 m ->
  ModifyAccess m "deny" AllAccess = (NoAccess, None) /\
  accessToStr (fst (ModifyAccess m "deny" AllAccess)) = "No access" /\
  ModifyAccess m "allow" AllAccess = (AllAccess, None) /\
  ModifyAccess m "deny" NoAccess = (m, None) /\
  ModifyAccess m "allow" NoAccess = (m, None).
Proof.
  intros Hm.
  assert (Hdeny : ModifyAccess m "deny" AllAccess = (NoAccess, None)).
  { unfold ModifyAccess, AllAccess, NoAccess. simpl.
    now rewrite Z.lxor_nilpotent, Z.land_0_r. }
  split; [assumption|]. split; [now rewrite Hdeny|].
  unfold ModifyAccess, AllAccess, NoAccess, allowAllAccess. simpl. repeat split.
  - f_equal. apply Z.bits_inj'. intros n Hn. rewrite Z.lor_spec.
    destruct (Z.ltb_spec n 64).
    + rewrite Z.ones_spec_low by lia. apply orb_true_r.
    + rewrite Z.ones_spec_high by lia. rewrite (uint64_high_bits m n Hm) by lia. reflexivity.
  - f_equal. rewrite Z.lxor_0_r. change (Z.ones 64) with allowAllAccess.
    rewrite <- (Z.lxor_0_r allowAllAccess), land_not_bits by assumption.
    apply Z.ldiff_0_r.
  - now rewrite Z.lor_0_r.
Qed.

Lemma ModifyAccess_extremes_witness :
  accessToStr (fst (ModifyAccess ReadWriteAccess "deny" AllAccess)) = "No access".
Proof.
  apply (ModifyAccess_extremes ReadWriteAccess). unfold is_uint64. vm_compute.
  split; [discriminate | reflexivity].
Defined.

Lemma accessOp_named (access : Z) :
  accessOp !! access <> None <-> exists k, In k namedBits /\ access = iota_bit k.
Proof.
  split.
  - intros Hne. destruct (accessOp !! access) as [s|] eqn:Hs; [|congruence].
    unfold accessOp in Hs. apply elem_of_list_to_map_2, list_elem_of_In in Hs.
    simpl in Hs.
    repeat (destruct Hs as [Heq|Hs];
            [injection Heq as <- _;
             match goal with
             | |- exists k, _ /\ ?a = _ =>
                 let a' := eval unfold AccessGET, AccessObjHEAD, AccessPUT, AccessAPPEND,
                   AccessDownload, AccessObjDELETE, AccessObjRENAME, AccessPROMOTE,
                   AccessBckHEAD, AccessObjLIST, AccessBckRENAME, AccessPATCH,
                   AccessMAKENCOPIES, AccessEC, AccessSYNC, AccessBckDELETE,
                   AccessBckCreate, AccessADMIN in a in
                 match a' with
                 | iota_bit ?k => exists k; split; [simpl; tauto | reflexivity]
                 end
             end|]).
    contradiction.
  - intros (k & Hk & ->). unfold namedBits in Hk. simpl in Hk.
    repeat (destruct Hk as [<-|Hk]; [vm_compute; discriminate|]). contradiction.
Qed.

(** No entry of the table reads "<unknown access>". *)
Lemma accessOp_no_unknown (access : Z) : accessOp !! access <> Some "<unknown access>".
Proof.
  intros Hs. unfold accessOp in Hs. apply elem_of_list_to_map_2, list_elem_of_In in Hs.
  simpl in Hs. repeat (destruct Hs as [Heq|Hs]; [discriminate Heq|]). contradiction.
Qed.

(** X5.  [AccessOp] knows exactly the eighteen bits of its table: for a
    value of the table it returns the table's name, for any other value
    "<unknown access>"; so it returns a name (and not "<unknown access>")
    iff the value is a single bit at one of the named positions.  The
    LIST-BUCKETS bit (17) is not one of them. *)
Theorem AccessOp_known_iff (access : Z) :
  (accessOp !! access <> None <-> exists k, In k namedBits /\ access = iota_bit k) /\
  (forall s, accessOp !! access = Some s -> AccessOp access = s) /\
  (accessOp !! access = None -> AccessOp access = "<unknown access>") /\
  (AccessOp access <> "<unknown access>"
   <-> exists k, In k namedBits /\ access = iota_bit k) /\
  accessOp !! AccessBckLIST = None /\
  AccessOp AccessBckLIST = "<unknown access>" /\
  map AccessOp [AccessGET; AccessObjHEAD; AccessPUT; AccessAPPEND; AccessDownload;
                AccessObjDELETE; AccessObjRENAME; AccessPROMOTE; AccessBckHEAD;
                AccessObjLIST; AccessBckRENAME; AccessPATCH; AccessMAKENCOPIES; AccessEC;
                AccessSYNC; AccessBckDELETE; AccessBckCreate; AccessADMIN]
  = ["GET"; "HEAD-OBJECT"; "PUT"; "APPEND"; "DOWNLOAD"; "DELETE-OBJECT"; "RENAME-OBJECT";
     "PROMOTE"; "HEAD-BUCKET"; "LIST-OBJECTS"; "RENAME-BUCKET"; "PATCH"; "MAKE-NCOPIES";
     "EC"; "SYNC-BUCKET"; "DELETE-BUCKET"; "CREATE-BUCKET"; "ADMIN"].
Proof.
  split; [apply accessOp_named|].
  split; [intros s Hs; unfold AccessOp; now rewrite Hs|].
  split; [intros Hnone; unfold AccessOp; now rewrite Hnone|].
  split; [|repeat split].
  rewrite <- accessOp_named. unfold AccessOp.
  pose proof (accessOp_no_unknown access) as Hno.
  destruct (accessOp !! access) as [s|]; split; congruence.
Qed.

End CmnFacts.

(** ** The rebalance status probe *)

Module RebFacts.
Import Cluster Reb.

(** Once the peer's status is in hand, the probe's answer is a function of
    the epoch comparison alone; [r] is the manager after the probes. *)
Lemma checkGlobStatus_decoded w reb tsi desiredStage s :
  decoded w reb tsi s ->
  exists r,
    rebID r = rebID reb /\ xctn_aborted r = xctn_aborted reb /\
    abortBcasts r = abortBcasts reb /\
    checkGlobStatus w reb tsi desiredStage =
      if RebID s >? rebID r then ((Some s, false), abortAndBroadcast r)
      else if RebID s <? rebID r then ((Some s, false), r)
      else if (RebID s =? rebID r) && Aborted s then ((Some s, false), xreb_Abort r)
      else if Stage s >=? desiredStage then ((Some s, true), r)
      else ((Some s, false), r).
Proof.
  intros [[Herr Hdec] | (Herr & Hab & Hsleep & Herr' & Hdec)];
    cbv zeta in *; unfold checkGlobStatus, doHealth.
  - exists (snd (doHealth w reb tsi)).
    rewrite Herr. cbn. rewrite Herr, Hdec. repeat split.
  - exists (snd (doHealth w (snd (doHealth w reb tsi)) tsi)).
    destruct (herr (Health w (healthCalls reb) tsi)) eqn:E1; [|congruence].
    unfold AbortedAfter. cbn. rewrite Hab, Hsleep. cbn. rewrite Herr', Hdec.
    repeat split.
Qed.

(** A peer still in round 6 is waited for: no abort, not ok. *)
Example checkGlobStatus_lagging_peer :
  let '(_, ok, reb') :=
    checkGlobStatus (answering (status_of 6 rebStageTraverse false)) round7
      (node "t2" Target) rebStageTraverse in
  ok = false /\ xctn_aborted reb' = false /\ abortBcasts reb' = 0%nat.
Proof. repeat split. Qed.

(** A peer of the same round that reached the stage: ok. *)
Example checkGlobStatus_in_stage :
  fst (checkGlobStatus (answering (status_of 7 rebStageTraverse false)) round7
         (node "t2" Target) rebStageTraverse)
  = (Some (status_of 7 rebStageTraverse false), true).
Proof. reflexivity. Qed.

(** C1.  Whenever the peer's status has been obtained and decoded and its
    RebID is strictly greater than the local round's, [checkGlobStatus]
    invokes [abortAndBroadcast] -- the local round is aborted and one abort
    broadcast goes out -- and returns not-ok. *)
Theorem checkGlobStatus_newer_peer_aborts_and_broadcasts
    (w : World) (reb : Reb) (tsi : Snode) (desiredStage : Z) (s : Status) :
  decoded w reb tsi s ->
  RebID s > rebID reb ->
  exists r,
    abortBcasts r = abortBcasts reb /\
    checkGlobStatus w reb tsi desiredStage = ((Some s, false), abortAndBroadcast r) /\
    xctn_aborted (abortAndBroadcast r) = true /\
    abortBcasts (abortAndBroadcast r) = S (abortBcasts reb).
Proof.
  intros Hdec Hnewer.
  destruct (checkGlobStatus_decoded w reb tsi desiredStage s Hdec)
    as (r & Hid & _ & Hbc & Heq).
  exists r. rewrite Heq.
  replace (RebID s >? rebID r) with true by (symmetry; apply Z.gtb_lt; lia).
  repeat split; [assumption | cbn; now rewrite Hbc].
Qed.

Lemma checkGlobStatus_newer_peer_aborts_and_broadcasts_witness :
  exists r,
    abortBcasts r = abortBcasts round7 /\
    checkGlobStatus (answering_late (status_of 8 rebStageTraverse false)) round7
      (node "t2" Target) rebStageTraverse
    = ((Some (status_of 8 rebStageTraverse false), false), abortAndBroadcast r) /\
    xctn_aborted (abortAndBroadcast r) = true /\
    abortBcasts (abortAndBroadcast r) = S (abortBcasts round7).
Proof.
  apply checkGlobStatus_newer_peer_aborts_and_broadcasts.
  - right. unfold second_try. simpl. repeat split; try reflexivity. discriminate.
  - simpl. lia.
Defined.

(** C2, as stated, fails: t1 in round 7 learns from t2 that round 8 is
    running; its round ends aborted and one abort broadcast has gone out. *)
Lemma newer_peer_abort_is_broadcast :
  ~ newer_peer_aborts_without_broadcast
      (answering (status_of 8 rebStageTraverse false)) round7
      (node "t2" Target) rebStageTraverse (status_of 8 rebStageTraverse false).
Proof.
  unfold newer_peer_aborts_without_broadcast. intros H.
  assert (Hdec : decoded (answering (status_of 8 rebStageTraverse false)) round7
                   (node "t2" Target) (status_of 8 rebStageTraverse false)).
  { left. split; reflexivity. }
  specialize (H Hdec ltac:(simpl; lia)). destruct H as [_ H].
  vm_compute in H. discriminate.
Qed.

(** C2, amended.  When the peer's status has been obtained and decoded: a
    strictly newer RebID ends the local round aborted with one outgoing
    abort broadcast; the same RebID with the peer's Aborted flag set ends the
    local round aborted with no outgoing abort broadcast; either way the
    probe returns not-ok.  And only then: a round that was not aborted when
    the probe began ends aborted without an outgoing abort broadcast if and
    only if the peer reported the same RebID with its Aborted flag set, and
    it ends aborted at all if and only if the peer reported a newer RebID or
    the same RebID with its Aborted flag set. *)
Theorem checkGlobStatus_abort_broadcast_rule
    (w : World) (reb : Reb) (tsi : Snode) (desiredStage : Z) (s : Status) :
  decoded w reb tsi s ->
  let '(_, ok, reb') := checkGlobStatus w reb tsi desiredStage in
  (RebID s > rebID reb ->
     ok = false /\ xctn_aborted reb' = true /\ abortBcasts reb' = S (abortBcasts reb)) /\
  (RebID s = rebID reb -> Aborted s = true ->
     ok = false /\ xctn_aborted reb' = true /\ abortBcasts reb' = abortBcasts reb) /\
  (xctn_aborted reb = false ->
     (xctn_aborted reb' = true /\ abortBcasts reb' = abortBcasts reb
      <-> RebID s = rebID reb /\ Aborted s = true) /\
     (xctn_aborted reb' = true
      <-> RebID s > rebID reb \/ (RebID s = rebID reb /\ Aborted s = true))).
Proof.
  intros Hdec.
  destruct (checkGlobStatus_decoded w reb tsi desiredStage s Hdec)
    as (r & Hid & Hab & Hbc & ->).
  rewrite Hid.
  destruct (Z.gtb_spec (RebID s) (rebID reb)) as [Hgt|Hle].
  - split; [intros _ | split; [intros Heq; lia|]].
    + cbn. now rewrite Hbc.
    + intros _. cbn. rewrite Hbc. split; split.
      * intros [_ H]. lia.
      * intros [H _]. lia.
      * intros _. left. lia.
      * reflexivity.
  - destruct (Z.ltb_spec (RebID s) (rebID reb)) as [Hlt|Hge].
    + split; [intros; lia | split; [intros; lia|]].
      intros Hna. rewrite Hab, Hna. split; split.
      * intros [H _]. discriminate.
      * intros [H _]. lia.
      * discriminate.
      * intros [H | [H _]]; lia.
    + destruct (Z.eqb_spec (RebID s) (rebID reb)) as [Heq|Hne]; [|lia].
      destruct (Aborted s) eqn:Hpeer; cbn.
      * split; [intros; lia | split; [intros _ _; now rewrite Hbc|]].
        intros _. rewrite Hbc. split; split; auto.
      * assert (Hrest : xctn_aborted reb = false ->
                  (xctn_aborted r = true /\ abortBcasts r = abortBcasts reb
                   <-> RebID s = rebID reb /\ false = true) /\
                  (xctn_aborted r = true
                   <-> RebID s > rebID reb \/ (RebID s = rebID reb /\ false = true))).
        { intros Hna. rewrite Hab, Hna. split; split.
          - intros [H _]. discriminate.
          - intros [_ H]. discriminate.
          - discriminate.
          - intros [H | [_ H]]; [lia | discriminate]. }
        destruct (Stage s >=? desiredStage);
          (split; [intros; lia | split; [intros; discriminate | exact Hrest]]).
Qed.

Lemma checkGlobStatus_abort_broadcast_rule_witness :
  let '(_, ok, reb') :=
    checkGlobStatus (answering (status_of 7 rebStageTraverse true)) round7
      (node "t2" Target) rebStageTraverse in
  (7 > rebID round7 ->
     ok = false /\ xctn_aborted reb' = true /\ abortBcasts reb' = S (abortBcasts round7)) /\
  (7 = rebID round7 -> true = true ->
     ok = false /\ xctn_aborted reb' = true /\ abortBcasts reb' = abortBcasts round7) /\
  (xctn_aborted round7 = false ->
     (xctn_aborted reb' = true /\ abortBcasts reb' = abortBcasts round7
      <-> 7 = rebID round7 /\ true = true) /\
     (xctn_aborted reb' = true
      <-> 7 > rebID round7 \/ (7 = rebID round7 /\ true = true))).
Proof.
  apply (checkGlobStatus_abort_broadcast_rule
           (answering (status_of 7 rebStageTraverse true)) round7
           (node "t2" Target) rebStageTraverse (status_of 7 rebStageTraverse true)).
  left. split; reflexivity.
Defined.

(** *** More on the probe *)

Ltac probe_done :=
  cbn; repeat split; intros; auto; try discriminate; try congruence.

(** What the probe leaves alone, whatever the peer answers. *)
Lemma checkGlobStatus_frame w reb tsi desiredStage :
  let '(status, ok, reb') := checkGlobStatus w reb tsi desiredStage in
  t_SID reb' = t_SID reb /\ rebID reb' = rebID reb /\
  (healthCalls reb' = S (healthCalls reb) \/ healthCalls reb' = S (S (healthCalls reb))) /\
  (xctn_aborted reb = true -> xctn_aborted reb' = true) /\
  (abortBcasts reb' = abortBcasts reb \/
   abortBcasts reb' = S (abortBcasts reb) /\ xctn_aborted reb' = true) /\
  (status = None -> ok = false /\ xctn_aborted reb' = true) /\
  (ok = true -> xctn_aborted reb' = xctn_aborted reb /\ abortBcasts reb' = abortBcasts reb).
Proof.
  unfold checkGlobStatus, doHealth, AbortedAfter.
  destruct (herr (Health w (healthCalls reb) tsi)) eqn:E1; cbn.
  - destruct (xctn_aborted reb || abortsWhileAsleep w (S (healthCalls reb))) eqn:Eab; cbn.
    + probe_done.
    + apply orb_false_elim in Eab as [Eab _].
      destruct (herr (Health w (S (healthCalls reb)) tsi)) eqn:E2; cbn.
      * probe_done.
      * destruct (Unmarshal w _) as [s [e'|]]; cbn.
        -- probe_done.
        -- destruct (RebID s >? rebID reb); [|destruct (RebID s <? rebID reb);
             [|destruct ((RebID s =? rebID reb) && Aborted s);
               [|destruct (Stage s >=? desiredStage)]]]; probe_done.
  - rewrite E1. destruct (Unmarshal w _) as [s [e|]]; cbn.
    + probe_done.
    + destruct (RebID s >? rebID reb); [|destruct (RebID s <? rebID reb);
        [|destruct ((RebID s =? rebID reb) && Aborted s);
          [|destruct (Stage s >=? desiredStage)]]]; probe_done.
Qed.

(** X6.  What [checkGlobStatus] never does: it never changes the round's ID,
    issues one or two probes, never un-aborts a round, sends at most one
    abort broadcast (and then the round is aborted); it returns no status
    only with the round aborted, and ok only with the round untouched. *)
Theorem checkGlobStatus_invariants
    (w : World) (reb : Reb) (tsi : Snode) (desiredStage : Z) :
  let '(status, ok, reb') := checkGlobStatus w reb tsi desiredStage in
  t_SID reb' = t_SID reb /\ rebID reb' = rebID reb /\
  (healthCalls reb' = S (healthCalls reb) \/ healthCalls reb' = S (S (healthCalls reb))) /\
  (xctn_aborted reb = true -> xctn_aborted reb' = true) /\
  (abortBcasts reb' = abortBcasts reb \/
   abortBcasts reb' = S (abortBcasts reb) /\ xctn_aborted reb' = true) /\
  (status = None -> ok = false /\ xctn_aborted reb' = true) /\
  (ok = true -> xctn_aborted reb' = xctn_aborted reb /\ abortBcasts reb' = abortBcasts reb).
Proof. apply checkGlobStatus_frame. Qed.

(** The probe answers ok exactly for a decoded status of the same round that
    is not aborted and has reached the stage. *)
Lemma checkGlobStatus_ok_iff w reb tsi desiredStage :
  snd (fst (checkGlobStatus w reb tsi desiredStage)) = true <->
  exists s, decoded w reb tsi s /\ RebID s = rebID reb /\ Aborted s = false /\
            Stage s >= desiredStage.
Proof.
  split.
  - unfold checkGlobStatus, doHealth, AbortedAfter, decoded, first_try, second_try.
    destruct (herr (Health w (healthCalls reb) tsi)) eqn:E1; cbn.
    + destruct (xctn_aborted reb) eqn:Eab; cbn; [discriminate|].
      destruct (abortsWhileAsleep w (S (healthCalls reb))) eqn:Esl; cbn; [discriminate|].
      destruct (herr (Health w (S (healthCalls reb)) tsi)) eqn:E2; cbn; [discriminate|].
      destruct (Unmarshal w _) as [s [e'|]] eqn:Eu; cbn; [discriminate|].
      destruct (Z.gtb_spec (RebID s) (rebID reb)); cbn; [discriminate|].
      destruct (Z.ltb_spec (RebID s) (rebID reb)); cbn; [discriminate|].
      destruct (Z.eqb_spec (RebID s) (rebID reb)); [|lia].
      destruct (Aborted s) eqn:Ea; cbn; [discriminate|].
      destruct (Z.geb_spec (Stage s) desiredStage); cbn; [|discriminate].
      intros _. exists s. split; [right; repeat split; congruence|].
      repeat split; (assumption || lia).
    + rewrite E1. destruct (Unmarshal w _) as [s [e'|]] eqn:Eu; cbn; [discriminate|].
      destruct (Z.gtb_spec (RebID s) (rebID reb)); cbn; [discriminate|].
      destruct (Z.ltb_spec (RebID s) (rebID reb)); cbn; [discriminate|].
      destruct (Z.eqb_spec (RebID s) (rebID reb)); [|lia].
      destruct (Aborted s) eqn:Ea; cbn; [discriminate|].
      destruct (Z.geb_spec (Stage s) desiredStage); cbn; [|discriminate].
      intros _. exists s. split; [left; split; congruence|].
      repeat split; (assumption || lia).
  - intros (s & Hdec & Hid & Hab & Hst).
    destruct (checkGlobStatus_decoded w reb tsi desiredStage s Hdec)
      as (r & Hr & _ & _ & ->).
    rewrite Hr, Hid, Hab.
    rewrite Z.gtb_ltb, Z.ltb_irrefl, Z.eqb_refl. cbn.
    destruct (Z.geb_spec (Stage s) desiredStage); [reflexivity | lia].
Qed.

(** X7.  [checkGlobStatus] returns ok if and only if the peer's status was
    obtained (first probe, or the one retry) and decoded, it is of the same
    round (equal RebID), the peer has not aborted, and its stage is at least
    the desired one. *)
Theorem checkGlobStatus_ok_exactly
    (w : World) (reb : Reb) (tsi : Snode) (desiredStage : Z) :
  snd (fst (checkGlobStatus w reb tsi desiredStage)) = true <->
  exists s, decoded w reb tsi s /\ RebID s = rebID reb /\ Aborted s = false /\
            Stage s >= desiredStage.
Proof. apply checkGlobStatus_ok_iff. Qed.



(** *** The callbacks *)

Lemma same_round_refl r : same_round r r.
Proof. now unfold same_round. Qed.

Lemma pingAttempts_spec w o tsi ver k :
  forall reb,
    let '(ok, reb') := pingAttempts w o reb tsi ver k in
    same_round reb reb' /\
    (healthCalls reb <= healthCalls reb' <= healthCalls reb + k)%nat /\
    (ok = true <->
     exists i, (i < k)%nat /\ answered w tsi (healthCalls reb + i) /\
               forall j, (j < i)%nat -> retriable w o tsi ver (healthCalls reb + j)).
Proof.
  induction k as [|k IH]; intros reb.
  - cbn. split; [apply same_round_refl|]. split; [lia|].
    split; [discriminate | intros (i & Hi & _); lia].
  - cbn [pingAttempts]. unfold doHealth.
    destruct (herr (Health w (healthCalls reb) tsi)) as [e|] eqn:E1.
    + destruct (IsUnreachable o e (code (Health w (healthCalls reb) tsi))) eqn:Eun; cbn.
      * destruct (Z.gtb_spec (smapVersion o (S (healthCalls reb))) ver) as [Hgt|Hle].
        -- split; [now unfold same_round|]. split; [cbn; lia|].
           split; [discriminate|]. intros (i & Hi & Hans & Hret).
           destruct i as [|i].
           ++ unfold answered in Hans. rewrite Nat.add_0_r in Hans. congruence.
           ++ destruct (Hret 0%nat ltac:(lia)) as (e' & _ & _ & Hv).
              rewrite Nat.add_0_r in Hv. lia.
        -- specialize (IH {| t_SID := t_SID reb; rebID := rebID reb;
                            xctn_aborted := xctn_aborted reb;
                            abortBcasts := abortBcasts reb;
                            healthCalls := S (healthCalls reb) |}).
           destruct (pingAttempts w o _ tsi ver k) as [ok reb'].
           cbn in IH. destruct IH as (Hsame & Hcalls & Hok).
           split; [exact Hsame|]. split; [lia|].
           rewrite Hok. split.
           ++ intros (i & Hi & Hans & Hret). exists (S i). split; [lia|].
              split; [now rewrite Nat.add_succ_r|].
              intros [|j] Hj.
              ** rewrite Nat.add_0_r. exists e. auto.
              ** rewrite Nat.add_succ_r. apply Hret. lia.
           ++ intros (i & Hi & Hans & Hret). destruct i as [|i].
              ** unfold answered in Hans. rewrite Nat.add_0_r in Hans. congruence.
              ** exists i. split; [lia|]. split.
                 --- now rewrite Nat.add_succ_r in Hans.
                 --- intros j Hj. specialize (Hret (S j) ltac:(lia)).
                     now rewrite Nat.add_succ_r in Hret.
      * split; [now unfold same_round|]. split; [cbn; lia|].
        split; [discriminate|]. intros (i & Hi & Hans & Hret).
        destruct i as [|i].
        -- unfold answered in Hans. rewrite Nat.add_0_r in Hans. congruence.
        -- destruct (Hret 0%nat ltac:(lia)) as (e' & He' & Hu & _).
           rewrite Nat.add_0_r in He', Hu. congruence.
    + split; [now unfold same_round|]. split; [cbn; lia|].
      split; [intros _|reflexivity].
      exists 0%nat. split; [lia|]. split.
      * unfold answered. now rewrite Nat.add_0_r.
      * intros j Hj. lia.
Qed.

(** X9.  [pingTarget] makes at most four probes and touches nothing else of
    the round; it reports the target online exactly when one of these
    probes is answered and every probe before it failed as "unreachable"
    with no newer Smap version showing up after the sleep that follows. *)
Theorem pingTarget_online_exactly
    (w : World) (o : Outside) (reb : Reb) (tsi : Snode) (md : rebArgs) :
  let '(ok, reb') := pingTarget w o reb tsi md in
  same_round reb reb' /\
  (healthCalls reb <= healthCalls reb' <= healthCalls reb + 4)%nat /\
  (ok = true <->
   exists i, (i < 4)%nat /\ answered w tsi (healthCalls reb + i) /\
             forall j, (j < i)%nat ->
                       retriable w o tsi (Version (md_smap md)) (healthCalls reb + j)).
Proof. unfold pingTarget. apply pingAttempts_spec. Qed.

(** A round of [rxReady] that goes on to the next has left the round as it
    was. *)
Lemma rxReadyFrom_true w o tsi sleep maxwt fuel :
  forall curwt reb reb',
    rxReadyFrom w o tsi sleep maxwt fuel curwt reb = Some (true, reb') ->
    xctn_aborted reb' = xctn_aborted reb /\ abortBcasts reb' = abortBcasts reb /\
    rebID reb' = rebID reb.
Proof.
  induction fuel as [|fuel IH]; intros curwt reb reb'; cbn [rxReadyFrom].
  - destruct (curwt <? maxwt); discriminate.
  - destruct (curwt <? maxwt); [|discriminate].
    destruct (isInStage o (healthCalls reb) tsi (stageTraverse o)).
    + intros [= <-]. auto.
    + pose proof (checkGlobStatus_frame w reb tsi (stageTraverse o)) as Hf.
      destruct (checkGlobStatus w reb tsi (stageTraverse o)) as [[status ok] r1].
      destruct Hf as (_ & Hid & _ & Hmono & Hbc & _ & Hok).
      destruct ok.
      * intros [= <-]. destruct (Hok eq_refl). auto.
      * unfold AbortedAfter.
        destruct (xctn_aborted r1) eqn:Eab; cbn; [discriminate|].
        destruct (abortsWhileAsleep w (healthCalls r1)); cbn; [discriminate|].
        intros Hrec. apply IH in Hrec as (Ha & Hb & Hi).
        destruct (xctn_aborted reb) eqn:Eab0; [specialize (Hmono eq_refl); congruence|].
        destruct Hbc as [Hbc|[_ Hbc]]; [|congruence].
        repeat split; congruence.
Qed.

Lemma wrap64_id z : - 2 ^ 63 <= z < 2 ^ 63 -> wrap64 z = z.
Proof. intros H. unfold wrap64. rewrite Z.mod_small; lia. Qed.

Lemma rxReadyFrom_returns w o tsi sleep maxwt fuel :
  0 < sleep -> maxwt + sleep < 2 ^ 63 ->
  forall curwt reb,
    0 <= curwt ->
    maxwt - curwt <= Z.of_nat fuel * sleep ->
    rxReadyFrom w o tsi sleep maxwt fuel curwt reb <> None.
Proof.
  intros Hs Hmax. induction fuel as [|fuel IH]; intros curwt reb Hcur Hfuel;
    cbn [rxReadyFrom].
  - destruct (Z.ltb_spec curwt maxwt); [lia | discriminate].
  - destruct (Z.ltb_spec curwt maxwt); [|discriminate].
    destruct (isInStage o (healthCalls reb) tsi (stageTraverse o)); [discriminate|].
    destruct (checkGlobStatus w reb tsi (stageTraverse o)) as [[status ok] r1].
    destruct ok; [discriminate|].
    destruct (AbortedAfter w r1) as [[e|] r2]; [discriminate|].
    rewrite wrap64_id by lia. apply IH; lia.
Qed.

Lemma enough_suffices maxwt step fuel :
  0 < step -> (enough maxwt step <= fuel)%nat -> maxwt <= Z.of_nat fuel * step.
Proof.
  intros Hs Hf. unfold enough in Hf.
  destruct (Z.le_gt_cases maxwt 0) as [Hneg|Hpos]; [nia|].
  assert (Hdiv : maxwt / step + 1 <= Z.of_nat fuel).
  { pose proof (Z.div_pos maxwt step ltac:(lia) Hs). lia. }
  pose proof (Z.mod_pos_bound maxwt step Hs).
  pose proof (Z.div_mod maxwt step ltac:(lia)). nia.
Qed.

(** X10.  [rxReady] gives up in time: with a positive control-plane timeout
    and durations whose sums do not overflow an int64, its loop returns
    within [maxwt / sleep + 1] rounds, where [sleep = 2 * CplaneOperation]
    and [maxwt = 1.5 * DestRetryTime]. *)
Theorem rxReady_returns
    (w : World) (o : Outside) (reb : Reb) (tsi : Snode) (md : rebArgs) (fuel : nat) :
  let sleep := CplaneOperation md * 2 in
  let maxwt := DestRetryTime md + Z.quot (DestRetryTime md) 2 in
  0 < CplaneOperation md ->
  0 <= DestRetryTime md ->
  maxwt + sleep < 2 ^ 63 ->
  (enough maxwt sleep <= fuel)%nat ->
  exists ok reb', rxReady w o reb tsi md fuel = Some (ok, reb').
Proof.
  intros sleep maxwt Hc Hd Hmax Hfuel.
  assert (Hq : 0 <= Z.quot (DestRetryTime md) 2) by (apply Z.quot_pos; lia).
  pose proof (rxReadyFrom_returns w o tsi sleep maxwt fuel ltac:(subst sleep; lia) Hmax
                0 reb ltac:(lia)) as H.
  unfold rxReady. cbv zeta. fold sleep. fold maxwt.
  rewrite (wrap64_id sleep), (wrap64_id maxwt) by (subst sleep maxwt; lia).
  destruct (rxReadyFrom _ _ _ _ _ fuel 0 reb) as [[ok reb']|]; [eauto|].
  exfalso. apply H; [|reflexivity].
  rewrite Z.sub_0_r. apply enough_suffices; [subst sleep; lia | assumption].
Qed.

Lemma rxReady_returns_witness :
  exists ok reb',
    rxReady (answering (status_of 7 1 false)) quiet_outside round7 (node "t2" Target) md1 8
    = Some (ok, reb').
Proof.
  apply rxReady_returns; [reflexivity | vm_compute; discriminate | reflexivity
                         | vm_compute; lia].
Defined.

(** X11.  [rxReady] reports ready only from a round it has not touched: when
    it returns true, the round is neither aborted nor announced aborted by
    this wait (flag, broadcast count and RebID are as on entry); and a
    pushed stage notification is honoured at once, without probing. *)
Theorem rxReady_true_untouched
    (w : World) (o : Outside) (reb : Reb) (tsi : Snode) (md : rebArgs) (fuel : nat) :
  (forall reb', rxReady w o reb tsi md fuel = Some (true, reb') ->
     xctn_aborted reb' = xctn_aborted reb /\ abortBcasts reb' = abortBcasts reb /\
     rebID reb' = rebID reb) /\
  (isInStage o (healthCalls reb) tsi (stageTraverse o) = true ->
   0 < DestRetryTime md ->
   DestRetryTime md + Z.quot (DestRetryTime md) 2 < 2 ^ 63 ->
   rxReady w o reb tsi md (S fuel) = Some (true, reb)).
Proof.
  split.
  - intros reb'. unfold rxReady. cbv zeta. apply rxReadyFrom_true.
  - intros Hpush Hd Hmax. unfold rxReady. cbv zeta. cbn [rxReadyFrom].
    assert (Hq : 0 <= Z.quot (DestRetryTime md) 2) by (apply Z.quot_pos; lia).
    rewrite (wrap64_id (DestRetryTime md + _)) by lia.
    destruct (Z.ltb_spec 0 (DestRetryTime md + Z.quot (DestRetryTime md) 2)); [|lia].
    now rewrite Hpush.
Qed.

(** [waitFinExtended] never finds the probe's status missing. *)
Lemma waitFinFrom_no_nil w o tsi sleep maxwt sleepRetry fuel :
  forall curwt reb reb',
    waitFinFrom w o tsi sleep maxwt sleepRetry fuel curwt reb <> Some (NilStatus, reb').
Proof.
  induction fuel as [|fuel IH]; intros curwt reb reb'; cbn [waitFinFrom].
  - destruct (curwt <? maxwt); discriminate.
  - destruct (curwt <? maxwt); [|discriminate].
    destruct (AbortedAfter w reb) as [[e|] r0]; [discriminate|].
    destruct (isInStage o (healthCalls r0) tsi (stageFin o)); [discriminate|].
    pose proof (checkGlobStatus_frame w r0 tsi (stageFin o)) as Hf.
    destruct (checkGlobStatus w r0 tsi (stageFin o)) as [[status ok] r1].
    destruct Hf as (_ & _ & _ & _ & _ & Hnil & _).
    destruct ok; [discriminate|].
    unfold AbortErr. destruct (xctn_aborted r1) eqn:Eab; [discriminate|].
    destruct status as [status|].
    + destruct (negb (waitsFor status (t_SID r1))); [discriminate|]. apply IH.
    + destruct (Hnil eq_refl). congruence.
Qed.

Lemma waitFinFrom_returns w o tsi sleep maxwt sleepRetry fuel :
  0 < sleep -> 0 <= sleepRetry -> maxwt + sleep + sleepRetry < 2 ^ 63 ->
  forall curwt reb,
    0 <= curwt ->
    maxwt - curwt <= Z.of_nat fuel * sleep ->
    waitFinFrom w o tsi sleep maxwt sleepRetry fuel curwt reb <> None.
Proof.
  intros Hs Hr Hmax. induction fuel as [|fuel IH]; intros curwt reb Hcur Hfuel;
    cbn [waitFinFrom].
  - destruct (Z.ltb_spec curwt maxwt); [lia | discriminate].
  - destruct (Z.ltb_spec curwt maxwt); [|discriminate].
    destruct (AbortedAfter w reb) as [[e|] r0]; [discriminate|].
    destruct (isInStage o (healthCalls r0) tsi (stageFin o)); [discriminate|].
    destruct (checkGlobStatus w r0 tsi (stageFin o)) as [[status ok] r1].
    destruct ok; [discriminate|].
    destruct (AbortErr r1); [discriminate|].
    destruct status as [status|]; [|discriminate].
    destruct (negb (waitsFor status (t_SID r1))); [discriminate|].
    rewrite (wrap64_id (curwt + sleep)) by lia.
    rewrite wrap64_id by lia. apply IH; lia.
Qed.

(** X12.  [waitFinExtended] always finds a status to inspect and gives up in
    time: it never dereferences a nil status (a probe that yields none has
    aborted the round, and the abort check comes first), and with a positive
    control-plane timeout, a non-negative retry sleep and durations whose
    sum does not overflow an int64, its loop returns within
    [DestRetryTime / CplaneOperation + 1] rounds. *)
Theorem waitFinExtended_returns
    (w : World) (o : Outside) (reb : Reb) (tsi : Snode) (md : rebArgs) (fuel : nat) :
  0 < CplaneOperation md -> 0 <= KeepaliveRetryDuration md ->
  DestRetryTime md + CplaneOperation md + KeepaliveRetryDuration md < 2 ^ 63 ->
  (enough (DestRetryTime md) (CplaneOperation md) <= fuel)%nat ->
  exists ok reb', waitFinExtended w o reb tsi md fuel = Some (Returns ok, reb').
Proof.
  intros Hc Hr Hmax Hfuel. unfold waitFinExtended. cbv zeta.
  pose proof (waitFinFrom_returns w o tsi (CplaneOperation md) (DestRetryTime md)
                (KeepaliveRetryDuration md) fuel Hc Hr Hmax 0 reb ltac:(lia)) as Hret.
  pose proof (waitFinFrom_no_nil w o tsi (CplaneOperation md) (DestRetryTime md)
                (KeepaliveRetryDuration md) fuel 0 reb) as Hnil.
  destruct (waitFinFrom _ _ _ _ _ _ fuel 0 reb) as [[[ok|] reb']|].
  - eauto.
  - now elim (Hnil reb').
  - exfalso. apply Hret; [|reflexivity].
    rewrite Z.sub_0_r. apply enough_suffices; assumption.
Qed.

Lemma waitFinExtended_returns_witness :
  exists ok reb',
    waitFinExtended (answering (status_of 7 4 false)) quiet_outside round7
      (node "t2" Target) md1 11 = Some (Returns ok, reb').
Proof.
  apply waitFinExtended_returns;
    [reflexivity | vm_compute; discriminate | reflexivity | vm_compute; lia].
Defined.

(** As [checkGlobStatus_decoded], with the whole of the round in view. *)
Lemma checkGlobStatus_decoded_round w reb tsi desiredStage s :
  decoded w reb tsi s ->
  exists r,
    same_round reb r /\
    checkGlobStatus w reb tsi desiredStage =
      if RebID s >? rebID r then ((Some s, false), abortAndBroadcast r)
      else if RebID s <? rebID r then ((Some s, false), r)
      else if (RebID s =? rebID r) && Aborted s then ((Some s, false), xreb_Abort r)
      else if Stage s >=? desiredStage then ((Some s, true), r)
      else ((Some s, false), r).
Proof.
  intros [[Herr Hdec] | (Herr & Hab & Hsleep & Herr' & Hdec)];
    cbv zeta in *; unfold checkGlobStatus, doHealth.
  - exists (snd (doHealth w reb tsi)).
    rewrite Herr. cbn. rewrite Herr, Hdec. now unfold same_round.
  - exists (snd (doHealth w (snd (doHealth w reb tsi)) tsi)).
    destruct (herr (Health w (healthCalls reb) tsi)) eqn:E1; [|congruence].
    unfold AbortedAfter. cbn. rewrite Hab, Hsleep. cbn. rewrite Herr', Hdec.
    now unfold same_round.
Qed.

(** X13.  A peer that is not waiting for my ACKs counts as finished: when
    the wait is not aborted, no Fin notification has been pushed, and the
    probe yields a decoded status that is either of an older round, or of
    this round, not aborted and short of the Fin stage, then
    [waitFinExtended] returns true in its first round provided my ID is not
    among the status's [Targets]; the round is left as it was. *)
Theorem waitFinExtended_not_waiting_for_me
    (w : World) (o : Outside) (reb : Reb) (tsi : Snode) (md : rebArgs) (fuel : nat)
    (s : Status) :
  0 < DestRetryTime md ->
  xctn_aborted reb = false ->
  abortsWhileAsleep w (healthCalls reb) = false ->
  isInStage o (healthCalls reb) tsi (stageFin o) = false ->
  decoded w reb tsi s ->
  RebID s < rebID reb \/
    (RebID s = rebID reb /\ Aborted s = false /\ Stage s < stageFin o) ->
  waitsFor s (t_SID reb) = false ->
  exists reb',
    waitFinExtended w o reb tsi md (S fuel) = Some (Returns true, reb') /\
    same_round reb reb'.
Proof.
  intros Hmax Hab Hsl Hpush Hdec Hstat Hw4.
  unfold waitFinExtended. cbv zeta. cbn [waitFinFrom].
  destruct (Z.ltb_spec 0 (DestRetryTime md)); [|lia].
  unfold AbortedAfter. rewrite Hab, Hsl. cbn -[checkGlobStatus]. rewrite Hpush.
  destruct (checkGlobStatus_decoded_round w reb tsi (stageFin o) s Hdec)
    as (r & (Hsid & Hid & Habr & Hbc) & ->).
  exists r. split; [|now unfold same_round].
  assert (Hnot : (if RebID s >? rebID r then (Some s, false, abortAndBroadcast r)
                  else if RebID s <? rebID r then (Some s, false, r)
                  else if (RebID s =? rebID r) && Aborted s then (Some s, false, xreb_Abort r)
                  else if Stage s >=? stageFin o then (Some s, true, r)
                  else (Some s, false, r)) = (Some s, false, r)).
  { rewrite Hid. destruct Hstat as [Hlt|(Heq & Ha & Hst)].
    - destruct (Z.gtb_spec (RebID s) (rebID reb)); [lia|].
      destruct (Z.ltb_spec (RebID s) (rebID reb)); [reflexivity|lia].
    - rewrite Heq, Z.gtb_ltb, Z.ltb_irrefl, Z.eqb_refl, Ha. cbn.
      destruct (Z.geb_spec (Stage s) (stageFin o)); [lia|reflexivity]. }
  rewrite Hnot. unfold AbortErr. rewrite Habr, Hab, Hsid, Hw4. reflexivity.
Qed.

Lemma waitFinExtended_not_waiting_for_me_witness :
  exists reb',
    waitFinExtended (answering (status_of 7 4 false)) quiet_outside round7
      (node "t2" Target) md1 1 = Some (Returns true, reb') /\
    same_round round7 reb'.
Proof.
  apply (waitFinExtended_not_waiting_for_me (answering (status_of 7 4 false)) quiet_outside
           round7 (node "t2" Target) md1 0 (status_of 7 4 false));
    try reflexivity.
  - left. split; reflexivity.
  - right. repeat split; reflexivity.
Defined.

End RebFacts.

(** ** Directory promote with a shared file system *)

Module XsFacts.
Import Cluster Xs.
Local Open Scope nat_scope.

Lemma app_one_neq {A} (l : list A) (x : A) : l ++ [x] <> l.
Proof.
  intros H. apply (f_equal (@length A)) in H. rewrite length_app in H. simpl in H. lia.
Qed.

(** Counting the members of a duplicate-free list that equal [x]. *)
Lemma sum_indicator (l : list string) (x : string) :
  NoDup l ->
  sum_list (map (fun y => if decide (y = x) then 1 else 0) l)
  = if decide (x ∈ l) then 1 else 0.
Proof.
  induction 1 as [|y l Hy Hnd IH].
  - reflexivity.
  - cbn [map sum_list]. rewrite IH. destruct (decide (y = x)) as [->|Hne].
    + rewrite (decide_True (P := x ∈ x :: l)) by left.
      now rewrite (decide_False (P := x ∈ l)).
    + destruct (decide (x ∈ l)) as [Hin|Hnin].
      * rewrite decide_True; [reflexivity | now right].
      * rewrite decide_False; [reflexivity|].
        intros Hin. apply elem_of_cons in Hin as [->|Hin]; contradiction.
Qed.

(** What the walk of a regular file does under file-share, by the outcome of
    the name rule and of the locator. *)
Lemma walk_fshare D r fqn de promoted :
  confirmedFshare r = true -> IsDir de = false ->
  let params objName :=
    {| Bck := bck r;
       Args := {| SrcFQN := fqn; ObjName := objName; Recursive := false;
                  OverwriteDst := OverwriteDst (args r);
                  DeleteSrc := DeleteSrc (args r) |} |} in
  walk D r fqn de promoted =
    match PromotedObjDstName D fqn (SrcFQN (args r)) (ObjName (args r)) with
    | (_, Some e) => (Some e, promoted)
    | (objName, None) =>
        match HrwName2T D (smap r) (MakeUname D (bck r) objName) with
        | inl e => (Some e, promoted)
        | inr si =>
            if String.eqb (ID si) (T_SID r)
            then (if IsNotExist D (Promote D (T_SID r) (params objName)) then None
                  else Promote D (T_SID r) (params objName),
                  promoted ++ [params objName])
            else (None, promoted)
        end
    end.
Proof.
  intros Hfs Hde. unfold walk. rewrite Hfs, Hde.
  destruct (PromotedObjDstName _ _ _ _) as [objName [e|]]; [reflexivity|].
  destruct (HrwName2T _ _ _) as [e|si]; [reflexivity|].
  now destruct (String.eqb (ID si) (T_SID r)).
Qed.

(** With the owner known, each target's number of [Promote] calls. *)
Lemma promotions_owner D r fqn de objName si sid :
  confirmedFshare r = true -> IsDir de = false ->
  PromotedObjDstName D fqn (SrcFQN (args r)) (ObjName (args r)) = (objName, None) ->
  HrwName2T D (smap r) (MakeUname D (bck r) objName) = inr si ->
  promotions D r fqn de sid = if decide (sid = ID si) then 1 else 0.
Proof.
  intros Hfs Hde Hn Ho. unfold promotions.
  rewrite (walk_fshare D (on_target r sid) fqn de [] Hfs Hde).
  cbn [on_target args smap bck T_SID]. rewrite Hn, Ho.
  destruct (String.eqb_spec (ID si) sid) as [<-|Hne]; simpl.
  - now rewrite decide_True.
  - rewrite decide_False; [reflexivity | congruence].
Qed.

(** C6.  During a directory-promote walk with file-share confirmed, for a
    regular file: the target calls [Promote] (once) if and only if the object
    name is computed and the HRW locator over the target's cluster map
    resolves it to this very target; a file owned by another target is
    skipped with no error; hence, when the owner is a target of the shared
    cluster map, the owner promotes the file once, every other target not at
    all, and the file is promoted exactly once cluster-wide. *)
Theorem walk_fshare_promotes_iff_owner
    (D : Deps) (r : XactDirPromote) (fqn : string) (de : DirEntry)
    (promoted : list PromoteParams) :
  confirmedFshare r = true -> IsDir de = false ->
  let name := PromotedObjDstName D fqn (SrcFQN (args r)) (ObjName (args r)) in
  let owner objName := HrwName2T D (smap r) (MakeUname D (bck r) objName) in
  ((exists params, snd (walk D r fqn de promoted) = promoted ++ [params]) <->
   (exists objName si,
      name = (objName, None) /\ owner objName = inr si /\ ID si = T_SID r)) /\
  (snd (walk D r fqn de promoted) = promoted \/
   exists params, snd (walk D r fqn de promoted) = promoted ++ [params]) /\
  (forall objName si,
      name = (objName, None) -> owner objName = inr si -> ID si <> T_SID r ->
      walk D r fqn de promoted = (None, promoted)) /\
  (forall objName si,
      name = (objName, None) -> owner objName = inr si ->
      GetTarget (smap r) (ID si) = Some si ->
      (forall sid, promotions D r fqn de sid = if decide (sid = ID si) then 1 else 0) /\
      cluster_promotions D r fqn de = 1).
Proof.
  intros Hfs Hde name owner.
  pose proof (walk_fshare D r fqn de promoted Hfs Hde) as Hw. cbv zeta in Hw.
  fold name in Hw.
  split; [split|split; [|split; [|intros objName si Hn Ho Htgt; split]]].
  - intros [params Hp]. rewrite Hw in Hp.
    destruct name as [objName [e|]] eqn:Hn; simpl in Hp;
      [now apply eq_sym, app_one_neq in Hp|].
    fold (owner objName) in Hp.
    destruct (owner objName) as [e|si] eqn:Ho; simpl in Hp;
      [now apply eq_sym, app_one_neq in Hp|].
    destruct (String.eqb_spec (ID si) (T_SID r)) as [Heq|Hne]; simpl in Hp;
      [|now apply eq_sym, app_one_neq in Hp].
    now exists objName, si.
  - intros (objName & si & Hn & Ho & Hid). rewrite Hw, Hn.
    fold (owner objName). rewrite Ho, Hid, String.eqb_refl. simpl. eauto.
  - rewrite Hw. destruct name as [objName [e|]]; [now left|].
    destruct (HrwName2T _ _ _) as [e|si]; [now left|].
    destruct (String.eqb (ID si) (T_SID r)); simpl; eauto.
  - intros objName si Hn Ho Hne. rewrite Hw, Hn. fold (owner objName). rewrite Ho.
    now destruct (String.eqb_spec (ID si) (T_SID r)).
  - intros sid. now apply (promotions_owner D r fqn de objName).
  - unfold cluster_promotions, targets_of.
    rewrite (map_ext _ (fun y => if decide (y = ID si) then 1 else 0))
      by (intros sid; now apply (promotions_owner D r fqn de objName)).
    rewrite sum_indicator by apply NoDup_elements.
    rewrite decide_True; [reflexivity|].
    apply elem_of_elements, elem_of_dom. unfold GetTarget in Htgt. now rewrite Htgt.
Qed.

Lemma walk_fshare_promotes_iff_owner_witness :
  snd (walk ingest (promote_on "t1") "/srv/ingest/a" {| IsDir := false |} []) = [] /\
  length (snd (walk ingest (promote_on "t2") "/srv/ingest/a" {| IsDir := false |} [])) = 1 /\
  cluster_promotions ingest (promote_on "t1") "/srv/ingest/a" {| IsDir := false |} = 1.
Proof.
  pose proof (walk_fshare_promotes_iff_owner ingest (promote_on "t1") "/srv/ingest/a"
                {| IsDir := false |} [] eq_refl eq_refl) as H.
  cbv zeta in H. destruct H as (_ & _ & Hskip & Hone).
  split; [|split].
  - rewrite (Hskip "/srv/ingest/a" (target "t2")); [reflexivity..|].
    vm_compute. discriminate.
  - reflexivity.
  - apply (Hone "/srv/ingest/a" (target "t2")); reflexivity.
Defined.

(** *** Without file share, and whole directories *)

Lemma sum_list_cons (x : nat) (l : list nat) : sum_list (x :: l) = x + sum_list l.
Proof. reflexivity. Qed.

(** What the walk of a regular file does without file share. *)
Lemma walk_no_fshare D r fqn de promoted :
  confirmedFshare r = false -> IsDir de = false ->
  let params objName :=
    {| Bck := bck r;
       Args := {| SrcFQN := fqn; ObjName := objName; Recursive := false;
                  OverwriteDst := OverwriteDst (args r);
                  DeleteSrc := DeleteSrc (args r) |} |} in
  walk D r fqn de promoted =
    match PromotedObjDstName D fqn (SrcFQN (args r)) (ObjName (args r)) with
    | (_, Some e) => (Some e, promoted)
    | (objName, None) =>
        (if IsNotExist D (Promote D (T_SID r) (params objName)) then None
         else Promote D (T_SID r) (params objName),
         promoted ++ [params objName])
    end.
Proof.
  intros Hfs Hde. unfold walk. rewrite Hfs, Hde.
  now destruct (PromotedObjDstName _ _ _ _) as [objName [e|]].
Qed.

(** X20.  Without file share, placement plays no part: a regular file whose
    object name is computed is promoted once by every target that walks it,
    whatever the locator says (so as many times cluster-wide as there are
    targets); the call carries the file's path, the computed name and the
    overwrite/delete flags of the request; a "does not exist" error from
    [Promote] is not an error of the walk; and a failing name rule is
    returned with nothing promoted. *)
Theorem walk_no_fshare_promotes_everywhere
    (D : Deps) (r : XactDirPromote) (fqn : string) (de : DirEntry)
    (promoted : list PromoteParams) (objName : string) (nameErr : option error) :
  confirmedFshare r = false -> IsDir de = false ->
  PromotedObjDstName D fqn (SrcFQN (args r)) (ObjName (args r)) = (objName, nameErr) ->
  let params :=
    {| Bck := bck r;
       Args := {| SrcFQN := fqn; ObjName := objName; Recursive := false;
                  OverwriteDst := OverwriteDst (args r);
                  DeleteSrc := DeleteSrc (args r) |} |} in
  (forall e, nameErr = Some e -> walk D r fqn de promoted = (Some e, promoted)) /\
  (nameErr = None ->
     snd (walk D r fqn de promoted) = promoted ++ [params] /\
     (IsNotExist D (Promote D (T_SID r) params) = true ->
        fst (walk D r fqn de promoted) = None) /\
     (IsNotExist D (Promote D (T_SID r) params) = false ->
        fst (walk D r fqn de promoted) = Promote D (T_SID r) params) /\
     (forall sid, promotions D r fqn de sid = 1) /\
     cluster_promotions D r fqn de = length (targets_of (smap r))).
Proof.
  intros Hfs Hde Hname params.
  pose proof (walk_no_fshare D r fqn de promoted Hfs Hde) as Hw. cbv zeta in Hw.
  rewrite Hname in Hw. fold params in Hw.
  assert (Hall : nameErr = None -> forall sid, promotions D r fqn de sid = 1).
  { intros -> sid. unfold promotions.
    rewrite (walk_no_fshare D (on_target r sid) fqn de [] Hfs Hde).
    cbn [on_target args bck T_SID]. now rewrite Hname. }
  split.
  - intros e ->. exact Hw.
  - intros ->. rewrite Hw. cbn [fst snd]. split; [reflexivity|].
    split; [now intros ->|]. split; [now intros ->|]. split; [now apply Hall|].
    unfold cluster_promotions.
    rewrite (map_ext _ (fun _ => 1)) by (intros sid; now apply Hall).
    induction (targets_of (smap r)) as [|t l IH]; [reflexivity|].
    cbn [map length]. now rewrite sum_list_cons, IH.
Qed.

Lemma walk_no_fshare_promotes_everywhere_witness :
  cluster_promotions ingest (SetFshare (promote_on "t1") false) "/srv/ingest/a"
    {| IsDir := false |} = 2.
Proof.
  destruct (walk_no_fshare_promotes_everywhere ingest (SetFshare (promote_on "t1") false)
              "/srv/ingest/a" {| IsDir := false |} [] "/srv/ingest/a" None
              eq_refl eq_refl eq_refl) as (_ & H).
  destruct (H eq_refl) as (_ & _ & _ & _ & Hc). rewrite Hc. reflexivity.
Defined.

(** A walk over placed entries under file share: no error, and the target's
    [Promote] calls are those of the entries it owns. *)
Lemma WalkDir_placed D r listing :
  confirmedFshare r = true ->
  Forall (placed D r (smap r)) (regular listing) ->
  forall sid promoted,
    WalkDir D (on_target r sid) listing promoted
    = (None,
       snd (WalkDir D (on_target r sid) listing promoted)) /\
    length (snd (WalkDir D (on_target r sid) listing promoted))
    = length promoted
      + sum_list (map (fun e => promotions D r (fst e) (snd e) sid) listing).
Proof.
  intros Hfs. induction listing as [|[fqn de] listing IH]; intros Hpl sid promoted.
  - cbn. split; [reflexivity | lia].
  - cbn [WalkDir map fst snd]. rewrite sum_list_cons.
    unfold regular in Hpl. cbn [List.filter snd] in Hpl.
    destruct (IsDir de) eqn:Hde; cbn [negb] in Hpl.
    + assert (Hw : forall pr, walk D (on_target r sid) fqn de pr = (None, pr))
        by (intros pr; unfold walk; now rewrite Hde).
      rewrite Hw. unfold promotions at 1. rewrite Hw. cbn [snd length].
      destruct (IH Hpl sid promoted) as [H1 H2]. split; [exact H1 | rewrite H2; lia].
    + apply Forall_cons in Hpl as [(objName & si & Hn & Ho & _ & Herr) Hpl].
      cbn [fst] in Hn, Herr. cbv zeta in Herr.
      unfold promotions at 1.
      rewrite !(walk_fshare D (on_target r sid) fqn de _ Hfs Hde).
      cbn [on_target args smap bck T_SID]. rewrite Hn, Ho.
      destruct (String.eqb_spec (ID si) sid) as [<-|Hne]; cbn [snd length].
      * rewrite Herr.
        match goal with
        | |- context [WalkDir D _ listing (promoted ++ [?x])] =>
            destruct (IH Hpl (ID si) (promoted ++ [x])) as [H1 H2]
        end.
        split; [exact H1|]. rewrite H2, length_app. cbn [length app]. lia.
      * destruct (IH Hpl sid promoted) as [H1 H2]. split; [exact H1 | rewrite H2; lia].
Qed.

Lemma sum_list_zero {A} (l : list A) : sum_list (map (fun _ => 0) l) = 0.
Proof.
  induction l as [|a l IH]; [reflexivity|]. cbn [map]. now rewrite sum_list_cons, IH.
Qed.

Lemma sum_list_add {A} (f g : A -> nat) (l : list A) :
  sum_list (map (fun x => f x + g x) l) = sum_list (map f l) + sum_list (map g l).
Proof. induction l as [|a l IH]; cbn; [reflexivity | rewrite IH; lia]. Qed.

(** X21.  A shared directory is promoted once: under file share, when every
    target of the cluster map runs the promote over the same listing and
    every regular file of it is placed (its name is computed, the locator
    resolves it to a target of the map, that target's [Promote] does not
    fail), then every target's run ends without an error and the [Promote]
    calls of all targets together number exactly the regular files of the
    listing. *)
Theorem Run_fshare_promotes_each_file_once
    (D : Deps) (r : XactDirPromote) (current : Smap)
    (listing : bool -> list (string * DirEntry)) :
  confirmedFshare r = true ->
  Forall (placed D r current) (regular (listing (Recursive (args r)))) ->
  (forall sid, fst (Run D (on_target r sid) current listing) = None) /\
  cluster_Run D r current listing = length (regular (listing (Recursive (args r)))).
Proof.
  intros Hfs Hpl.
  set (r' := {| T_SID := T_SID r; args := args r; smap := current; bck := bck r;
                confirmedFshare := confirmedFshare r |}).
  assert (Hrun : forall sid,
             Run D (on_target r sid) current listing
             = WalkDir D (on_target r' sid) (listing (Recursive (args r))) []) by reflexivity.
  assert (Hpl' : Forall (placed D r' (smap r')) (regular (listing (Recursive (args r)))))
    by exact Hpl.
  pose proof (WalkDir_placed D r' (listing (Recursive (args r))) Hfs Hpl') as Hw.
  split.
  - intros sid. rewrite Hrun. destruct (Hw sid []) as [-> _]. reflexivity.
  - unfold cluster_Run.
    rewrite (map_ext _ (fun sid =>
               sum_list (map (fun e => promotions D r' (fst e) (snd e) sid)
                           (listing (Recursive (args r))))))
      by (intros sid; rewrite Hrun; now destruct (Hw sid []) as [_ ->]).
    clear Hw Hrun. revert Hpl'.
    induction (listing (Recursive (args r))) as [|[fqn de] l IH]; intros Hpl'.
    + cbn [map length]. apply (sum_list_zero (targets_of current)).
    + cbn [map fst snd].
      rewrite (map_ext _ (fun sid => promotions D r' fqn de sid
                            + sum_list (map (fun e => promotions D r' (fst e) (snd e) sid) l)))
        by (intros sid; apply sum_list_cons).
      rewrite sum_list_add.
      unfold regular in *. cbn [List.filter snd] in *.
      destruct (IsDir de) eqn:Hde; cbn [negb] in *.
      * rewrite IH by assumption.
        assert (H0 : forall sid, promotions D r' fqn de sid = 0)
          by (intros sid; unfold promotions, walk; now rewrite Hde).
        rewrite (map_ext _ (fun _ => 0)) by exact H0.
        rewrite sum_list_zero. reflexivity.
      * apply Forall_cons in Hpl' as [(objName & si & Hn & Ho & Htgt & _) Hpl'].
        rewrite IH by assumption. cbn [length]. f_equal.
        rewrite (map_ext _ (fun y => if decide (y = ID si) then 1 else 0))
          by (intros sid; now apply (promotions_owner D r' fqn de objName)).
        unfold targets_of. rewrite sum_indicator by apply NoDup_elements.
        rewrite decide_True; [reflexivity|].
        apply elem_of_elements, elem_of_dom. unfold GetTarget in Htgt. cbn in Htgt.
        now rewrite Htgt.
Qed.

Lemma Run_fshare_promotes_each_file_once_witness :
  cluster_Run ingest (promote_on "t1") smap2
    (fun _ => [ ("/srv/ingest", {| IsDir := true |});
                ("/srv/ingest/a", {| IsDir := false |});
                ("/srv/ingest/bb", {| IsDir := false |}) ]) = 2.
Proof.
  apply (Run_fshare_promotes_each_file_once ingest (promote_on "t1") smap2
           (fun _ => [ ("/srv/ingest", {| IsDir := true |});
                       ("/srv/ingest/a", {| IsDir := false |});
                       ("/srv/ingest/bb", {| IsDir := false |}) ])).
  - reflexivity.
  - repeat constructor.
    + exists "/srv/ingest/a", (target "t2"). repeat split.
    + exists "/srv/ingest/bb", (target "t1"). repeat split.
Defined.

End XsFacts.

(** ** The primary proxy's cluster handlers *)

Module AisFacts.
Import Cluster Ais Ais.Ctx.

(** C3.  In the post phase [_perfRebPost]: when the caller passed [skipReb],
    nothing happens whatever [requiresRebalance] says -- the RMD is not
    modified, its version is not incremented, [ctx.rmd] stays as it was (nil
    if it was nil); when [skipReb] is not passed and [requiresRebalance]
    returns true, [RMD.modify] is invoked exactly once and installs the RMD
    with its version incremented, which [ctx.rmd] then holds. *)
Theorem _perfRebPost_honors_skipReb
    (E : Env) (ctx : smapModifier) (clone : smapX) (p : proxyrunner) :
  (skipReb ctx = true ->
     _perfRebPost E ctx clone p = (ctx, p)) /\
  (skipReb ctx = false -> requiresRebalance E (smap ctx) clone = true ->
     let '(ctx', p') := _perfRebPost E ctx clone p in
     events p' = events p ++ [EvRmdModify] /\
     owner_rmd p' = inc (owner_rmd p) /\
     rmd_Version (owner_rmd p') = rmd_Version (owner_rmd p) + 1 /\
     rmd ctx' = Some (owner_rmd p') /\
     owner_smap p' = owner_smap p).
Proof.
  split.
  - intros Hskip. unfold _perfRebPost. now rewrite Hskip.
  - intros Hskip Hreb. unfold _perfRebPost. rewrite Hskip, Hreb. cbn.
    repeat split.
Qed.

Lemma _perfRebPost_honors_skipReb_witness :
  _perfRebPost env1 (removal_ctx true) (delTarget smap3 "t1") (primary_p1 true)
    = (removal_ctx true, primary_p1 true) /\
  rmd_Version (owner_rmd (snd (_perfRebPost env1 (removal_ctx false) (delTarget smap3 "t1")
                                 (primary_p1 true)))) = 6.
Proof.
  split.
  - apply (_perfRebPost_honors_skipReb env1 (removal_ctx true) (delTarget smap3 "t1")
             (primary_p1 true)). reflexivity.
  - pose proof (proj2 (_perfRebPost_honors_skipReb env1 (removal_ctx false)
                         (delTarget smap3 "t1") (primary_p1 true)) eq_refl eq_refl) as H.
    destruct (_perfRebPost env1 (removal_ctx false) (delTarget smap3 "t1") (primary_p1 true))
      as [ctx' p'].
    destruct H as (_ & _ & Hv & _). exact Hv.
Defined.

(** The first failing result of a broadcast, when there is one. *)
Lemma find_failed (results : list callResult) :
  (exists res, In res results /\ res_err res <> None) ->
  exists res e, List.find failed results = Some res /\ In res results /\ res_err res = Some e.
Proof.
  intros (res & Hin & Herr).
  destruct (List.find failed results) as [res'|] eqn:Hfind.
  - apply List.find_some in Hfind as [Hin' Hf]. unfold failed in Hf.
    destruct (res_err res') as [e|] eqn:He; [|discriminate]. eauto.
  - apply (List.find_none _ _ Hfind) in Hin. unfold failed in Hin.
    destruct (res_err res); [discriminate | contradiction].
Qed.

(** C4.  In [cluSetPrimary], once the prepare-phase broadcast has been sent:
    if any node returns an error, the handler replies with an error that
    names a node that failed (the first one among the results) and nothing
    else happens -- the run consists of the broadcast and the error reply;
    [Smap.modify] is not called, the cluster map and its [Primary] are
    unchanged, [inPrimaryTransition] is never stored, and
    [metasyncer.becomeNonPrimary] is not invoked. *)
Theorem cluSetPrimary_prepare_failure_changes_nothing
    (E : Env) (r : Request) (p : proxyrunner) (apiItems : list string) (psi : Snode) :
  let proxyid := hd "" apiItems in
  let results := bcastGroup E (length (events p)) (prepare_bcast proxyid) in
  rest r = inr apiItems ->
  forwardCP E p r = false ->
  GetProxy (owner_smap p) proxyid = Some psi ->
  proxyid <> ID (si p) ->
  PresentInMaint E (owner_smap p) psi = false ->
  (exists res, In res results /\ res_err res <> None) ->
  exists res e,
    In res results /\ res_err res = Some e /\
    let reply := EvInvalMsg
                   (Errorf "Failed to set primary %s: err %v from %s in the prepare phase"
                      [FStr proxyid; FErr e; FNode (res_si res)]) None in
    let p' := snd (cluSetPrimary E r p) in
    p' = add_event (add_event p (EvBcast (prepare_bcast proxyid))) reply /\
    events p' = events p ++ [EvBcast (prepare_bcast proxyid); reply] /\
    owner_smap p' = owner_smap p /\
    Primary (owner_smap p') = Primary (owner_smap p) /\
    inPrimaryTransition p' = inPrimaryTransition p /\
    (forall ev, In ev [EvBcast (prepare_bcast proxyid); reply] ->
       ev <> EvSmapModify /\ ev <> EvBecomeNonPrimary /\
       forall b, ev <> EvInPrimaryTransition b).
Proof.
  intros proxyid results Hrest Hfwd Hpsi Hself Hmaint Hfail.
  destruct (find_failed results Hfail) as (res & e & Hfind & Hin & Herr).
  exists res, e. split; [assumption|]. split; [assumption|].
  assert (Hrun : snd (cluSetPrimary E r p)
                 = add_event (add_event p (EvBcast (prepare_bcast proxyid)))
                     (EvInvalMsg
                        (Errorf "Failed to set primary %s: err %v from %s in the prepare phase"
                           [FStr proxyid; FErr e; FNode (res_si res)]) None)).
  { unfold cluSetPrimary, bind, checkRESTItems, do_forwardCP, get, ret, skip.
    rewrite Hrest. cbn. rewrite Hfwd. fold proxyid. rewrite Hpsi.
    destruct (String.eqb_spec proxyid (ID (si p))) as [Heq|_]; [contradiction|].
    rewrite Hmaint. unfold do_bcastGroup, bind, get, emit, upd, ret. cbn.
    fold (prepare_bcast proxyid). fold results. rewrite Hfind, Herr. reflexivity. }
  cbv zeta. rewrite Hrun. split; [reflexivity|].
  split; [cbn; now rewrite <- app_assoc|].
  split; [reflexivity|]. split; [reflexivity|]. split; [reflexivity|].
  intros ev [<-|[<-|[]]]; repeat split; try discriminate; intros b; discriminate.
Qed.

Lemma cluSetPrimary_prepare_failure_changes_nothing_witness :
  let p' := snd (cluSetPrimary env1 (request ["p2"]) (primary_p1 true)) in
  owner_smap p' = smap3 /\ inPrimaryTransition p' = false /\ length (events p') = 2%nat.
Proof.
  assert (Hfail : exists res,
             In res (bcastGroup env1 (length (events (primary_p1 true))) (prepare_bcast "p2"))
             /\ res_err res <> None).
  { eexists. split; [right; left; reflexivity|]. vm_compute. discriminate. }
  destruct (cluSetPrimary_prepare_failure_changes_nothing env1 (request ["p2"])
              (primary_p1 true) ["p2"] (mk_node "p2" Proxy)
              eq_refl eq_refl eq_refl ltac:(vm_compute; discriminate) eq_refl Hfail)
    as (res & e & _ & _ & H).
  cbv zeta in H. destruct H as (_ & Hev & Hsmap & _ & Htr & _).
  cbv zeta. rewrite Hev, Hsmap, Htr. repeat split.
Defined.

(** *** Runs that only add events *)

Lemma evolves_refl S ok p : (forall m, S m m) -> evolves S ok p p.
Proof.
  intros HS. unfold evolves. repeat split; auto.
  exists []. split; [now rewrite app_nil_r | constructor].
Qed.

Lemma evolves_trans S ok p q r :
  (forall a b c, S a b -> S b c -> S a c) ->
  evolves S ok p q -> evolves S ok q r -> evolves S ok p r.
Proof.
  intros HS (H1 & H2 & H3 & H4 & evs & H5 & H6) (K1 & K2 & K3 & K4 & evs' & K5 & K6).
  unfold evolves. repeat split; try congruence.
  - eapply HS; eassumption.
  - exists (evs ++ evs'). split.
    + now rewrite K5, H5, app_assoc.
    + now apply Forall_app.
Qed.

Lemma same_nodes_refl m : same_nodes m m.
Proof. now unfold same_nodes. Qed.

Lemma same_nodes_trans a b c : same_nodes a b -> same_nodes b c -> same_nodes a c.
Proof. unfold same_nodes. intuition congruence. Qed.

Lemma same_nodes_GetNode m m' id : same_nodes m m' -> GetNode m' id = GetNode m id.
Proof.
  intros (_ & HP & HT). unfold GetNode, GetTarget, GetProxy. now rewrite HP, HT.
Qed.

(** Closes [evolves] between a state and the same state after explicit
    updates. *)
Ltac solve_evolves :=
  unfold evolves, same_nodes; cbn;
  repeat match goal with |- _ /\ _ => split end;
  try reflexivity; try assumption;
  try (exists []; split; [now rewrite app_nil_r | constructor]);
  try (eexists; split;
       [ rewrite <- ?app_assoc; cbn; reflexivity
       | repeat constructor; unfold not_smap_write; try split; discriminate ]).

(** The retry loop only calls and sleeps. *)
Lemma callRetries_evolves E args n q :
  evolves same_nodes not_error_reply q (snd (callRetries E args n q)).
Proof.
  revert q. induction n as [|n IH]; intros q.
  - apply evolves_refl, same_nodes_refl.
  - cbn. unfold bind, do_call, get, emit, upd, ret. cbn.
    destruct (res_err (call E (length (events q)) args)).
    + eapply evolves_trans; [apply same_nodes_trans | | apply IH]. solve_evolves.
    + solve_evolves.
Qed.

(** Before [NodeStarted], the pre-phase of a removal of a registered node
    marks 503 and leaves the clone alone. *)
Lemma _unregNodePre_not_started E ctx clone q node :
  GetNode clone (sid ctx) = Some node ->
  isPrimary clone (si q) = true ->
  NodeStarted q = false ->
  _unregNodePre E ctx clone q
  = ((with_status ctx StatusServiceUnavailable, clone, None), q).
Proof.
  intros Hnode Hprim Hns. unfold _unregNodePre, bind, get, ret.
  now rewrite Hprim, Hnode, Hns.
Qed.

Lemma unregNode_not_started E msg node node' skipReb q :
  GetNode (owner_smap q) (ID node) = Some node' ->
  isPrimary (owner_smap q) (si q) = true ->
  NodeStarted q = false ->
  exists q',
    unregNode E msg node skipReb q = ((StatusServiceUnavailable, None), q') /\
    evolves same_nodes not_error_reply q q'.
Proof.
  intros Hnode Hprim Hns.
  unfold unregNode, smap_modify, bind, get, emit, upd, ret, skip.
  cbn -[_unregNodePre _perfRebPost _syncFinal].
  rewrite (_unregNodePre_not_started E _ _ _ node') by assumption.
  cbn -[_perfRebPost _syncFinal]. unfold _perfRebPost, _syncFinal, bind, ret. cbn.
  match goal with
  | |- context [requiresRebalance E ?a ?b] =>
      destruct (negb skipReb && requiresRebalance E a b)
  end; cbn; (eexists; split; [reflexivity | solve_evolves]).
Qed.

Lemma evolves_same_nodes_view ok q q' id :
  evolves same_nodes ok q q' ->
  GetNode (owner_smap q') id = GetNode (owner_smap q) id /\
  isPrimary (owner_smap q') (si q') = isPrimary (owner_smap q) (si q) /\
  NodeStarted q' = NodeStarted q.
Proof.
  intros (Hsi & Hns & _ & Hsame & _). split; [|split].
  - now apply same_nodes_GetNode.
  - destruct Hsame as (HP & _). unfold isPrimary. now rewrite HP, Hsi.
  - assumption.
Qed.

(** C9.  If the removal of a node that exists in the Smap is processed (by
    the primary) before [NodeStarted()] is true: the pre-phase
    [_unregNodePre] returns no error, sets status 503 and leaves the clone
    as it is (neither [delProxy] nor [delTarget] runs); [unregNode] reports
    503 with a nil error; [httpcludel] sends no error reply; and the node is
    still in the cluster map afterwards. *)
Theorem removal_before_NodeStarted_is_silent
    (E : Env) (r : Request) (p : proxyrunner) (apiItems : list string) (node : Snode) :
  let sid := hd "" apiItems in
  rest r = inr apiItems ->
  GetNode (owner_smap p) sid = Some node ->
  ID node = sid ->
  forwardCP E p r = false ->
  isPrimary (owner_smap p) (si p) = true ->
  NodeStarted p = false ->
  (hdr_IntraCall r = true -> hdr_CallerID r = sid) ->
  (forall ctx, Ctx.sid ctx = sid ->
     _unregNodePre E ctx (owner_smap p) p
     = ((with_status ctx StatusServiceUnavailable, owner_smap p, None), p)) /\
  (forall msg skipReb,
     exists p', unregNode E msg node skipReb p = ((StatusServiceUnavailable, None), p') /\
                GetNode (owner_smap p') sid = Some node) /\
  (let p' := snd (httpcludel E r p) in
   GetNode (owner_smap p') sid = Some node /\
   exists evs, events p' = events p ++ evs /\ Forall not_error_reply evs).
Proof.
  intros sid Hrest Hnode Hid Hfwd Hprim Hns Hcaller.
  assert (Hnode' : GetNode (owner_smap p) (ID node) = Some node) by now rewrite Hid.
  split; [|split].
  - intros ctx Hsid. apply (_unregNodePre_not_started E ctx _ p node); try assumption.
    now rewrite Hsid.
  - intros msg skipReb.
    destruct (unregNode_not_started E msg node node skipReb p Hnode' Hprim Hns)
      as (p' & Heq & Hev).
    exists p'. split; [assumption|].
    destruct (evolves_same_nodes_view _ _ _ sid Hev) as (-> & _). assumption.
  - assert (Hrun : evolves same_nodes not_error_reply p (snd (httpcludel E r p))).
    { unfold httpcludel, bind, checkRESTItems, do_forwardCP, get, ret, skip.
      rewrite Hrest. cbn -[unregNode callRmSelf]. fold sid. rewrite Hnode, Hfwd.
      destruct (hdr_IntraCall r) eqn:Hintra.
      - rewrite (Hcaller eq_refl), String.eqb_refl.
        destruct (unregNode_not_started E
                    {| Action := "self-initiated-removal"; Value := "" |}
                    node node false p Hnode' Hprim Hns) as (p' & -> & Hev).
        exact Hev.
      - unfold callRmSelf, bind, get, ret. rewrite Hid, Hnode.
        match goal with
        | |- context [callRetries E ?args ?n p] =>
            pose proof (callRetries_evolves E args n p) as Hcalls;
            destruct (callRetries E args n p) as [[] q]
        end.
        cbn [snd] in Hcalls.
        destruct (evolves_same_nodes_view _ _ _ (ID node) Hcalls) as (Hn & Hp & Hs).
        rewrite <- Hn in Hnode'. rewrite <- Hp in Hprim. rewrite <- Hs in Hns.
        destruct (unregNode_not_started E {| Action := testInitiatedRm; Value := "" |}
                    node node false q Hnode' Hprim Hns) as (q' & -> & Hev).
        cbn. eapply evolves_trans; [apply same_nodes_trans | exact Hcalls | exact Hev]. }
    cbv zeta. split.
    + destruct (evolves_same_nodes_view _ _ _ sid Hrun) as (-> & _). assumption.
    + destruct Hrun as (_ & _ & _ & _ & Hevs). exact Hevs.
Qed.

Lemma removal_before_NodeStarted_is_silent_witness :
  let p' := snd (httpcludel env1 remove_t1 (primary_p1 false)) in
  GetNode (owner_smap p') "t1" = Some (mk_node "t1" Target) /\
  exists evs, events p' = events (primary_p1 false) ++ evs /\ Forall not_error_reply evs.
Proof.
  apply (removal_before_NodeStarted_is_silent env1 remove_t1 (primary_p1 false)
           ["t1"] (mk_node "t1" Target)); reflexivity.
Defined.

(** Once the node has started, the same request does remove t1. *)
Example removal_after_NodeStarted :
  let p' := snd (httpcludel env1 remove_t1 (primary_p1 true)) in
  GetNode (owner_smap p') "t1" = None /\ Version (owner_smap p') = 4.
Proof. vm_compute. split; reflexivity. Qed.

(** *** Keepalive *)

Lemma addOrUpdateNode_kalive_equal E nsi osi q :
  Equals osi nsi = true ->
  addOrUpdateNode E nsi (Some osi) true q
  = (false, add_event q (EvHeardFrom (ID nsi) false)).
Proof. intros Heq. unfold addOrUpdateNode. now rewrite Heq. Qed.

Lemma handleJoinKalive_kalive_unchanged E nsi regSmap tag flags q :
  present_unchanged (owner_smap q) nsi ->
  exists err q',
    handleJoinKalive E nsi regSmap tag true flags q = ((owner_smap q, false, err), q') /\
    evolves eq not_smap_write q q'.
Proof.
  intros (osi & Hget & Heq).
  unfold handleJoinKalive, bind, get, ret.
  destruct (isPrimary (owner_smap q) (si q)); cbn -[addOrUpdateNode].
  - destruct (IsProxy nsi); rewrite Hget, (addOrUpdateNode_kalive_equal E nsi osi q Heq);
      cbn; (do 2 eexists; split; [reflexivity | solve_evolves]).
  - do 2 eexists. split; [reflexivity | solve_evolves].
Qed.

Lemma httpclupost_node_kalive_unchanged E r regReq tag q :
  present_unchanged (owner_smap q) (reg_SI regReq) ->
  evolves eq not_smap_write q (snd (httpclupost_node E r regReq tag true false false q)).
Proof.
  intros Hpres.
  unfold httpclupost_node, bind, get, ret, skip, invalmsghdlr, invalmsghdlrf, emit, upd.
  cbn -[handleJoinKalive].
  destruct (Validate E (reg_SI regReq)); [solve_evolves|].
  destruct (if NodeStarted q then _ else _); [solve_evolves|].
  destruct (validateHostname E _); [solve_evolves|].
  cbn -[handleJoinKalive].
  match goal with
  | |- context [handleJoinKalive E ?nsi ?rs ?tg true ?fl ?q1] =>
      destruct (handleJoinKalive_kalive_unchanged E nsi rs tg fl q1 Hpres)
        as (err & q' & -> & Hev)
  end.
  assert (Hq : evolves eq not_smap_write q q').
  { eapply evolves_trans; [intros; congruence | | exact Hev]. solve_evolves. }
  destruct (negb (IsProxy (reg_SI regReq)) && NodeStarted q'); cbn;
    destruct err; cbn;
    try destruct (owner_rmd_rebalance q');
    (eapply evolves_trans; [intros; congruence | exact Hq | solve_evolves]).
Qed.

(** C5.  For a node already present in the Smap with an equal Snode (same ID
    and endpoints), a keepalive changes no Smap version: [addOrUpdateNode]
    returns false (after noting the heartbeat), [handleJoinKalive] reports
    update=false and leaves the map alone, and the whole of [httpclupost]
    performs neither [Smap.modify] nor a direct install -- the cluster map,
    version included, is the one before the request. *)
Theorem keepalive_of_unchanged_node_is_idempotent
    (E : Env) (r : Request) (p : proxyrunner) (apiItems : list string)
    (regReq : nodeRegMeta) :
  let nsi := reg_SI regReq in
  rest r = inr apiItems ->
  hd "" apiItems = Keepalive ->
  json_regReq r = inr regReq ->
  present_unchanged (owner_smap p) nsi ->
  (forall osi q, Equals osi nsi = true ->
     addOrUpdateNode E nsi (Some osi) true q
     = (false, add_event q (EvHeardFrom (ID nsi) false))) /\
  (forall flags,
     exists err p',
       handleJoinKalive E nsi (reg_Smap regReq) "keepalive" true flags p
       = ((owner_smap p, false, err), p') /\
       owner_smap p' = owner_smap p) /\
  (let p' := snd (httpclupost E r p) in
   owner_smap p' = owner_smap p /\
   Version (owner_smap p') = Version (owner_smap p) /\
   exists evs, events p' = events p ++ evs /\ Forall not_smap_write evs).
Proof.
  intros nsi Hrest Hverb Hjson Hpres. split; [|split].
  - intros osi q Heq. now apply addOrUpdateNode_kalive_equal.
  - intros flags.
    destruct (handleJoinKalive_kalive_unchanged E nsi (reg_Smap regReq) "keepalive" flags p Hpres)
      as (err & p' & Heq & Hev).
    exists err, p'. split; [assumption|]. destruct Hev as (_ & _ & _ & Hs & _). now symmetry.
  - assert (Hrun : evolves eq not_smap_write p (snd (httpclupost E r p))).
    { unfold httpclupost, bind, checkRESTItems, do_forwardCP, get, ret, skip, emit, upd.
      rewrite Hrest. cbn -[httpclupost_node]. rewrite Hverb.
      destruct (inPrimaryTransition p); cbn -[httpclupost_node]; [solve_evolves|].
      destruct (forwardCP E p r); cbn -[httpclupost_node]; [solve_evolves|].
      rewrite Hjson. now apply httpclupost_node_kalive_unchanged. }
    cbv zeta. destruct Hrun as (_ & _ & _ & Hs & Hevs).
    split; [now symmetry|]. split; [now rewrite <- Hs | exact Hevs].
Qed.

Lemma keepalive_of_unchanged_node_is_idempotent_witness :
  let p' := snd (httpclupost env1 keepalive_t1 (primary_p1 true)) in
  owner_smap p' = smap3 /\ Version (owner_smap p') = 3.
Proof.
  assert (Hpres : present_unchanged (owner_smap (primary_p1 true)) (mk_node "t1" Target)).
  { exists (mk_node "t1" Target). split; reflexivity. }
  destruct (keepalive_of_unchanged_node_is_idempotent env1 keepalive_t1 (primary_p1 true)
              [Keepalive] _ eq_refl eq_refl eq_refl Hpres) as (_ & _ & H).
  cbv zeta in H. destruct H as (Hs & Hv & _). cbv zeta. rewrite Hs. now split.
Defined.

(** *** Primary handover, the other paths *)







(** *** Removal, the other paths *)

Lemma with_events_same q : with_events q (events q) = q.
Proof. now destruct q. Qed.

Lemma add_event_with_events q evs e :
  add_event (with_events q evs) e = with_events q (evs ++ [e]).
Proof. reflexivity. Qed.

(** The retry loop changes nothing but the event log, where it leaves
    between one and [retries] calls, with a sleep after each failed one. *)
Lemma callRetries_runs E args n q :
  exists evs,
    callRetries E args n q = (tt, with_events q (events q ++ evs)) /\
    Forall (call_or_sleep args) evs /\
    (length (List.filter is_call evs) <= n)%nat /\
    (n <> 0%nat -> (1 <= length (List.filter is_call evs))%nat).
Proof.
  revert q. induction n as [|n IH]; intros q.
  - exists []. rewrite app_nil_r, with_events_same. repeat split; auto. contradiction.
  - cbn [callRetries]. unfold bind, do_call, get, emit, upd, ret. cbn.
    destruct (res_err (call E (length (events q)) args)).
    + destruct (IH (add_event (add_event q (EvCall args)) EvSleep))
        as (evs & -> & Hall & Hle & _).
      exists (EvCall args :: EvSleep :: evs). split; [|split; [|split]].
      * cbn. now rewrite <- !app_assoc.
      * constructor; [now left|]. constructor; [now right | assumption].
      * cbn. lia.
      * intros _. cbn. lia.
    + exists [EvCall args]. unfold skip, ret. split; [reflexivity|]. split; [|split].
      * constructor; [now left | constructor].
      * cbn. lia.
      * intros _. cbn. lia.
Qed.

(** X24.  What [httpcludel] turns down.  A removal of a node that is not in
    the cluster map is answered 404 before anything else (even before the
    request is forwarded to the primary).  An intra-cluster call whose
    caller ID is not the node being removed is answered with an error, and
    so is a self-initiated removal that reaches a proxy that is not the
    primary; in neither case is the cluster map changed or a node called. *)
Theorem httpcludel_rejects
    (E : Env) (r : Request) (p : proxyrunner) (apiItems : list string) :
  let sid := hd "" apiItems in
  let smap := owner_smap p in
  rest r = inr apiItems ->
  (GetNode smap sid = None ->
   snd (httpcludel E r p)
   = add_event p (EvInvalMsg (errNodeNotFound "cannot remove" [] sid (si p) smap)
                    (Some StatusNotFound))) /\
  (forall node, GetNode smap sid = Some node -> forwardCP E p r = false ->
     hdr_IntraCall r = true ->
     (hdr_CallerID r <> sid ->
      snd (httpcludel E r p)
      = add_event p (EvInvalMsg (Errorf "expecting self-initiated removal (%s != %s)"
                                   [FStr (hdr_CallerID r); FStr sid]) (Some 0))) /\
     (hdr_CallerID r = sid -> isPrimary smap (si p) = false ->
      snd (httpcludel E r p)
      = add_event (add_event p EvSmapModify)
          (EvInvalMsg (Errorf "%s is not primary [%s]: cannot %s %s"
                         [FNode (si p); FSmap smap; FStr "remove"; FStr (ID node)])
             (Some 0)))).
Proof.
  intros sid smap Hrest. split.
  - intros Hnone.
    unfold httpcludel, bind, checkRESTItems, get, ret, invalmsghdlr, emit, upd.
    rewrite Hrest. cbn -[unregNode callRmSelf]. fold sid. fold smap. now rewrite Hnone.
  - intros node Hnode Hfwd Hintra. split.
    + intros Hcaller.
      unfold httpcludel, bind, checkRESTItems, do_forwardCP, get, ret, invalmsghdlr, emit, upd.
      rewrite Hrest. cbn -[unregNode callRmSelf]. fold sid. fold smap.
      rewrite Hnode, Hfwd, Hintra.
      destruct (String.eqb_spec (hdr_CallerID r) sid) as [Heq|_]; [contradiction|].
      reflexivity.
    + intros Hcaller Hprim.
      unfold httpcludel, bind, checkRESTItems, do_forwardCP, get, ret, invalmsghdlr, emit, upd.
      rewrite Hrest. cbn -[unregNode callRmSelf]. fold sid. fold smap.
      rewrite Hnode, Hfwd, Hintra, Hcaller, String.eqb_refl.
      unfold unregNode, smap_modify, _unregNodePre, bind, get, emit, upd, ret. cbn.
      fold smap. now rewrite Hprim.
Qed.

Lemma httpcludel_rejects_witness :
  snd (httpcludel env1 (request ["t9"]) (primary_p1 true))
  = add_event (primary_p1 true)
      (EvInvalMsg (errNodeNotFound "cannot remove" [] "t9" (mk_node "p1" Proxy) smap3)
         (Some StatusNotFound)).
Proof.
  apply (httpcludel_rejects env1 (request ["t9"]) (primary_p1 true) ["t9"] eq_refl).
  reflexivity.
Defined.

(** X25.  [unregNode] of a registered node, on a started primary: no error
    and status 0; the installed cluster map is the old one without the node
    (out of the map of its role), re-staffed, with the next version; the
    rebalance metadata moves to its next version exactly when rebalancing
    is not skipped and [requiresRebalance] asks for it; and metasync gets
    the new map, together with the new RMD when there is one. *)
Theorem unregNode_removes_started_node
    (E : Env) (msg : ActionMsg) (node osi : Snode) (skipReb : bool) (p : proxyrunner) :
  let smap := owner_smap p in
  let clone := next_version (staffIC E (if IsProxy osi then delProxy smap (ID node)
                                        else delTarget smap (ID node))) in
  let reb := negb skipReb && requiresRebalance E (Some smap) clone in
  let rmd' := inc (owner_rmd p) in
  isPrimary smap (si p) = true ->
  GetNode smap (ID node) = Some osi ->
  NodeStarted p = true ->
  fst (unregNode E msg node skipReb p) = (0, None) /\
  owner_smap (snd (unregNode E msg node skipReb p)) = clone /\
  owner_rmd (snd (unregNode E msg node skipReb p)) = (if reb then rmd' else owner_rmd p) /\
  events (snd (unregNode E msg node skipReb p))
  = events p ++ [EvSmapModify; EvRproxyDelete (ID node)] ++
    (if reb
     then [EvRmdModify; EvNotifsAdd (RebID_String E (rmd_Version rmd')) (ActRebalance E);
           EvMetasyncSync [(RevSmap clone, Some msg); (RevRMD rmd', Some msg)]]
     else [EvMetasyncSync [(RevSmap clone, Some msg)]]).
Proof.
  intros smap clone reb rmd' Hprim Hnode Hns.
  unfold unregNode, smap_modify, _unregNodePre, bind, get, emit, upd, ret, skip. cbn.
  fold smap. rewrite Hprim, Hnode, Hns. cbn.
  unfold _perfRebPost, _syncFinal, rmd_modify, bind, get, emit, upd, ret. cbn.
  fold smap. fold clone. fold reb.
  destruct reb; cbn; rewrite <- ?app_assoc; cbn; repeat split.
Qed.

Lemma unregNode_removes_started_node_witness :
  let p' := snd (unregNode env1 {| Action := ActDecommission; Value := "" |}
                   (mk_node "t1" Target) false (primary_p1 true)) in
  GetNode (owner_smap p') "t1" = None /\ Version (owner_smap p') = 4 /\
  rmd_Version (owner_rmd p') = 6.
Proof.
  pose proof (unregNode_removes_started_node env1 {| Action := ActDecommission; Value := "" |}
                (mk_node "t1" Target) (mk_node "t1" Target) false (primary_p1 true)
                eq_refl eq_refl eq_refl) as H.
  cbv zeta in H. destruct H as (_ & HS & HR & _).
  cbv zeta. rewrite HS, HR. repeat split.
Defined.

(** X26.  [unregNode] installs nothing when it cannot remove: on a proxy
    that is not the primary it returns the "is not primary" error (status
    0), and for a node that is not in the cluster map it returns 404 with
    the node-not-found error.  Either way the cluster map, the RMD and the
    rest of the proxy are as before, and nothing is sent to metasync. *)
Theorem unregNode_installs_nothing_on_error
    (E : Env) (msg : ActionMsg) (node : Snode) (skipReb : bool) (p : proxyrunner) :
  let smap := owner_smap p in
  isPrimary smap (si p) = false \/ GetNode smap (ID node) = None ->
  snd (unregNode E msg node skipReb p) = add_event p EvSmapModify /\
  fst (unregNode E msg node skipReb p)
  = if isPrimary smap (si p)
    then (StatusNotFound,
          Some (errNodeNotFound "failed to %s" [FStr "remove"] (ID node) (si p) smap))
    else (0, Some (Errorf "%s is not primary [%s]: cannot %s %s"
                     [FNode (si p); FSmap smap; FStr "remove"; FStr (ID node)])).
Proof.
  intros smap Hcase.
  unfold unregNode, smap_modify, _unregNodePre, bind, get, emit, upd, ret, skip. cbn.
  fold smap.
  destruct (isPrimary smap (si p)) eqn:Hprim; cbn.
  - destruct Hcase as [H|H]; [discriminate|]. rewrite H. cbn. split; reflexivity.
  - split; reflexivity.
Qed.

Lemma unregNode_installs_nothing_on_error_witness :
  snd (unregNode env1 {| Action := ActDecommission; Value := "" |}
         (mk_node "t9" Target) false (primary_p1 true))
  = add_event (primary_p1 true) EvSmapModify.
Proof.
  apply (unregNode_installs_nothing_on_error env1 {| Action := ActDecommission; Value := "" |}
           (mk_node "t9" Target) false (primary_p1 true)).
  right. reflexivity.
Defined.

(** The run of [callRmSelf] for a node of the cluster map: the retry loop
    on the node, then [unregNode] whatever the calls returned. *)
Lemma callRmSelf_runs E msg si skipReb p node :
  GetNode (owner_smap p) (ID si) = Some node ->
  exists req evs,
    callRmSelf E msg si skipReb p
    = unregNode E msg si skipReb (with_events p (events p ++ evs)) /\
    Forall (call_or_sleep {| c_si := node; c_req := req |}) evs /\
    (1 <= length (List.filter is_call evs) <= 2)%nat /\
    (Action msg = ActShutdownNode ->
     req = {| Method := MethodPut; Path := (URLPathDaemon, []); Query := [];
              Body := MsgBody {| Action := ActShutdown; Value := "" |} |}) /\
    (Action msg = ActStartMaintenance \/ Action msg = ActDecommission \/
     Action msg = testInitiatedRm ->
     req = {| Method := MethodDelete; Path := (URLPathDaemonUnreg, []); Query := [];
              Body := NoBody |}).
Proof.
  intros Hnode. unfold callRmSelf, bind, get. rewrite Hnode.
  match goal with
  | |- context [callRetries E {| c_si := node; c_req := ?rq |} ?n p] =>
      exists rq; destruct (callRetries_runs E {| c_si := node; c_req := rq |} n p)
        as (evs & -> & Hall & Hle & Hge)
  end.
  exists evs. split; [reflexivity|]. split; [exact Hall|]. split.
  - split; [apply Hge; discriminate | exact Hle].
  - split.
    + intros ->. reflexivity.
    + intros [-> | [-> | ->]]; reflexivity.
Qed.

(** The two rounds of the retry loop, by the outcomes of its calls. *)
Lemma callRetries_twice E args q :
  let first := call E (length (events q)) args in
  let second := call E (length (events q) + 2) args in
  callRetries E args 2 q
  = (tt, with_events q
           (events q ++
            if failed first
            then EvCall args :: EvSleep :: EvCall args ::
                 (if failed second then [EvSleep] else [])
            else [EvCall args])).
Proof.
  cbv zeta. cbn [callRetries]. unfold bind, do_call, get, emit, upd, ret, skip, failed.
  cbn. destruct (res_err (call E (length (events q)) args)); cbn; [|reflexivity].
  rewrite !length_app. cbn [length].
  replace (length (events q) + 1 + 1)%nat with (length (events q) + 2)%nat by lia.
  destruct (res_err (call E (length (events q) + 2) args)); cbn;
    unfold with_events, skip, ret, add_event; cbn; rewrite <- ?app_assoc; reflexivity.
Qed.

(** X27.  [callRmSelf] on a node of the cluster map: it calls the node -- a
    [PUT] of the shutdown action for shutdown-node, a [DELETE] of
    daemon/unreg for maintenance, decommission and test removal; if the
    call succeeds that is all, and if it fails it sleeps, calls a second
    time, and sleeps again if that call fails too; then it unregisters the
    node whether or not any call succeeded: its result is the one of
    [unregNode] run after exactly those calls and sleeps.  For a node that
    is not in the cluster map it returns 404 and calls nobody. *)
Theorem callRmSelf_proceeds_anyway
    (E : Env) (msg : ActionMsg) (si : Snode) (skipReb : bool) (p : proxyrunner) :
  (GetNode (owner_smap p) (ID si) = None ->
   callRmSelf E msg si skipReb p
   = ((StatusNotFound,
       Some (errNodeNotFound "cannot %q" [FStr (Action msg)] (ID si) (Ais.si p) (owner_smap p))),
      p)) /\
  (forall node, GetNode (owner_smap p) (ID si) = Some node ->
   exists req,
     let args := {| c_si := node; c_req := req |} in
     let first := call E (length (events p)) args in
     let second := call E (length (events p) + 2) args in
     let evs := if failed first
                then EvCall args :: EvSleep :: EvCall args ::
                     (if failed second then [EvSleep] else [])
                else [EvCall args] in
     callRmSelf E msg si skipReb p
     = unregNode E msg si skipReb (with_events p (events p ++ evs)) /\
     (Action msg = ActShutdownNode ->
      req = {| Method := MethodPut; Path := (URLPathDaemon, []); Query := [];
               Body := MsgBody {| Action := ActShutdown; Value := "" |} |}) /\
     (Action msg = ActStartMaintenance \/ Action msg = ActDecommission \/
      Action msg = testInitiatedRm ->
      req = {| Method := MethodDelete; Path := (URLPathDaemonUnreg, []); Query := [];
               Body := NoBody |})).
Proof.
  split.
  - intros Hnone. unfold callRmSelf, bind, get, ret. now rewrite Hnone.
  - intros node Hnode. unfold callRmSelf, bind, get. rewrite Hnode.
    match goal with
    | |- context [callRetries E {| c_si := node; c_req := ?rq |} 2 p] =>
        exists rq; rewrite (callRetries_twice E {| c_si := node; c_req := rq |} p)
    end.
    cbv zeta. split; [reflexivity|]. split.
    + intros ->. reflexivity.
    + intros [-> | [-> | ->]]; reflexivity.
Qed.

Lemma callRmSelf_proceeds_anyway_witness :
  exists req,
    let msg := {| Action := ActDecommission; Value := "" |} in
    let p := primary_p1 true in
    let args := {| c_si := mk_node "t1" Target; c_req := req |} in
    let first := call env1 (length (events p)) args in
    let second := call env1 (length (events p) + 2) args in
    let evs := if failed first
               then EvCall args :: EvSleep :: EvCall args ::
                    (if failed second then [EvSleep] else [])
               else [EvCall args] in
    callRmSelf env1 msg (mk_node "t1" Target) false p
    = unregNode env1 msg (mk_node "t1" Target) false (with_events p (events p ++ evs)) /\
    (Action msg = ActShutdownNode ->
     req = {| Method := MethodPut; Path := (URLPathDaemon, []); Query := [];
              Body := MsgBody {| Action := ActShutdown; Value := "" |} |}) /\
    (Action msg = ActStartMaintenance \/ Action msg = ActDecommission \/
     Action msg = testInitiatedRm ->
     req = {| Method := MethodDelete; Path := (URLPathDaemonUnreg, []); Query := [];
              Body := NoBody |}).
Proof.
  destruct (callRmSelf_proceeds_anyway env1 {| Action := ActDecommission; Value := "" |}
              (mk_node "t1" Target) false (primary_p1 true)) as [_ H].
  exact (H (mk_node "t1" Target) eq_refl).
Defined.

(** With rebalancing skipped, a removal leaves the rebalance metadata alone. *)
Lemma unregNode_skipReb E msg si q :
  owner_rmd (snd (unregNode E msg si true q)) = owner_rmd q /\
  exists evs, events (snd (unregNode E msg si true q)) = events q ++ evs /\
              Forall (fun e => e <> EvRmdModify) evs.
Proof.
  unfold unregNode, smap_modify, _unregNodePre, bind, get, emit, upd, ret, skip. cbn.
  destruct (isPrimary (owner_smap q) (Ais.si q)); cbn.
  - destruct (GetNode (owner_smap q) (ID si)); cbn.
    + destruct (NodeStarted q); cbn;
        (split; [reflexivity|]; eexists;
         split; [rewrite <- ?app_assoc; cbn; reflexivity | repeat constructor; discriminate]).
    + split; [reflexivity|]. eexists. split; [reflexivity | repeat constructor; discriminate].
  - split; [reflexivity|]. eexists. split; [reflexivity | repeat constructor; discriminate].
Qed.

(** X28.  The callback that removes a node once its rebalance is over.  If
    the rebalance ended with an error or was aborted, the callback does
    nothing: the node stays.  Otherwise it goes through [callRmSelf] with
    rebalancing skipped, so that the removal never starts another rebalance:
    the RMD is the one before, and [rmd.modify] is not among the things
    done. *)
Theorem removeAfterRebalance_never_rebalances
    (E : Env) (nl : NotifListener) (msg : ActionMsg) (si : Snode) (p : proxyrunner) :
  let p' := snd (removeAfterRebalance E nl msg si p) in
  (nl_Err nl <> None \/ nl_Aborted nl = true -> p' = p) /\
  (nl_Err nl = None -> nl_Aborted nl = false ->
   p' = snd (callRmSelf E msg si true p)) /\
  owner_rmd p' = owner_rmd p /\
  exists evs, events p' = events p ++ evs /\ Forall (fun e => e <> EvRmdModify) evs.
Proof.
  cbv zeta. unfold removeAfterRebalance.
  assert (Hnil : exists evs, events p = events p ++ evs /\
                             Forall (fun e => e <> EvRmdModify) evs).
  { exists []. now rewrite app_nil_r. }
  destruct (nl_Err nl) as [e|]; cbn [orb].
  - rewrite bool_decide_true by discriminate. cbn.
    repeat split; auto. discriminate.
  - rewrite bool_decide_false by (intros H; now apply H). cbn [orb].
    destruct (nl_Aborted nl); cbn.
    + repeat split; auto. discriminate.
    + assert (Hrun : snd (bind (callRmSelf E msg si true) (fun _ => skip) p)
                     = snd (callRmSelf E msg si true p)).
      { unfold bind, skip, ret. now destruct (callRmSelf E msg si true p) as [? ?]. }
      rewrite Hrun. split; [intros [H|H]; [now contradiction H | discriminate]|].
      split; [reflexivity|].
      destruct (GetNode (owner_smap p) (ID si)) as [node|] eqn:Hnode.
      * destruct (callRmSelf_runs E msg si true p node Hnode)
          as (req & evs & -> & Hall & _).
        destruct (unregNode_skipReb E msg si (with_events p (events p ++ evs)))
          as (Hrmd & evs' & Hev & Hall').
        split; [exact Hrmd|]. exists (evs ++ evs'). split.
        -- rewrite Hev. cbn. now rewrite app_assoc.
        -- apply Forall_app. split; [|exact Hall'].
           eapply Forall_impl; [exact Hall|]. intros a [-> | ->]; discriminate.
      * unfold callRmSelf, bind, get, ret. rewrite Hnode. cbn. split; [reflexivity | exact Hnil].
Qed.

(** *** Joins and keepalives, the other paths *)

(** X29.  A node whose ID is already in the cluster map under other
    endpoints, while the registered one still answers (the duplicate probe
    reports a duplicate): its self-registration is refused with a
    "duplicate node ID" error, and its keepalive is dropped without a
    reply.  The proxy ends exactly as it began but for the events -- the
    request count, the probe, and the error reply of the join -- and for
    two things done on the way: a join that arrives before the cluster has
    started has been put in the registration pool, and the keepalive of a
    target, on a started proxy whose rebalance flag is not set, has stored
    the request's [Reb] in the flag.  The cluster map and the RMD are
    unchanged. *)
Theorem httpclupost_duplicate_node_ID
    (E : Env) (r : Request) (p : proxyrunner) (apiItems : list string)
    (regReq : nodeRegMeta) (osi : Snode) :
  let nsi := reg_SI regReq in
  let verb := hd "" apiItems in
  let p' := snd (httpclupost E r p) in
  rest r = inr apiItems ->
  forwardCP E p r = false ->
  json_regReq r = inr regReq ->
  Validate E nsi = None ->
  (NodeStarted p = true ->
   bmd_validateUUID E (owner_bmd p) (reg_BMD regReq) (si p) nsi = None) ->
  validateHostname E (NodeHostname (PublicNet nsi)) = None ->
  Equals osi nsi = false ->
  detectDaemonDuplicate E (length (events p) + 1) osi nsi = true ->
  (verb = AutoRegister ->
   GetNode (owner_smap p) (ID nsi) = Some osi ->
   p' = with_events
          (if ClusterStarted p then p else set_reg_pool p (reg_pool p ++ [regReq]))
          (events p ++
           [EvStatsAdd (PostCount E) 1; EvProbe osi nsi;
            EvInvalMsg (Errorf "duplicate node ID %q (%s, %s)"
                          [FStr (ID nsi); FNode osi; FNode nsi]) None]) /\
   owner_smap p' = owner_smap p /\
   owner_rmd p' = owner_rmd p /\
   owner_rmd_rebalance p' = owner_rmd_rebalance p /\
   events p' = events p ++
     [EvStatsAdd (PostCount E) 1; EvProbe osi nsi;
      EvInvalMsg (Errorf "duplicate node ID %q (%s, %s)" [FStr (ID nsi); FNode osi; FNode nsi])
        None]) /\
  (verb = Keepalive ->
   inPrimaryTransition p = false ->
   isPrimary (owner_smap p) (si p) = true ->
   (if IsProxy nsi then GetProxy (owner_smap p) (ID nsi)
    else GetTarget (owner_smap p) (ID nsi)) = Some osi ->
   p' = with_events
          (if negb (IsProxy nsi) && NodeStarted p && negb (owner_rmd_rebalance p)
           then set_rebalance p (reg_Reb regReq) else p)
          (events p ++ [EvStatsAdd (PostCount E) 1; EvProbe osi nsi]) /\
   owner_smap p' = owner_smap p /\
   owner_rmd p' = owner_rmd p /\
   reg_pool p' = reg_pool p /\
   events p' = events p ++ [EvStatsAdd (PostCount E) 1; EvProbe osi nsi]).
Proof.
  intros nsi verb p' Hrest Hfwd Hjson Hval Hbmd Hhost Hne Hdup.
  assert (Hbmd' : (if NodeStarted p
                   then bmd_validateUUID E (owner_bmd p) (reg_BMD regReq) (si p) nsi
                   else None) = None).
  { destruct (NodeStarted p); [now apply Hbmd | reflexivity]. }
  split.
  - intros Hverb Hnode.
    assert (Hrun : p' = with_events
              (if ClusterStarted p then p else set_reg_pool p (reg_pool p ++ [regReq]))
              (events p ++
               [EvStatsAdd (PostCount E) 1; EvProbe osi nsi;
                EvInvalMsg (Errorf "duplicate node ID %q (%s, %s)"
                              [FStr (ID nsi); FNode osi; FNode nsi]) None])).
    { subst p'.
      unfold httpclupost, bind, checkRESTItems, do_forwardCP, get, ret, skip.
      rewrite Hrest. cbn -[httpclupost_node]. fold verb. rewrite Hverb.
      replace (inPrimaryTransition p && (AutoRegister =? Keepalive)%string) with false
        by (now rewrite andb_false_r).
      rewrite Hfwd. cbn -[httpclupost_node]. rewrite Hjson.
      unfold httpclupost_node, bind, get, ret, skip, invalmsghdlrf, emit, upd,
        do_detectDaemonDuplicate.
      cbn. fold nsi. rewrite Hval, Hbmd', Hhost.
      destruct (ClusterStarted p); cbn; fold nsi; rewrite Hnode, Hne; cbn;
        rewrite length_app; cbn [length]; rewrite Hdup; cbn;
        unfold with_events, add_event, set_reg_pool, set_rebalance; cbn;
        rewrite <- ?app_assoc; reflexivity. }
    split; [exact Hrun|]. rewrite Hrun.
    destruct (ClusterStarted p); cbn; repeat split.
  - intros Hverb Htr Hprim Hnode.
    assert (Hrun : p' = with_events
              (if negb (IsProxy nsi) && NodeStarted p && negb (owner_rmd_rebalance p)
               then set_rebalance p (reg_Reb regReq) else p)
              (events p ++ [EvStatsAdd (PostCount E) 1; EvProbe osi nsi])).
    { subst p'.
      unfold httpclupost, bind, checkRESTItems, do_forwardCP, get, ret, skip.
      rewrite Hrest. cbn -[httpclupost_node]. fold verb. rewrite Hverb, Htr.
      cbn -[httpclupost_node]. rewrite Hfwd. cbn -[httpclupost_node]. rewrite Hjson.
      unfold httpclupost_node, handleJoinKalive, addOrUpdateNode, bind, get, ret, skip,
        invalmsghdlrf, emit, upd, do_detectDaemonDuplicate.
      cbn. fold nsi. rewrite Hval, Hbmd', Hhost. cbn. rewrite Hprim. cbn.
      destruct (IsProxy nsi); cbn; rewrite Hnode, Hne; cbn;
        rewrite length_app; cbn [length]; rewrite Hdup; cbn.
      + unfold with_events, add_event, set_reg_pool, set_rebalance; cbn;
        rewrite <- ?app_assoc; reflexivity.
      + destruct (NodeStarted p); cbn; [destruct (owner_rmd_rebalance p); cbn|];
          unfold with_events, add_event, set_reg_pool, set_rebalance; cbn;
        rewrite <- ?app_assoc; reflexivity. }
    split; [exact Hrun|]. rewrite Hrun.
    destruct (negb (IsProxy nsi) && NodeStarted p && negb (owner_rmd_rebalance p));
      cbn; repeat split.
Qed.

Lemma httpclupost_duplicate_node_ID_witness :
  let p' := snd (httpclupost env_dup join_moved_t1 (primary_p1 true)) in
  owner_smap p' = smap3 /\
  events p' = [EvStatsAdd "post.n" 1; EvProbe (mk_node "t1" Target) moved_t1;
               EvInvalMsg (Errorf "duplicate node ID %q (%s, %s)"
                             [FStr "t1"; FNode (mk_node "t1" Target); FNode moved_t1]) None].
Proof.
  pose proof (httpclupost_duplicate_node_ID env_dup join_moved_t1 (primary_p1 true)
                [AutoRegister] _ (mk_node "t1" Target)
                eq_refl eq_refl eq_refl eq_refl (fun _ => eq_refl) eq_refl eq_refl eq_refl)
    as H.
  cbv zeta in H. destruct H as [H _].
  destruct (H eq_refl eq_refl) as (_ & HS & _ & _ & HE).
  cbv zeta. rewrite HS, HE. split; reflexivity.
Defined.

(** **** What leaves the registration pool alone *)

Lemma keeps_ret {A B} (f : proxyrunner -> B) (x : A) : keeps f (ret x).
Proof. now intros p. Qed.

Lemma keeps_get {B} (f : proxyrunner -> B) : keeps f get.
Proof. now intros p. Qed.

Lemma keeps_bind {A A' B} (f : proxyrunner -> B) (m : M A) (k : A -> M A') :
  keeps f m -> (forall a, keeps f (k a)) -> keeps f (bind m k).
Proof.
  intros Hm Hk p. unfold bind. specialize (Hm p).
  destruct (m p) as [a q]. cbn in Hm. now rewrite Hk.
Qed.

Lemma keeps_upd {B} (f : proxyrunner -> B) g : (forall p, f (g p) = f p) -> keeps f (upd g).
Proof. intros H p. apply H. Qed.

Lemma keeps_bind_from {A A' B} (f : proxyrunner -> B) (m : M A) (k : A -> M A') p :
  (forall a, keeps f (k a)) -> f (snd (bind m k p)) = f (snd (m p)).
Proof. intros Hk. unfold bind. destruct (m p) as [a q]. apply Hk. Qed.

(** Peels an action down to [ret], [get], [upd] and [emit]. *)
Ltac keeps_step :=
  first
    [ apply keeps_ret
    | apply keeps_get
    | apply keeps_upd; intros q; (reflexivity || (destruct (owner_rmd_rebalance q); reflexivity))
    | apply keeps_bind; [|intros ?]
    | assumption
    | match goal with
      | |- keeps _ (match ?x with _ => _ end) => destruct x
      end
    | progress cbv zeta ].

Ltac keeps_pool := repeat keeps_step.

Lemma bind_get {A} (k : proxyrunner -> M A) p : bind get k p = k p p.
Proof. reflexivity. Qed.

Lemma smap_modify_keeps_pool h ctx :
  (forall c m, keeps reg_pool (pre h c m)) ->
  (forall f c m, post h = Some f -> keeps reg_pool (f c m)) ->
  (forall f c m, final h = Some f -> keeps reg_pool (f c m)) ->
  keeps reg_pool (smap_modify h ctx).
Proof.
  intros Hpre Hpost Hfinal. unfold smap_modify, emit, skip.
  apply keeps_bind; [keeps_pool|intros _].
  apply keeps_bind; [keeps_pool|intros q].
  apply keeps_bind; [apply Hpre|intros [[c m] err]].
  destruct err; [keeps_pool|].
  apply keeps_bind; [keeps_pool|intros _].
  apply keeps_bind.
  - destruct (post h); [now apply Hpost | keeps_pool].
  - intros c'. apply keeps_bind; [|intros _; keeps_pool].
    destruct (final h); [now apply Hfinal | keeps_pool].
Qed.

Lemma updateAndDistribute_keeps_pool E nsi msg flags :
  keeps reg_pool (updateAndDistribute E nsi msg flags).
Proof.
  unfold updateAndDistribute. apply keeps_bind.
  - apply smap_modify_keeps_pool; cbn.
    + intros c m. unfold _updPre, emit, skip. keeps_pool.
    + intros f c m [= <-]. unfold _updPost, rmd_modify, emit. keeps_pool.
    + intros f c m [= <-]. unfold _updFinal, emit. keeps_pool.
  - intros [c err]. keeps_pool.
Qed.

Lemma handleJoinKalive_keeps_pool E nsi regSmap tag keepalive flags :
  keeps reg_pool (handleJoinKalive E nsi regSmap tag keepalive flags).
Proof.
  unfold handleJoinKalive, addOrUpdateNode, smap_put, do_detectDaemonDuplicate, emit.
  keeps_pool.
Qed.

(** After the pool has been dealt with, [httpclupost_node] does not touch
    it. *)
Lemma httpclupost_node_pool E r regReq tag keepalive userRegister selfRegister p :
  reg_pool (snd (httpclupost_node E r regReq tag keepalive userRegister selfRegister p))
  = if selfRegister && negb (ClusterStarted p) then reg_pool p ++ [regReq] else reg_pool p.
Proof.
  unfold httpclupost_node. rewrite bind_get, keeps_bind_from.
  - now destruct (selfRegister && negb (ClusterStarted p)).
  - intros _. unfold userRegisterNode, do_call, do_detectDaemonDuplicate, invalmsghdlr,
      invalmsghdlrf, emit, skip.
    repeat first [ apply handleJoinKalive_keeps_pool | apply updateAndDistribute_keeps_pool
                 | keeps_step ].
Qed.

(** X30.  Joins that arrive before the cluster has started are remembered:
    a self-registration handled by this proxy while [ClusterStarted] is
    false is appended to the registration pool -- whatever becomes of the
    join afterwards -- and nothing else ever changes the pool: not a
    keepalive, not a user-registration, not a request that is forwarded or
    whose body cannot be read, and no join after the start. *)
Theorem httpclupost_pools_early_joins
    (E : Env) (r : Request) (p : proxyrunner) (apiItems : list string) :
  let verb := hd "" apiItems in
  let p' := snd (httpclupost E r p) in
  rest r = inr apiItems ->
  (forall regReq,
     verb = AutoRegister -> forwardCP E p r = false -> json_regReq r = inr regReq ->
     ClusterStarted p = false ->
     reg_pool p' = reg_pool p ++ [regReq]) /\
  (verb <> AutoRegister \/ forwardCP E p r = true \/ ClusterStarted p = true \/
   (exists e, json_regReq r = inl e) ->
   reg_pool p' = reg_pool p).
Proof.
  intros verb p' Hrest. subst p'.
  unfold httpclupost, bind, checkRESTItems, do_forwardCP, get, ret, skip, invalmsghdlr,
    invalmsghdlrf, emit, upd.
  rewrite Hrest. cbn -[httpclupost_node String.eqb]. fold verb. split.
  - intros regReq Hverb Hfwd Hjson Hcs. rewrite Hverb.
    replace (inPrimaryTransition p && (AutoRegister =? Keepalive)%string) with false
      by (now rewrite andb_false_r).
    rewrite Hfwd. cbn -[httpclupost_node]. rewrite Hjson, httpclupost_node_pool, Hcs.
    reflexivity.
  - intros Hcase.
    destruct (inPrimaryTransition p && (verb =? Keepalive)%string); [reflexivity|].
    destruct (forwardCP E p r) eqn:Hfwd; cbn -[httpclupost_node String.eqb]; [reflexivity|].
    destruct (verb =? UserRegister)%string.
    { destruct (json_SI r); [reflexivity|]. now rewrite httpclupost_node_pool. }
    destruct (verb =? Keepalive)%string.
    { destruct (json_regReq r); [reflexivity|]. now rewrite httpclupost_node_pool. }
    destruct (String.eqb_spec verb AutoRegister) as [Hverb|Hverb]; [|reflexivity].
    destruct (json_regReq r) as [e|regReq] eqn:Hjson; [reflexivity|].
    rewrite httpclupost_node_pool.
    destruct Hcase as [H | [H | [H | [e H]]]];
      [contradiction | discriminate | now rewrite H | discriminate].
Qed.

Lemma httpclupost_pools_early_joins_witness :
  reg_pool (snd (httpclupost env_dup join_moved_t1 (primary_p1 false)))
  = [{| reg_Smap := None; reg_BMD := None; reg_SI := moved_t1; reg_Reb := false |}].
Proof.
  destruct (httpclupost_pools_early_joins env_dup join_moved_t1 (primary_p1 false)
              [AutoRegister] eq_refl) as [H _].
  apply (H _ eq_refl eq_refl eq_refl eq_refl).
Defined.

End AisFacts.

(** ** Archive readers *)

Module ArchiveFacts.
Import Archive.

Lemma namesEq_nonempty n1 n2 :
  n1 <> "" -> n2 <> "" ->
  namesEq n1 n2 = Returns (String.eqb (relname n1) (relname n2)).
Proof.
  destruct n1 as [|c1 r1]; [congruence|]. destruct n2 as [|c2 r2]; [congruence|].
  reflexivity.
Qed.

(** X14.  [namesEq] compares two names after dropping one leading separator
    from each; it is symmetric and holds of any non-empty name and itself;
    and it panics exactly when one of the names is empty. *)
Theorem namesEq_spec (n1 n2 : string) :
  (namesEq n1 n2 = Panics <-> n1 = "" \/ n2 = "") /\
  (n1 <> "" -> n2 <> "" ->
     namesEq n1 n2 = Returns (String.eqb (relname n1) (relname n2))) /\
  namesEq n1 n2 = namesEq n2 n1 /\
  (n1 <> "" -> namesEq n1 n1 = Returns true).
Proof.
  split; [|split; [|split]].
  - destruct n1 as [|c1 r1], n2 as [|c2 r2]; cbn; split; intros H;
      try reflexivity; try discriminate; auto; destruct H; discriminate.
  - apply namesEq_nonempty.
  - destruct n1 as [|c1 r1], n2 as [|c2 r2]; cbn; try reflexivity.
    now rewrite String.eqb_sym.
  - intros H. rewrite namesEq_nonempty by assumption. now rewrite String.eqb_refl.
Qed.

Lemma selects_matches name filename :
  name <> "" -> filename <> "" -> selects name filename = Returns (matches filename name).
Proof.
  intros Hn Hf. unfold selects, matches.
  destruct (String.eqb name filename); [reflexivity|].
  now rewrite namesEq_nonempty.
Qed.

Lemma tarRange_select readcb filename ending calls hdrs :
  filename <> "" ->
  Forall (fun h => Name h <> "") hdrs ->
  tarRange readcb filename hdrs ending calls =
    match List.find (fun h => matches filename (Name h)) hdrs with
    | Some h => (Returns (Some (limited h), None), calls)
    | None => (Returns (None, ending), calls)
    end.
Proof.
  intros Hf. induction 1 as [|h hdrs Hh Hall IH]; cbn.
  - now destruct ending.
  - destruct (String.eqb_spec filename ""); [contradiction|]. cbn.
    rewrite selects_matches by assumption.
    destruct (matches filename (Name h)); [reflexivity | exact IH].
Qed.

(** X15.  Selecting one file from a tar: with a non-empty file name and no
    empty entry names, [tarReader.Range] returns a reader for the first
    entry whose name matches (equal, or equal after dropping a leading
    separator on either side), limited to that entry's size; when no entry
    matches it returns no reader and the stream's end (nil at EOF, the read
    error otherwise).  The callback is never called. *)
Theorem tarReader_Range_selects_first
    (readcb : option ReadCB) (tr : tarStream) (filename : string) :
  filename <> "" ->
  Forall (fun h => Name h <> "") (entries tr) ->
  tarReader_Range readcb tr filename =
    match List.find (fun h => matches filename (Name h)) (entries tr) with
    | Some h => (Returns (Some {| of_entry := h; N := Size h |}, None), [])
    | None => (Returns (None, ending tr), [])
    end.
Proof. intros Hf Hall. unfold tarReader_Range. now apply tarRange_select. Qed.

Lemma tarReader_Range_selects_first_witness :
  tarReader_Range None tar3 "/data/b.txt"
  = (Returns (Some {| of_entry := {| Name := "data/b.txt"; Size := 20 |}; N := 20 |}, None), []).
Proof.
  apply (tarReader_Range_selects_first None tar3 "/data/b.txt").
  - discriminate.
  - repeat constructor; discriminate.
Defined.

(** X16.  An entry with an empty name makes the selection panic: if the
    entries before it have non-empty names that do not match, then
    [tarReader.Range] with a non-empty file name indexes into the empty
    name. *)
Theorem tarReader_Range_empty_name_panics
    (readcb : option ReadCB) (filename : string) (pre post : list Header)
    (h : Header) (ending : option error) :
  filename <> "" ->
  Forall (fun h => Name h <> "" /\ matches filename (Name h) = false) pre ->
  Name h = "" ->
  tarReader_Range readcb {| entries := pre ++ h :: post; ending := ending |} filename
  = (Panics, []).
Proof.
  intros Hf Hpre Hh. unfold tarReader_Range. cbn [entries Archive.ending].
  induction Hpre as [|p pre [Hp Hm] _ IH]; cbn.
  - destruct (String.eqb_spec filename ""); [contradiction|]. cbn.
    unfold selects. rewrite Hh.
    destruct (String.eqb_spec "" filename); [congruence | reflexivity].
  - destruct (String.eqb_spec filename ""); [contradiction|]. cbn.
    rewrite selects_matches, Hm by assumption. exact IH.
Qed.

Lemma tarReader_Range_empty_name_panics_witness :
  tarReader_Range None
    {| entries := [ {| Name := "a"; Size := 1 |}; {| Name := ""; Size := 0 |};
                    {| Name := "b"; Size := 2 |} ];
       ending := None |} "b"
  = (Panics, []).
Proof.
  apply (tarReader_Range_empty_name_panics None "b" [ {| Name := "a"; Size := 1 |} ]
           [ {| Name := "b"; Size := 2 |} ] {| Name := ""; Size := 0 |} None).
  - discriminate.
  - repeat constructor; discriminate.
  - reflexivity.
Defined.

Lemma visited_all {A} (cb : nat -> A -> bool * option error) (l : list A) :
  forall i, (forall j a, l !! j = Some a -> halts cb (i + j) a = false) ->
            visited cb i l = l.
Proof.
  induction l as [|a l IH]; intros i Hno; cbn; [reflexivity|].
  rewrite <- (Nat.add_0_r i) at 1. rewrite (Hno 0%nat a eq_refl).
  f_equal. apply IH. intros j b Hj. specialize (Hno (S j) b Hj).
  now replace (i + S j)%nat with (S i + j)%nat in Hno by lia.
Qed.

Lemma tarRange_reads cb ending hdrs :
  forall calls,
    exists err,
      tarRange (Some cb) "" hdrs ending calls
      = (Returns (None, err), calls ++ visited cb (length calls) (map limited hdrs)) /\
      ((forall j a, map limited hdrs !! j = Some a -> halts cb (length calls + j) a = false) ->
       err = ending).
Proof.
  induction hdrs as [|h hdrs IH]; intros calls.
  - cbn. exists ending. rewrite app_nil_r. split; [now destruct ending | reflexivity].
  - cbn [tarRange map visited]. cbn [String.eqb negb].
    assert (Hh : halts cb (length calls) (limited h)
                 = fst (cb (length calls) (limited h))
                   || bool_decide (snd (cb (length calls) (limited h)) <> None))
      by reflexivity.
    destruct (cb (length calls) (limited h)) as [stop err] eqn:Ecb. cbn [fst snd] in Hh.
    rewrite Hh.
    destruct (stop || bool_decide (err <> None)) eqn:Ehalt.
    + exists err. split; [reflexivity|]. intros Hno.
      specialize (Hno 0%nat (limited h) eq_refl).
      rewrite Nat.add_0_r in Hno. congruence.
    + destruct (IH (calls ++ [limited h])) as (err' & Heq & Hend).
      exists err'. rewrite Heq, length_app, <- app_assoc. cbn [length].
      rewrite Nat.add_1_r. split; [reflexivity|]. intros Hno. apply Hend.
      intros j a Hj. rewrite length_app, Nat.add_1_r. cbn [length].
      specialize (Hno (S j) a Hj).
      now replace (length calls + S j)%nat with (S (length calls) + j)%nat in Hno by lia.
Qed.

(** X17.  Range-reading a tar (empty file name, a callback): the callback is
    handed one size-limited reader per entry, in the order of the stream,
    up to and including the first call at which it says stop or returns an
    error, and no further; [Range] never returns a reader; and when the
    callback never halts, every entry is visited and the result is how the
    stream ended. *)
Theorem tarReader_Range_reads_in_order (cb : ReadCB) (tr : tarStream) :
  exists err,
    tarReader_Range (Some cb) tr ""
    = (Returns (None, err), visited cb 0 (map limited (entries tr))) /\
    ((forall j a, map limited (entries tr) !! j = Some a -> halts cb j a = false) ->
     err = ending tr /\
     visited cb 0 (map limited (entries tr)) = map limited (entries tr)).
Proof.
  unfold tarReader_Range.
  destruct (tarRange_reads cb (ending tr) (entries tr) []) as (err & Heq & Hend).
  exists err. split; [exact Heq|]. intros Hno. split; [now apply Hend|].
  now apply visited_all.
Qed.

Example tarReader_Range_two_only :
  tarReader_Range (Some two_only) tar3 ""
  = (Returns (None, None),
     [ limited {| Name := "/data/a.txt"; Size := 10 |};
       limited {| Name := "data/b.txt"; Size := 20 |} ]).
Proof. reflexivity. Qed.

(** [tarReader.Range] returns a reader only without an error. *)
Lemma tarRange_reader_no_error readcb filename ending hdrs :
  forall calls reader err calls',
    tarRange readcb filename hdrs ending calls = (Returns (Some reader, err), calls') ->
    err = None /\ In (of_entry reader) hdrs /\ N reader = Size (of_entry reader).
Proof.
  induction hdrs as [|h hdrs IH]; intros calls reader err calls'; cbn.
  - destruct ending; discriminate.
  - destruct (negb (String.eqb filename "")).
    + destruct (selects (Name h) filename) as [[|]|].
      * intros [= <- <- <-]. cbn. auto.
      * intros H. apply IH in H as (? & ? & ?). auto.
      * discriminate.
    + destruct readcb as [cb|]; [|discriminate].
      destruct (cb (length calls) (limited h)) as [stop e].
      destruct (stop || bool_decide (e <> None)); [discriminate|].
      intros H. apply IH in H as (? & ? & ?). auto.
Qed.

(** X18.  The tgz reader keeps the convention of its NOTE: whenever
    [tgzReader.Range] returns, it has closed the gzip reader exactly when it
    returns no reader; a reader it returns comes without an error and
    reports the size of an entry of the archive; and when it returns no
    reader, the error it returns is that of closing gzip -- an error of the
    tar stream does not surface. *)
Theorem tgzReader_Range_convention
    (readcb : option ReadCB) (tr : tarStream) (closeErr : option error) (filename : string)
    (reader : option tgzReadCloser) (err : option error) (calls : list cslLimited)
    (closed : bool) :
  tgzReader_Range readcb tr closeErr filename = (Returns (reader, err), calls, closed) ->
  (closed = true <-> reader = None) /\
  (reader = None -> err = closeErr) /\
  (forall r, reader = Some r ->
     err = None /\
     exists csc, r = ViaClose csc /\ In (of_entry (cR csc)) (entries tr) /\
                 cN csc = Size (of_entry (cR csc))).
Proof.
  unfold tgzReader_Range, tarReader_Range.
  destruct (tarRange readcb filename (entries tr) (ending tr) [])
    as [[[[rd|] e]|] calls0] eqn:Etar; [| |discriminate].
  - apply tarRange_reader_no_error in Etar as (-> & Hin & Hn).
    intros [= <- <- <- <-]. split; [split; discriminate|]. split; [discriminate|].
    intros r [= <-]. split; [reflexivity|]. eexists. split; [reflexivity|]. cbn. auto.
  - destruct e; intros [= <- <- <- <-]; cbn; repeat split; auto; discriminate.
Qed.

Lemma tgzReader_Range_convention_witness :
  (true = true <-> @None tgzReadCloser = None) /\
  (@None tgzReadCloser = None -> Some (ErrIO "close") = Some (ErrIO "close")) /\
  (forall r, None = Some r ->
     Some (ErrIO "close") = None /\
     exists csc, r = ViaClose csc /\
                 In (of_entry (cR csc))
                    (entries {| entries := []; ending := Some (ErrIO "unexpected EOF") |}) /\
                 cN csc = Size (of_entry (cR csc))).
Proof.
  apply (tgzReader_Range_convention None
           {| entries := []; ending := Some (ErrIO "unexpected EOF") |}
           (Some (ErrIO "close")) "a" None (Some (ErrIO "close")) [] true).
  reflexivity.
Defined.

Lemma zipRange_select readcb filename calls files :
  filename <> "" ->
  Forall (fun f => zIsDir f = false -> zName f <> "") files ->
  zipRange readcb filename files calls =
    match List.find (fun f => negb (zIsDir f) && matches filename (zName f)) files with
    | Some f => (Returns (Some (opened f), zOpen f), calls)
    | None => (Returns (None, None), calls)
    end.
Proof.
  intros Hf. induction 1 as [|f files Hn Hall IH]; cbn; [reflexivity|].
  destruct (zIsDir f) eqn:Hdir; cbn; [exact IH|].
  destruct (String.eqb_spec filename ""); [contradiction|]. cbn.
  rewrite selects_matches by auto.
  destruct (matches filename (zName f)); [reflexivity | exact IH].
Qed.

(** X19.  Selecting one file from a zip: directories are passed over, even
    when their name matches; the first matching file is opened and returned
    with its size -- together with the error of [Open] when opening fails,
    so a non-nil reader can come with an error; when no file matches,
    [zipReader.Range] returns neither a reader nor an error. *)
Theorem zipReader_Range_selects_first
    (readcb : option zipCB) (files : list zipFile) (filename : string) :
  filename <> "" ->
  Forall (fun f => zIsDir f = false -> zName f <> "") files ->
  zipReader_Range readcb files filename =
    match List.find (fun f => negb (zIsDir f) && matches filename (zName f)) files with
    | Some f =>
        (Returns (Some {| file := match zOpen f with None => Some f | Some _ => None end;
                          size := zSize f |}, zOpen f), [])
    | None => (Returns (None, None), [])
    end.
Proof. intros Hf Hall. unfold zipReader_Range. now apply zipRange_select. Qed.

Lemma zipReader_Range_selects_first_witness :
  zipReader_Range None
    [ {| zName := "a"; zIsDir := true; zSize := 0; zOpen := None |};
      {| zName := "/a"; zIsDir := false; zSize := 7; zOpen := Some (ErrIO "checksum") |} ] "a"
  = (Returns (Some {| file := None; size := 7 |}, Some (ErrIO "checksum")), []).
Proof.
  apply (zipReader_Range_selects_first None
           [ {| zName := "a"; zIsDir := true; zSize := 0; zOpen := None |};
             {| zName := "/a"; zIsDir := false; zSize := 7;
                zOpen := Some (ErrIO "checksum") |} ] "a").
  - discriminate.
  - repeat constructor; intros; discriminate.
Defined.

End ArchiveFacts.
